(** * Wallpaper Symmetry Lab: the geometric proof engine and its controller

    A shallow embedding of [src/utils/imageTools.ts] (patch sampler and the
    three transforms), of the proof-state handlers and the navigation
    handlers of [src/App.tsx], of the sliders of
    [src/components/ProofControls.tsx], and of the coordinate conversions,
    the canvas layout and the pointer handlers of
    [src/components/ImagePane.tsx].

    Modelling conventions.
    - A JavaScript [number] is a rational ([Q]): no NaN, no infinities.
      The arithmetic of the patch sampler, of the controller and of the
      sliders is exact.  The inputs of the counterexamples are whole
      numbers and dyadic fractions, on which the code's own arithmetic is
      exact in IEEE doubles as well.  The arithmetic of [ImagePane], which
      divides by the scale of the canvas and compares distances with
      radii, is a parameter ([Arith.t]) of its embedding: its properties
      hold whatever each operation rounds to.  Numeric results are
      compared with [==], structural results with [=].
    - [Math.round x] is [floor (x + 1/2)]; [Math.min] and [Math.max] are
      [Qmin] and [Qmax].
    - The 2D canvas is symbolic: a pixel buffer ([ImageData]) is the record
      of the canvas it was read from and of the context calls that drew on
      it.  Equal records denote equal pixels; nothing is said about the
      pixel values themselves.  Whether a 2D context can be acquired is a
      parameter ([context2d]).
    - An object used as a dictionary ([draftStore], [decisionTree.nodes]) is
      a [gmap] with string keys.  [src/decisionTree.ts] is a parameter
      ([decisionTree]) of the controller.
    - React: a handler computes the next state from the state of the render
      it closes over; after the render the two effects run in source order,
      each one when one of its dependencies differs from the previous
      render.  Dependencies are compared by structure; for the draft effect,
      which React would also re-run on a rebuilt but equal proof state, the
      skipped run would write the draft that is already stored
      ([draftEffect_redundant]).  One round of effects is enough
      ([commit_settles]).
    - The reachable states are those reached by any sequence of events,
      which includes every sequence the user interface allows.
    - The handlers of [ImagePane] read the properties of the render they
      were created in; [App] passes fresh callbacks at every render, so the
      window listeners are those of the latest render. *)

From Stdlib Require Import QArith Qminmax Qround Lqa Lia List.
From stdpp Require Import gmap strings.

(** ** JavaScript numbers *)

Module Js.
Local Open Scope Q_scope.

(** [Math.round]: the nearest integer, halves going up. *)
Definition Math_round (v : Q) : Q := inject_Z (Qfloor (v + (1 # 2))).

(** A number is truthy unless it is zero. *)
Definition truthy (v : Q) : bool := negb (Qeq_bool v 0).

(** A string is truthy unless it is empty. *)
Definition truthy_string (s : string) : bool :=
  match s with EmptyString => false | String _ _ => true end.

(** [a || b] on the unsigned dimensions of an image element. *)
Definition or_N (a b : N) : N := if (a =? 0)%N then b else a.

Definition of_N (n : N) : Q := inject_Z (Z.of_N n).

(** The value is a whole number. *)
Definition is_integer (v : Q) : Prop := v == inject_Z (Qfloor v).
End Js.

(** ** Geometry primitives ([src/types.ts]) *)

Module Point.
Record t : Type := mk { x : Q; y : Q }.
End Point.

Module Line.
Record t : Type := mk { x1 : Q; y1 : Q; x2 : Q; y2 : Q }.
End Line.

Inductive ProofType : Type := PTnone | PTrotation | PTmirror | PTglide.

Inductive LineKind : Type := Kmirror | Kglide.

(** ** The image element and the symbolic canvas *)

(** An image element, by its dimensions and its source.  The element is
    loaded or still loading: the broken state, on which [drawImage]
    throws, is outside the model. *)
Record HTMLImageElement : Type := {
  naturalWidth : N;
  naturalHeight : N;
  elementWidth : N;   (* the element's own [width] attribute *)
  elementHeight : N;
  currentSrc : string
}.

Module Canvas.
(** Angles are kept symbolic: [Deg d] is [d * Math.PI / 180],
    [Atan2 dy dx] is [Math.atan2(dy, dx)], [Neg a] is [-a]. *)
Inductive Angle : Type :=
| Deg (d : Q)
| Atan2 (dy dx : Q)
| Neg (a : Angle).

Inductive Call : Type :=
| save
| restore
| translate (tx ty : Q)
| rotate (a : Angle)
| scale (sx sy : Q)
| drawImage3 (image : HTMLImageElement) (dx dy : Q)
| drawImage9 (image : HTMLImageElement) (sx sy sw sh dx dy dw dh : Q).

(** A canvas, by the values its [width] and [height] were set to; the
    element keeps their integer parts. *)
Record t : Type := mk { width : Q; height : Q }.

(** What [ctx.getImageData(sx, sy, sw, sh)] returns after [calls] were
    issued, in that order, on the context of [canvas]; the arguments are
    recorded as they are passed. *)
Record ImageData : Type := getImageData {
  canvas : t;
  calls : list Call;
  sx : Q; sy : Q; sw : Q; sh : Q
}.
End Canvas.

Module PatchSample.
Record t : Type := mk {
  data : Canvas.ImageData;
  origin : Point.t;
  relativeCenter : Point.t;
  size : Q
}.
End PatchSample.

(** ** [src/utils/imageTools.ts] *)

Module ImageTools.
Local Open Scope Q_scope.

Definition PATCH_SIZE : Q := 280.

Definition clamp (value min max : Q) : Q := Qmax min (Qmin max value).

Definition createCanvas (width height : Q) : Canvas.t := Canvas.mk width height.

Definition availableWidth (image : HTMLImageElement) : N :=
  Js.or_N (naturalWidth image) (elementWidth image).

Definition availableHeight (image : HTMLImageElement) : N :=
  Js.or_N (naturalHeight image) (elementHeight image).

(** How a call ends: with a value, or with an exception of the canvas. *)
Inductive Exception : Type := IndexSizeError | TypeError.

Inductive Completion (A : Type) : Type :=
| Returns (value : A)
| Throws (exception : Exception).

Arguments Returns {A} value.
Arguments Throws {A} exception.

(** The conversion of a [number] to an [[EnforceRange] long] argument of
    the canvas interface: the fraction is cut off, and what is left has to
    be a 32-bit integer. *)
Definition to_long (v : Q) : Z := if Qle_bool 0 v then Qfloor v else Qceiling v.

Definition LONG_MIN : Z := (- 2 ^ 31)%Z.
Definition LONG_MAX : Z := (2 ^ 31 - 1)%Z.

Definition in_long (v : Q) : bool :=
  ((LONG_MIN <=? to_long v)%Z && (to_long v <=? LONG_MAX)%Z)%bool.

(** How [ctx.getImageData(0, 0, sw, sh)] fails, if it does: with a
    [TypeError] when the width or the height is out of the range of a
    [long], with an [IndexSizeError] when one of them is 0 as an
    integer. *)
Definition getImageData_exception (sw sh : Q) : option Exception :=
  if negb (in_long sw && in_long sh) then Some TypeError
  else if ((to_long sw =? 0)%Z || (to_long sh =? 0)%Z)%bool then Some IndexSizeError
  else None.

Section WithContext.
(** Whether [canvas.getContext('2d')] yields a context. *)
Variable context2d : bool.

(** The value [samplePatch] returns: [null] or the patch.  Whether the call
    returns at all is [samplePatch_call] below; the handlers of [App] call
    it with patch sizes of at least 40, where it always does on an image
    with a side of less than [2^31] pixels. *)
Definition samplePatch (image : HTMLImageElement) (center : Point.t) (size : Q)
  : option PatchSample.t :=
  let availableWidth := availableWidth image in
  let availableHeight := availableHeight image in
  if ((availableWidth =? 0)%N || (availableHeight =? 0)%N)%bool then None
  else
    let sampleSize :=
      Qmin (Qmin size (Js.of_N availableWidth)) (Js.of_N availableHeight) in
    let half := sampleSize / 2 in
    let startX :=
      clamp (Js.Math_round (Point.x center - half)) 0
            (Qmax 0 (Js.of_N availableWidth - sampleSize)) in
    let startY :=
      clamp (Js.Math_round (Point.y center - half)) 0
            (Qmax 0 (Js.of_N availableHeight - sampleSize)) in
    let canvas := createCanvas sampleSize sampleSize in
    if negb context2d then None
    else
      let data :=
        Canvas.getImageData canvas
          [Canvas.drawImage9 image startX startY sampleSize sampleSize
                             0 0 sampleSize sampleSize]
          0 0 sampleSize sampleSize in
      Some (PatchSample.mk data
              (Point.mk startX startY)
              (Point.mk (Point.x center - startX) (Point.y center - startY))
              sampleSize).

(** The call of [samplePatch] with its exceptions: [getImageData] throws
    when the side of the sample is 0 as an integer, that is for a side
    strictly between -1 and 1, and when it is out of the range of a
    [long]. *)
Definition samplePatch_call (image : HTMLImageElement) (center : Point.t) (size : Q)
  : Completion (option PatchSample.t) :=
  let availableWidth := availableWidth image in
  let availableHeight := availableHeight image in
  if ((availableWidth =? 0)%N || (availableHeight =? 0)%N)%bool then Returns None
  else
    let sampleSize :=
      Qmin (Qmin size (Js.of_N availableWidth)) (Js.of_N availableHeight) in
    let half := sampleSize / 2 in
    let startX :=
      clamp (Js.Math_round (Point.x center - half)) 0
            (Qmax 0 (Js.of_N availableWidth - sampleSize)) in
    let startY :=
      clamp (Js.Math_round (Point.y center - half)) 0
            (Qmax 0 (Js.of_N availableHeight - sampleSize)) in
    let canvas := createCanvas sampleSize sampleSize in
    if negb context2d then Returns None
    else
      match getImageData_exception sampleSize sampleSize with
      | Some exception => Throws exception
      | None =>
        let data :=
          Canvas.getImageData canvas
            [Canvas.drawImage9 image startX startY sampleSize sampleSize
                               0 0 sampleSize sampleSize]
            0 0 sampleSize sampleSize in
        Returns (Some (PatchSample.mk data
                         (Point.mk startX startY)
                         (Point.mk (Point.x center - startX) (Point.y center - startY))
                         sampleSize))
      end.

Definition rotatePatch (sample : PatchSample.t) (angleDeg : Q)
           (image : HTMLImageElement) : Canvas.ImageData :=
  let destCanvas := createCanvas (PatchSample.size sample) (PatchSample.size sample) in
  if negb context2d then PatchSample.data sample
  else
    let angleRad := Canvas.Deg angleDeg in
    let c := PatchSample.relativeCenter sample in
    let o := PatchSample.origin sample in
    Canvas.getImageData destCanvas
      [Canvas.save;
       Canvas.translate (Point.x c) (Point.y c);
       Canvas.rotate angleRad;
       Canvas.translate (- Point.x c) (- Point.y c);
       Canvas.drawImage3 image (- Point.x o) (- Point.y o);
       Canvas.restore]
      0 0 (PatchSample.size sample) (PatchSample.size sample).

Definition relativeLine (sample : PatchSample.t) (line : Line.t) : Line.t :=
  let o := PatchSample.origin sample in
  Line.mk (Line.x1 line - Point.x o) (Line.y1 line - Point.y o)
          (Line.x2 line - Point.x o) (Line.y2 line - Point.y o).

Definition reflectPatch (sample : PatchSample.t) (line : Line.t)
           (image : HTMLImageElement) : Canvas.ImageData :=
  let destCanvas := createCanvas (PatchSample.size sample) (PatchSample.size sample) in
  if negb context2d then PatchSample.data sample
  else
    let relativeLine := relativeLine sample line in
    let o := PatchSample.origin sample in
    let angle :=
      Canvas.Atan2 (Line.y2 relativeLine - Line.y1 relativeLine)
                   (Line.x2 relativeLine - Line.x1 relativeLine) in
    Canvas.getImageData destCanvas
      [Canvas.save;
       Canvas.translate (Line.x1 relativeLine) (Line.y1 relativeLine);
       Canvas.rotate angle;
       Canvas.scale 1 (-1);
       Canvas.rotate (Canvas.Neg angle);
       Canvas.translate (- Line.x1 relativeLine) (- Line.y1 relativeLine);
       Canvas.drawImage3 image (- Point.x o) (- Point.y o);
       Canvas.restore]
      0 0 (PatchSample.size sample) (PatchSample.size sample).

Definition glidePatch (sample : PatchSample.t) (line : Line.t) (distance : Q)
           (image : HTMLImageElement) : Canvas.ImageData :=
  let destCanvas := createCanvas (PatchSample.size sample) (PatchSample.size sample) in
  if negb context2d then PatchSample.data sample
  else
    let relativeLine := relativeLine sample line in
    let o := PatchSample.origin sample in
    let angle :=
      Canvas.Atan2 (Line.y2 relativeLine - Line.y1 relativeLine)
                   (Line.x2 relativeLine - Line.x1 relativeLine) in
    Canvas.getImageData destCanvas
      [Canvas.save;
       Canvas.translate (Line.x1 relativeLine) (Line.y1 relativeLine);
       Canvas.rotate angle;
       Canvas.scale 1 (-1);
       Canvas.translate distance 0;
       Canvas.rotate (Canvas.Neg angle);
       Canvas.translate (- Line.x1 relativeLine) (- Line.y1 relativeLine);
       Canvas.drawImage3 image (- Point.x o) (- Point.y o);
       Canvas.restore]
      0 0 (PatchSample.size sample) (PatchSample.size sample).
End WithContext.
End ImageTools.

(** ** Decidable equality of the data, used to compare effect dependencies *)

#[global] Instance Q_eq_dec : EqDecision Q.
Proof. solve_decision. Defined.
#[global] Instance Point_eq_dec : EqDecision Point.t.
Proof. solve_decision. Defined.
#[global] Instance Line_eq_dec : EqDecision Line.t.
Proof. solve_decision. Defined.
#[global] Instance ProofType_eq_dec : EqDecision ProofType.
Proof. solve_decision. Defined.
#[global] Instance LineKind_eq_dec : EqDecision LineKind.
Proof. solve_decision. Defined.
#[global] Instance HTMLImageElement_eq_dec : EqDecision HTMLImageElement.
Proof. solve_decision. Defined.
#[global] Instance Angle_eq_dec : EqDecision Canvas.Angle.
Proof. solve_decision. Defined.
#[global] Instance Call_eq_dec : EqDecision Canvas.Call.
Proof. solve_decision. Defined.
#[global] Instance Canvas_eq_dec : EqDecision Canvas.t.
Proof. solve_decision. Defined.
#[global] Instance ImageData_eq_dec : EqDecision Canvas.ImageData.
Proof. solve_decision. Defined.
#[global] Instance PatchSample_eq_dec : EqDecision PatchSample.t.
Proof. solve_decision. Defined.

(** ** Shared state types ([src/types.ts]) *)

Module ImageState.
Record t : Type := mk {
  src : option string;
  element : option HTMLImageElement;
  width : Q;
  height : Q
}.
End ImageState.

Module UnitCellState.
Record t : Type := mk { A : Point.t; B : Point.t; C : Point.t; D : Point.t }.
End UnitCellState.

Module ProofState.
(** [BaseProofState] without the [type] tag, which is the constructor. *)
Record Base : Type := mkBase {
  ready : bool;
  before : option Canvas.ImageData;
  after : option Canvas.ImageData;
  patchSize : Q;
  patchSample : option PatchSample.t
}.

Inductive t : Type :=
| Rotation (b : Base) (center : option Point.t) (angleDeg : Q) (repeats : Q)
| Mirror (b : Base) (line : option Line.t)
| Glide (b : Base) (line : option Line.t) (distance : Q)
| NoProof (b : Base).

Definition base (s : t) : Base :=
  match s with
  | Rotation b _ _ _ => b
  | Mirror b _ => b
  | Glide b _ _ => b
  | NoProof b => b
  end.

Definition type (s : t) : ProofType :=
  match s with
  | Rotation _ _ _ _ => PTrotation
  | Mirror _ _ => PTmirror
  | Glide _ _ _ => PTglide
  | NoProof _ => PTnone
  end.

(** The [line] field of the mirror and glide variants. *)
Definition line (s : t) : option Line.t :=
  match s with
  | Mirror _ l => l
  | Glide _ l _ => l
  | _ => None
  end.

(** The [center] field of the rotation variant. *)
Definition center (s : t) : option Point.t :=
  match s with
  | Rotation _ c _ _ => c
  | _ => None
  end.

(** The [distance] field of the glide variant. *)
Definition distance (s : t) : option Q :=
  match s with
  | Glide _ _ d => Some d
  | _ => None
  end.

(** The [repeats] field of the rotation variant. *)
Definition repeats (s : t) : option Q :=
  match s with
  | Rotation _ _ _ r => Some r
  | _ => None
  end.

(** The [angleDeg] field of the rotation variant. *)
Definition angleDeg (s : t) : option Q :=
  match s with
  | Rotation _ _ a _ => Some a
  | _ => None
  end.

(** [{ ...prev, patchSize: size }] *)
Definition with_patchSize (size : Q) (s : t) : t :=
  let upd b := mkBase (ready b) (before b) (after b) size (patchSample b) in
  match s with
  | Rotation b c a r => Rotation (upd b) c a r
  | Mirror b l => Mirror (upd b) l
  | Glide b l d => Glide (upd b) l d
  | NoProof b => NoProof (upd b)
  end.
End ProofState.

Module Answer.
Record t : Type := mk {
  key : string;
  label : string;
  next : string;
  proofType : option ProofType;
  rotationAngleDeg : option Q
}.
End Answer.

Module Question.
Record t : Type := mk {
  id : string;
  questionText : string;
  proofType : option ProofType;
  note : list string;
  needsUnitCell : option bool;
  answers : list Answer.t
}.
End Question.

Module Leaf.
Record t : Type := mk {
  id : string;
  groupCode : string;
  description : option string
}.
End Leaf.

Inductive DecisionTreeNode : Type :=
| question (q : Question.t)
| leaf (l : Leaf.t).

Module DecisionTree.
Record t : Type := mk {
  start : string;
  nodes : gmap string DecisionTreeNode
}.
End DecisionTree.

Module HistoryEntry.
Record t : Type := mk {
  nodeId : string;
  selectedAnswerKey : option string
}.
End HistoryEntry.

#[global] Instance Base_eq_dec : EqDecision ProofState.Base.
Proof. solve_decision. Defined.
#[global] Instance ProofState_eq_dec : EqDecision ProofState.t.
Proof. solve_decision. Defined.
#[global] Instance Answer_eq_dec : EqDecision Answer.t.
Proof. solve_decision. Defined.
#[global] Instance Question_eq_dec : EqDecision Question.t.
Proof. solve_decision. Defined.
#[global] Instance Leaf_eq_dec : EqDecision Leaf.t.
Proof. solve_decision. Defined.
#[global] Instance DecisionTreeNode_eq_dec : EqDecision DecisionTreeNode.
Proof. solve_decision. Defined.

(** ** The proof-state handlers of [src/App.tsx]

    Each handler is the function it passes to [setProofState], guarded by
    the handler's own early returns; [image] is the [ImageState] of the
    render the handler closes over. *)

Module Proof.
Import ProofState.
Local Open Scope Q_scope.

Definition createProofState (type : ProofType) (rotationAngleDeg : option Q)
  : ProofState.t :=
  let base :=
    mkBase (bool_decide (type = PTnone)) None None ImageTools.PATCH_SIZE None in
  match type with
  | PTrotation => Rotation base None (default 180 rotationAngleDeg) 1
  | PTmirror => Mirror base None
  | PTglide => Glide base None 0.5
  | PTnone => NoProof base
  end.

(** [useMemo patchSizeLimits] *)
Definition patchSizeLimits (image : ImageState.t) : Q * Q :=
  match ImageState.element image with
  | Some _ =>
    if (negb (Js.truthy (ImageState.width image))
        || negb (Js.truthy (ImageState.height image)))%bool
    then (60, 600)
    else
      let minDim := Qmin (ImageState.width image) (ImageState.height image) in
      let max := Qmax 80 minDim in
      let min := Qmax 40 (Qmin (max - 20) (minDim * 0.2)) in
      (min, max)
  | None => (60, 600)
  end.

(** The [glideMaxDistance] property handed to [ProofControls]. *)
Definition glideMaxDistance (image : ImageState.t) (proofState : ProofState.t) : Q :=
  match patchSample (base proofState) with
  | Some sample =>
    if Js.truthy (ImageState.width image)
    then ImageState.width image / PatchSample.size sample
    else 1
  | None => 1
  end.

Definition midPoint (line : Line.t) : Point.t :=
  Point.mk ((Line.x1 line + Line.x2 line) / 2) ((Line.y1 line + Line.y2 line) / 2).

(** [Math.max(image.width ?? 0, image.height ?? 0)] *)
Definition baseLength (image : ImageState.t) : Q :=
  Qmax (ImageState.width image) (ImageState.height image).

Section WithContext.
Variable context2d : bool.

Definition handleRotationPick (image : ImageState.t) (point : Point.t)
           (prev : ProofState.t) : ProofState.t :=
  match ImageState.element image with
  | None => prev
  | Some img =>
    match prev with
    | Rotation b _ angleDeg repeats =>
      match ImageTools.samplePatch context2d img point (patchSize b) with
      | None => prev
      | Some patch =>
        let rotated := ImageTools.rotatePatch context2d patch (angleDeg * repeats) img in
        Rotation (mkBase true (Some (PatchSample.data patch)) (Some rotated)
                         (patchSize b) (Some patch))
                 (Some point) angleDeg repeats
      end
    | _ => prev
    end
  end.

Definition captureLine (image : ImageState.t) (line : Line.t) (kind : LineKind)
           (isFinal : bool) (prev : ProofState.t) : ProofState.t :=
  match ImageState.element image with
  | None => prev
  | Some img =>
    match kind, prev with
    | Kmirror, Mirror b _ =>
      match ImageTools.samplePatch context2d img (midPoint line) (patchSize b) with
      | None => prev
      | Some patch =>
        let reflected := ImageTools.reflectPatch context2d patch line img in
        Mirror (mkBase (if isFinal then true else ready b)
                       (Some (PatchSample.data patch)) (Some reflected)
                       (patchSize b) (Some patch))
               (Some line)
      end
    | Kglide, Glide b _ distance =>
      match ImageTools.samplePatch context2d img (midPoint line) (patchSize b) with
      | None => prev
      | Some patch =>
        let distancePx := distance * (PatchSample.size patch / 2) in
        let glided := ImageTools.glidePatch context2d patch line distancePx img in
        Glide (mkBase (if isFinal then true else ready b)
                      (Some (PatchSample.data patch)) (Some glided)
                      (patchSize b) (Some patch))
              (Some line) distance
      end
    | _, _ => prev
    end
  end.

Definition handleMirrorLine image line := captureLine image line Kmirror true.
Definition handleGlideLine image line := captureLine image line Kglide true.
Definition handleDraftLine image line kind := captureLine image line kind false.

Definition handleGlideDistanceChange (image : ImageState.t) (value : Q)
           (prev : ProofState.t) : ProofState.t :=
  match ImageState.element image with
  | None => prev
  | Some img =>
    let baseLength := baseLength image in
    match prev with
    | Glide b (Some line) _ =>
      match patchSample b with
      | Some sample =>
        let distancePx := value * baseLength in
        let after := ImageTools.glidePatch context2d sample line distancePx img in
        Glide (mkBase (ready b) (before b) (Some after) (patchSize b) (patchSample b))
              (Some line) value
      | None => prev
      end
    | _ => prev
    end
  end.

Definition resizePatch (image : ImageState.t) (prev : ProofState.t) (size : Q)
  : ProofState.t :=
  match ImageState.element image with
  | None => with_patchSize size prev
  | Some img =>
    match prev with
    | Rotation b (Some center) angleDeg repeats =>
      match ImageTools.samplePatch context2d img center size with
      | None => with_patchSize size prev
      | Some patch =>
        let rotated := ImageTools.rotatePatch context2d patch (angleDeg * repeats) img in
        Rotation (mkBase (ready b) (Some (PatchSample.data patch)) (Some rotated)
                         size (Some patch))
                 (Some center) angleDeg repeats
      end
    | Mirror b (Some line) =>
      match ImageTools.samplePatch context2d img (midPoint line) size with
      | None => with_patchSize size prev
      | Some patch =>
        let reflected := ImageTools.reflectPatch context2d patch line img in
        Mirror (mkBase (ready b) (Some (PatchSample.data patch)) (Some reflected)
                       size (Some patch))
               (Some line)
      end
    | Glide b (Some line) distance =>
      match ImageTools.samplePatch context2d img (midPoint line) size with
      | None => with_patchSize size prev
      | Some patch =>
        let baseLength := baseLength image in
        let distancePx := distance * baseLength in
        let glided := ImageTools.glidePatch context2d patch line distancePx img in
        Glide (mkBase (ready b) (Some (PatchSample.data patch)) (Some glided)
                      size (Some patch))
              (Some line) distance
      end
    | _ => with_patchSize size prev
    end
  end.

Definition handlePatchSizeChange (image : ImageState.t) (value : Q)
           (prev : ProofState.t) : ProofState.t :=
  let limits := patchSizeLimits image in
  let clamped := Qmin (Qmax value (fst limits)) (snd limits) in
  resizePatch image prev clamped.

Definition handleRotationRepeatChange (image : ImageState.t) (value : Q)
           (prev : ProofState.t) : ProofState.t :=
  match ImageState.element image with
  | None => prev
  | Some img =>
    let repeats := Qmax 1 value in
    match prev with
    | Rotation b (Some center) angleDeg _ =>
      match patchSample b with
      | Some sample =>
        let rotated := ImageTools.rotatePatch context2d sample (angleDeg * repeats) img in
        Rotation (mkBase (ready b) (before b) (Some rotated) (patchSize b) (patchSample b))
                 (Some center) angleDeg repeats
      | None => prev
      end
    | _ => prev
    end
  end.

(** The operations a user can apply to the proof of the selected answer. *)
Inductive Op : Type :=
| RotationPick (point : Point.t)
| CaptureLine (line : Line.t) (kind : LineKind) (isFinal : bool)
| GlideDistanceChange (value : Q)
| PatchSizeChange (value : Q)
| RotationRepeatChange (value : Q).

Definition apply (image : ImageState.t) (op : Op) (prev : ProofState.t) : ProofState.t :=
  match op with
  | RotationPick point => handleRotationPick image point prev
  | CaptureLine line kind isFinal => captureLine image line kind isFinal prev
  | GlideDistanceChange value => handleGlideDistanceChange image value prev
  | PatchSizeChange value => handlePatchSizeChange image value prev
  | RotationRepeatChange value => handleRotationRepeatChange image value prev
  end.

(** The proof states reached from a fresh proof by any sequence of operations. *)
Fixpoint run (image : ImageState.t) (ops : list Op) (st : ProofState.t) : ProofState.t :=
  match ops with
  | [] => st
  | op :: rest => run image rest (apply image op st)
  end.
End WithContext.
End Proof.

(** ** The range inputs of [src/components/ProofControls.tsx] *)

Module ProofControls.
Local Open Scope Q_scope.

(** An [<input type="range">] reports values between [min] and [max] that
    lie a whole number of [step]s above [min]. *)
Definition range_reports (min max step value : Q) : bool :=
  (Qle_bool min value && Qle_bool value max
   && Qeq_bool ((value - min) / step) (inject_Z (Qfloor ((value - min) / step))))%bool.

(** The glide slider: [min={0} max={glideMaxDistance} step={0.02}]. *)
Definition glideSlider_reports (glideMaxDistance value : Q) : bool :=
  range_reports 0 glideMaxDistance 0.02 value.

(** [disabled = !interactionsEnabled || !proofState.line] *)
Definition glideSlider_disabled (interactionsEnabled : bool) (proofState : ProofState.t)
  : bool :=
  (negb interactionsEnabled
   || match ProofState.line proofState with Some _ => false | None => true end)%bool.
End ProofControls.

(** ** The navigation controller of [src/App.tsx] *)

Module App.
Import ProofState.
Local Open Scope Q_scope.

(** The [useState] cells of [App] ([objectUrl], kept only to revoke the
    URL of the previous upload, is left out). *)
Record State : Type := mkState {
  image : ImageState.t;
  currentNodeId : string;
  selectedAnswerKey : option string;
  proofState : ProofState.t;
  history : list HistoryEntry.t;
  draftStore : gmap string (gmap string ProofState.t);
  unitCell : UnitCellState.t
}.

Definition initialImageState : ImageState.t := ImageState.mk None None 0 0.

Definition defaultUnitCell : UnitCellState.t :=
  UnitCellState.mk (Point.mk 0.15 0.15) (Point.mk 0.45 0.15)
                   (Point.mk 0.2 0.45) (Point.mk 0.5 0.45).

Definition resolveProofRequirements (node : Question.t) (answer : option Answer.t)
  : ProofType * option Q :=
  let type :=
    default (default PTnone (Question.proofType node))
            (answer ≫= Answer.proofType) in
  (type, answer ≫= Answer.rotationAngleDeg).

(** [answers.find((candidate) => candidate.key === answerKey)] *)
Definition findAnswer (node : Question.t) (answerKey : string) : option Answer.t :=
  List.find (fun candidate => bool_decide (Answer.key candidate = answerKey))
            (Question.answers node).

(** [(draftStore[nodeId] ?? {})[answerKey]] *)
Definition lookupDraft (store : gmap string (gmap string ProofState.t))
           (nodeId answerKey : string) : option ProofState.t :=
  default ∅ (store !! nodeId) !! answerKey.

(** [nextHistory.pop()]: the entries before the last one, and the last one. *)
Definition pop {A : Type} (l : list A) : option (list A * A) :=
  match List.rev l with
  | [] => None
  | last :: front => Some (List.rev front, last)
  end.

Definition clamp01 (p : Point.t) : Point.t :=
  Point.mk (Qmin (Qmax (Point.x p) 0) 1) (Qmin (Qmax (Point.y p) 0) 1).

Section WithTree.
Variable context2d : bool.
Variable decisionTree : DecisionTree.t.

Definition initialState : State :=
  mkState initialImageState (DecisionTree.start decisionTree) None
          (Proof.createProofState PTnone None) [] ∅ defaultUnitCell.

Definition currentNode (s : State) : option DecisionTreeNode :=
  DecisionTree.nodes decisionTree !! currentNodeId s.

Definition imageReady (s : State) : bool :=
  match ImageState.element (image s) with Some _ => true | None => false end.

Definition with_proofState (p : ProofState.t) (s : State) : State :=
  mkState (image s) (currentNodeId s) (selectedAnswerKey s) p (history s)
          (draftStore s) (unitCell s).

Definition with_draftStore (d : gmap string (gmap string ProofState.t)) (s : State)
  : State :=
  mkState (image s) (currentNodeId s) (selectedAnswerKey s) (proofState s)
          (history s) d (unitCell s).

(** [img.onload] of [handleFileChange] *)
Definition handleFileLoaded (url : string) (img : HTMLImageElement) (s : State) : State :=
  mkState (ImageState.mk (Some url) (Some img)
                         (Js.of_N (naturalWidth img)) (Js.of_N (naturalHeight img)))
          (DecisionTree.start decisionTree) None
          (Proof.createProofState PTnone None) [] (draftStore s) defaultUnitCell.

Definition handleRestart (s : State) : State :=
  mkState (image s) (DecisionTree.start decisionTree) None
          (Proof.createProofState PTnone None) [] ∅ defaultUnitCell.

Definition handleUnitCellChange (next : UnitCellState.t) (s : State) : State :=
  mkState (image s) (currentNodeId s) (selectedAnswerKey s) (proofState s)
          (history s) (draftStore s)
          (UnitCellState.mk (clamp01 (UnitCellState.A next)) (clamp01 (UnitCellState.B next))
                            (clamp01 (UnitCellState.C next)) (clamp01 (UnitCellState.D next))).

Definition handleSelectAnswer (answerKey : string) (s : State) : State :=
  if negb (imageReady s) then s
  else
    match currentNode s with
    | Some (question node) =>
      match findAnswer node answerKey with
      | None => s
      | Some answer =>
        let '(type, rotationAngleDeg) := resolveProofRequirements node (Some answer) in
        let existingDraft := lookupDraft (draftStore s) (currentNodeId s) answerKey in
        let newProofState :=
          default (Proof.createProofState type rotationAngleDeg) existingDraft in
        mkState (image s) (currentNodeId s) (Some answerKey) newProofState
                (history s) (draftStore s) (unitCell s)
      end
    | _ => s
    end.

Definition handleResetProof (s : State) : State :=
  match currentNode s, selectedAnswerKey s with
  | Some (question node), Some key =>
    if negb (Js.truthy_string key) then s
    else
      match findAnswer node key with
      | None => s
      | Some answer =>
        let '(type, rotationAngleDeg) := resolveProofRequirements node (Some answer) in
        with_proofState (Proof.createProofState type rotationAngleDeg) s
      end
  | _, _ => s
  end.

Definition handleChangeAnswer (s : State) : State :=
  mkState (image s) (currentNodeId s) None (Proof.createProofState PTnone None)
          (history s) (draftStore s) (unitCell s).

Definition handleConfirmAnswer (s : State) : State :=
  match currentNode s, selectedAnswerKey s with
  | Some (question node), Some key =>
    if (negb (Js.truthy_string key) || negb (ready (base (proofState s))))%bool then s
    else
      match findAnswer node key with
      | None => s
      | Some answer =>
        let next := Answer.next answer in
        mkState (image s) next None (Proof.createProofState PTnone None)
                (history s ++ [HistoryEntry.mk (Question.id node) (Some key)])
                (<[next := default ∅ (draftStore s !! next)]> (draftStore s))
                (unitCell s)
      end
  | _, _ => s
  end.

Definition handleBack (s : State) : State :=
  match pop (history s) with
  | None => s
  | Some (nextHistory, last) =>
    let nodeId := HistoryEntry.nodeId last in
    let restored :=
      match DecisionTree.nodes decisionTree !! nodeId, HistoryEntry.selectedAnswerKey last with
      | Some (question node), Some key =>
        if Js.truthy_string key then
          match lookupDraft (draftStore s) nodeId key with
          | Some storedDraft => storedDraft
          | None =>
            let '(type, rotationAngleDeg) :=
              resolveProofRequirements node (findAnswer node key) in
            Proof.createProofState type rotationAngleDeg
          end
        else Proof.createProofState PTnone None
      | _, _ => Proof.createProofState PTnone None
      end in
    mkState (image s) nodeId (HistoryEntry.selectedAnswerKey last) restored
            nextHistory (draftStore s) (unitCell s)
  end.

(** *** Events and effects *)

Inductive Event : Type :=
| FileLoaded (url : string) (img : HTMLImageElement)
| Restart
| UnitCellChange (next : UnitCellState.t)
| SelectAnswer (answerKey : string)
| ResetProof
| ChangeAnswer
| ConfirmAnswer
| Back
| ProofOp (op : Proof.Op).

(** The state the handler of an event leaves for the next render. *)
Definition handle (e : Event) (s : State) : State :=
  match e with
  | FileLoaded url img => handleFileLoaded url img s
  | Restart => handleRestart s
  | UnitCellChange next => handleUnitCellChange next s
  | SelectAnswer answerKey => handleSelectAnswer answerKey s
  | ResetProof => handleResetProof s
  | ChangeAnswer => handleChangeAnswer s
  | ConfirmAnswer => handleConfirmAnswer s
  | Back => handleBack s
  | ProofOp op => with_proofState (Proof.apply context2d (image s) op (proofState s)) s
  end.

(** [selectedAnswerKey && ...]: an answer is selected. *)
Definition answerSelected (s : State) : option string :=
  match selectedAnswerKey s with
  | Some key => if Js.truthy_string key then Some key else None
  | None => None
  end.

(** The condition of the auto-confirm effect. *)
Definition autoConfirmDue (s : State) : bool :=
  match answerSelected s, currentNode s with
  | Some _, Some (question _) => bool_decide (type (proofState s) = PTnone)
  | _, _ => false
  end.

(** Dependencies [proofState.type, selectedAnswerKey, currentNode]. *)
Definition autoConfirmDeps (s : State) : ProofType * option string * option DecisionTreeNode :=
  (type (proofState s), selectedAnswerKey s, currentNode s).

(** Dependencies [currentNodeId, proofState, selectedAnswerKey]. *)
Definition draftDeps (s : State) : string * ProofState.t * option string :=
  (currentNodeId s, proofState s, selectedAnswerKey s).

(** The auto-confirm effect of the render of [cur]: it calls the
    [handleConfirmAnswer] of that render. *)
Definition autoConfirmEffect (cur : State) : State :=
  if autoConfirmDue cur then handleConfirmAnswer cur else cur.

(** The draft write-through effect of the render of [cur]: its updater
    is applied to the draft store [acc] holds after the updates queued
    before it. *)
Definition draftEffect (cur acc : State) : State :=
  match answerSelected cur with
  | None => acc
  | Some key =>
    let prev := draftStore acc in
    let nodeDrafts := default ∅ (prev !! currentNodeId cur) in
    with_draftStore
      (<[currentNodeId cur := <[key := proofState cur]> nodeDrafts]> prev) acc
  end.

(** The effects run after the render of [cur], the previous render being
    that of [prev]. *)
Definition commit (prev cur : State) : State :=
  let s1 :=
    if bool_decide (autoConfirmDeps cur = autoConfirmDeps prev) then cur
    else autoConfirmEffect cur in
  if bool_decide (draftDeps cur = draftDeps prev) then s1
  else draftEffect cur s1.

(** One user event: its handler, then the effects of the next render. *)
Definition dispatch (e : Event) (s : State) : State := commit s (handle e s).

(** The states the application can be in between two events. *)
Inductive reachable : State -> Prop :=
| reachable_initial : reachable initialState
| reachable_dispatch e s : reachable s -> reachable (dispatch e s).

Fixpoint dispatch_all (events : list Event) (s : State) : State :=
  match events with
  | [] => s
  | e :: rest => dispatch_all rest (dispatch e s)
  end.
End WithTree.
End App.

(** ** Vocabulary of the properties *)

Local Open Scope Q_scope.

(** The proof type a line of the given kind belongs to. *)
Definition LineKind_type (kind : LineKind) : ProofType :=
  match kind with Kmirror => PTmirror | Kglide => PTglide end.

(** What the controls let through: the glide slider reports only values
    of its range at the time it is moved. *)
Definition offered (image : ImageState.t) (st : ProofState.t) (op : Proof.Op) : Prop :=
  match op with
  | Proof.GlideDistanceChange value =>
    ProofControls.glideSlider_reports (Proof.glideMaxDistance image st) value = true
  | _ => True
  end.

Fixpoint offered_run (context2d : bool) (image : ImageState.t) (ops : list Proof.Op)
         (st : ProofState.t) : Prop :=
  match ops with
  | [] => True
  | op :: rest =>
    offered image st op /\ offered_run context2d image rest (Proof.apply context2d image op st)
  end.

(** What [handleConfirmAnswer] does when it goes through. *)
Definition confirmed (s : App.State) (node : Question.t) (key : string)
           (answer : Answer.t) : App.State :=
  App.mkState (App.image s) (Answer.next answer) None
              (Proof.createProofState PTnone None)
              (App.history s ++ [HistoryEntry.mk (Question.id node) (Some key)])
              (<[Answer.next answer := default ∅ (App.draftStore s !! Answer.next answer)]>
                 (App.draftStore s))
              (App.unitCell s).

(** The node stored under an id carries that id. *)
Definition wf_tree (tree : DecisionTree.t) : Prop :=
  forall id node,
    DecisionTree.nodes tree !! id = Some (question node) -> Question.id node = id.

(** [key] is the key of an answer of the question stored under [nodeId]. *)
Definition valid_choice (tree : DecisionTree.t) (nodeId key : string) : Prop :=
  exists node answer,
    DecisionTree.nodes tree !! nodeId = Some (question node) /\
    App.findAnswer node key = Some answer.

(** [p] can be the proof of answer [key] at node [nodeId]: its type is the
    one the answer resolves to, and a proof of type [none] is ready. *)
Definition fits (tree : DecisionTree.t) (nodeId key : string) (p : ProofState.t) : Prop :=
  (ProofState.type p = PTnone -> ProofState.ready (ProofState.base p) = true) /\
  forall node answer,
    DecisionTree.nodes tree !! nodeId = Some (question node) ->
    App.findAnswer node key = Some answer ->
    ProofState.type p = fst (App.resolveProofRequirements node (Some answer)).

(** A history entry records an answer of the question it was pushed at. *)
Definition good_entry (tree : DecisionTree.t) (e : HistoryEntry.t) : Prop :=
  exists key,
    HistoryEntry.selectedAnswerKey e = Some key /\
    Js.truthy_string key = true /\
    valid_choice tree (HistoryEntry.nodeId e) key.

(** Holds after every handler and after every commit. *)
Record invariant (tree : DecisionTree.t) (s : App.State) : Prop := {
  inv_proof_ready :
    ProofState.type (App.proofState s) = PTnone ->
    ProofState.ready (ProofState.base (App.proofState s)) = true;
  inv_selected :
    forall key, App.answerSelected s = Some key ->
      valid_choice tree (App.currentNodeId s) key /\
      fits tree (App.currentNodeId s) key (App.proofState s);
  inv_history : Forall (good_entry tree) (App.history s);
  inv_drafts :
    forall nodeId key d, App.lookupDraft (App.draftStore s) nodeId key = Some d ->
      fits tree nodeId key d
}.

(** Holds between two events, once the effects have run. *)
Record settled (tree : DecisionTree.t) (s : App.State) : Prop := {
  settled_idle : App.autoConfirmDue tree s = false;
  settled_draft :
    forall key, App.answerSelected s = Some key ->
      App.lookupDraft (App.draftStore s) (App.currentNodeId s) key
      = Some (App.proofState s)
}.

(** ** Example data *)

Definition tiny_image : HTMLImageElement :=
  {| naturalWidth := 10; naturalHeight := 10;
     elementWidth := 10; elementHeight := 10; currentSrc := "blob:tiny" |}.

Definition square_image : HTMLImageElement :=
  {| naturalWidth := 1000; naturalHeight := 1000;
     elementWidth := 1000; elementHeight := 1000; currentSrc := "blob:square" |}.

Definition wide_image : HTMLImageElement :=
  {| naturalWidth := 1000; naturalHeight := 600;
     elementWidth := 1000; elementHeight := 600; currentSrc := "blob:wide" |}.

(** The [ImageState] that [img.onload] stores for [img]. *)
Definition loaded_image (img : HTMLImageElement) : ImageState.t :=
  ImageState.mk (Some (currentSrc img)) (Some img)
                (Js.of_N (naturalWidth img)) (Js.of_N (naturalHeight img)).

(** A horizontal and a vertical axis inside the example images. *)
Definition sample_line : Line.t := Line.mk 400 500 600 500.

Definition sample_mirror_line : Line.t := Line.mk 200 100 200 400.

(** A fresh glide proof on the loaded image [img] after its axis is drawn. *)
Definition drawn_glide (context2d : bool) (img : HTMLImageElement) : ProofState.t :=
  Proof.captureLine context2d (loaded_image img) sample_line Kglide true
                    (Proof.createProofState PTglide None).

Definition q1 : Question.t :=
  Question.mk "q1" "Is there a mirror?" None [] None
    [Answer.mk "yes" "Yes" "q2" (Some PTmirror) None;
     Answer.mk "no" "No" "q3" None None].

Definition q2 : Question.t :=
  Question.mk "q2" "Is there a quarter turn?" (Some PTrotation) [] None
    [Answer.mk "yes" "Yes" "p4m" None (Some 90);
     Answer.mk "glide" "Only a glide" "pmg" (Some PTglide) None].

Definition q3 : Question.t :=
  Question.mk "q3" "Is there a half turn?" None [] (Some true)
    [Answer.mk "yes" "Yes" "p2" (Some PTrotation) None;
     Answer.mk "no" "No" "p1" None None].

Definition example_tree : DecisionTree.t :=
  DecisionTree.mk "q1"
    (<["q1" := question q1]>
     (<["q2" := question q2]>
      (<["q3" := question q3]>
       (<["p4m" := leaf (Leaf.mk "p4m" "p4m" None)]>
        (<["pmg" := leaf (Leaf.mk "pmg" "pmg" None)]>
         (<["p2" := leaf (Leaf.mk "p2" "p2" None)]>
          (<["p1" := leaf (Leaf.mk "p1" "p1" (Some "translations only"))]> ∅))))))).

(** The session after the 1000 x 600 image is loaded. *)
Definition image_loaded : App.State :=
  App.dispatch true example_tree (App.FileLoaded "blob:wide" wide_image)
               (App.initialState example_tree).

(** The session after the answer "yes" is selected at [q1] and the mirror
    axis is drawn. *)
Definition mirror_drawn : App.State :=
  App.dispatch true example_tree
    (App.ProofOp (Proof.CaptureLine sample_mirror_line Kmirror true))
    (App.dispatch true example_tree (App.SelectAnswer "yes") image_loaded).

(** ** The other sliders of [src/components/ProofControls.tsx] *)

Module Sliders.
Local Open Scope Q_scope.

Definition Math_floor (v : Q) : Q := inject_Z (Qfloor v).

(** The patch-size slider: [min], [max] and [step] of the range input. *)
Definition patch_min (patchSizeLimits : Q * Q) : Q :=
  Qmax 40 (Math_floor (fst patchSizeLimits)).

Definition patch_max (patchSizeLimits : Q * Q) : Q :=
  Qmax (Math_floor (fst patchSizeLimits) + 20) (Math_floor (snd patchSizeLimits)).

Definition patch_step (patchSizeLimits : Q * Q) : Q :=
  Qmax 10 (Math_floor ((snd patchSizeLimits - fst patchSizeLimits) / 20)).

Definition patchSlider_reports (patchSizeLimits : Q * Q) (value : Q) : bool :=
  ProofControls.range_reports (patch_min patchSizeLimits) (patch_max patchSizeLimits)
                              (patch_step patchSizeLimits) value.

(** [order = Math.max(1, Math.round(360 / proofState.angleDeg))] *)
Definition order (angleDeg : Q) : Q := Qmax 1 (Js.Math_round (360 / angleDeg)).

(** [showRepeatSlider = order > 2] *)
Definition showRepeatSlider (angleDeg : Q) : bool := negb (Qle_bool (order angleDeg) 2).

(** The turn slider: [min={1} max={order - 1} step={1}]. *)
Definition repeatSlider_reports (angleDeg value : Q) : bool :=
  ProofControls.range_reports 1 (order angleDeg - 1) 1 value.
End Sliders.

(** ** Vocabulary of the further properties *)

(** The point a proof samples its patch around: the rotation center, or
    the midpoint of the mirror or glide line. *)
Definition focus (st : ProofState.t) : option Point.t :=
  match st with
  | ProofState.Rotation _ center _ _ => center
  | ProofState.Mirror _ line => Proof.midPoint <$> line
  | ProofState.Glide _ line _ => Proof.midPoint <$> line
  | ProofState.NoProof _ => None
  end.

(** The buffers the stored parameters of [st] produce from the patch [p]:
    one for a rotation and for a mirror, two for a glide, whose distance
    is scaled by the patch half-size after a line and by the larger image
    dimension after the slider or a resize. *)
Definition transforms_of (context2d : bool) (image : ImageState.t)
           (img : HTMLImageElement) (st : ProofState.t) (p : PatchSample.t)
  : list Canvas.ImageData :=
  match st with
  | ProofState.Rotation _ _ angleDeg repeats =>
    [ImageTools.rotatePatch context2d p (angleDeg * repeats) img]
  | ProofState.Mirror _ (Some line) => [ImageTools.reflectPatch context2d p line img]
  | ProofState.Glide _ (Some line) distance =>
    [ImageTools.glidePatch context2d p line (distance * (PatchSample.size p / 2)) img;
     ImageTools.glidePatch context2d p line (distance * Proof.baseLength image) img]
  | _ => []
  end.

(** The buffers of [st] agree with its parameters. *)
Definition in_sync (context2d : bool) (image : ImageState.t) (st : ProofState.t) : Prop :=
  let b := ProofState.base st in
  match ProofState.patchSample b with
  | None =>
    ProofState.before b = None /\ ProofState.after b = None /\ focus st = None
  | Some p =>
    exists img f a,
      ImageState.element image = Some img /\
      focus st = Some f /\
      ImageTools.samplePatch context2d img f (ProofState.patchSize b) = Some p /\
      ProofState.before b = Some (PatchSample.data p) /\
      ProofState.after b = Some a /\
      In a (transforms_of context2d image img st p)
  end.

(** No patch can be sampled: there is no image element, no 2D context, or
    the image has no width or no height. *)
Definition unusable (context2d : bool) (image : ImageState.t) : Prop :=
  match ImageState.element image with
  | None => True
  | Some img =>
    context2d = false \/
    ImageTools.availableWidth img = 0%N \/ ImageTools.availableHeight img = 0%N
  end.

(** ** The arithmetic of [src/components/ImagePane.tsx]

    The pane divides, multiplies and takes [Math.hypot] of pixel
    coordinates that are no whole numbers, and compares the results with
    fixed radii.  Its code is therefore embedded over an arbitrary
    arithmetic [arith]: every operation is a function of its operands and
    nothing else is assumed of it.  What is proved for every [arith] holds
    for the arithmetic of the engine, which rounds each result to a
    double, as it does for the exact one.  Comparisons, [Math.min] and
    [Math.max] do not round.  A result is a number: an overflow to an
    infinity and the NaN of zero divided by zero are outside the model. *)

Module Arith.
Local Open Scope Q_scope.

Record t : Type := mk {
  add : Q -> Q -> Q;
  sub : Q -> Q -> Q;
  mul : Q -> Q -> Q;
  div : Q -> Q -> Q;
  hypot : Q -> Q -> Q
}.

(** The square root of [v], rounded down to a multiple of [2^-52]. *)
Definition sqrt_down (v : Q) : Q :=
  inject_Z (Z.sqrt (Qfloor (v * inject_Z (2 ^ 104)))) / inject_Z (2 ^ 52).

(** The arithmetic without rounding, but for the square root. *)
Definition exact : t :=
  mk Qplus Qminus Qmult Qdiv (fun a b => sqrt_down (a * a + b * b)).
End Arith.

(** ** Coordinate conversions of [src/components/ImagePane.tsx] *)

Module ImagePane.
Local Open Scope Q_scope.

Inductive Corner : Type := cornerA | cornerB | cornerC | cornerD.

(** [{ ...unitCell, [corner]: point }] *)
Definition withCorner (corner : Corner) (point : Point.t) (unitCell : UnitCellState.t)
  : UnitCellState.t :=
  match corner with
  | cornerA => UnitCellState.mk point (UnitCellState.B unitCell)
                                (UnitCellState.C unitCell) (UnitCellState.D unitCell)
  | cornerB => UnitCellState.mk (UnitCellState.A unitCell) point
                                (UnitCellState.C unitCell) (UnitCellState.D unitCell)
  | cornerC => UnitCellState.mk (UnitCellState.A unitCell) (UnitCellState.B unitCell)
                                point (UnitCellState.D unitCell)
  | cornerD => UnitCellState.mk (UnitCellState.A unitCell) (UnitCellState.B unitCell)
                                (UnitCellState.C unitCell) point
  end.

Definition corner (c : Corner) (unitCell : UnitCellState.t) : Point.t :=
  match c with
  | cornerA => UnitCellState.A unitCell
  | cornerB => UnitCellState.B unitCell
  | cornerC => UnitCellState.C unitCell
  | cornerD => UnitCellState.D unitCell
  end.

Section WithImage.
Variable arith : Arith.t.
Variable image : ImageState.t.
Variable canvasSize : Canvas.t.
Variable scale : Q.

(** [canvasSize.width && scale ? canvasSize.width / scale : 1] *)
Definition fallbackDimension (canvasDimension : Q) : Q :=
  if (Js.truthy canvasDimension && Js.truthy scale)%bool
  then Arith.div arith canvasDimension scale else 1.

(** [image.width || image.element?.naturalWidth || (...)] *)
Definition imageNaturalWidth : Q :=
  if Js.truthy (ImageState.width image) then ImageState.width image
  else
    match ImageState.element image with
    | Some element =>
      if (naturalWidth element =? 0)%N
      then fallbackDimension (Canvas.width canvasSize)
      else Js.of_N (naturalWidth element)
    | None => fallbackDimension (Canvas.width canvasSize)
    end.

Definition imageNaturalHeight : Q :=
  if Js.truthy (ImageState.height image) then ImageState.height image
  else
    match ImageState.element image with
    | Some element =>
      if (naturalHeight element =? 0)%N
      then fallbackDimension (Canvas.height canvasSize)
      else Js.of_N (naturalHeight element)
    | None => fallbackDimension (Canvas.height canvasSize)
    end.

Definition normalizedToImage (point : option Point.t) : option Point.t :=
  match point with
  | None => None
  | Some point =>
    Some (Point.mk (Arith.mul arith (Point.x point) imageNaturalWidth)
                   (Arith.mul arith (Point.y point) imageNaturalHeight))
  end.

Definition imageToNormalized (point : Point.t) : Point.t :=
  Point.mk (Qmin (Qmax (Arith.div arith (Point.x point) imageNaturalWidth) 0) 1)
           (Qmin (Qmax (Arith.div arith (Point.y point) imageNaturalHeight) 0) 1).

(** The unit-cell branch of [handleMove]: the cell handed to
    [onUnitCellChange] while [corner] is dragged to [coords]. *)
Definition dragUnitCell (corner : Corner) (coords : Point.t) (unitCell : UnitCellState.t)
  : UnitCellState.t :=
  withCorner corner (imageToNormalized coords) unitCell.
End WithImage.
End ImagePane.

(** ** More vocabulary *)

(** Both coordinates of the point lie in [[0, 1]]. *)
Definition in_unit_square (p : Point.t) : Prop :=
  (0 <= Point.x p /\ Point.x p <= 1) /\ (0 <= Point.y p /\ Point.y p <= 1).

(** The history is a path of the tree: every entry is an answer of the
    question it names, the answer of each entry leads to the node of the
    next one, and the answer of the last entry leads to [to]. *)
Fixpoint path (tree : DecisionTree.t) (from : string) (entries : list HistoryEntry.t)
         (to : string) : Prop :=
  match entries with
  | [] => from = to
  | e :: rest =>
    HistoryEntry.nodeId e = from /\
    exists key node answer,
      HistoryEntry.selectedAnswerKey e = Some key /\
      DecisionTree.nodes tree !! from = Some (question node) /\
      App.findAnswer node key = Some answer /\
      path tree (Answer.next answer) rest to
  end.

(** The session has not left its first screen. *)
Definition at_start (tree : DecisionTree.t) (s : App.State) : Prop :=
  App.currentNodeId s = DecisionTree.start tree /\
  App.selectedAnswerKey s = None /\
  App.history s = [] /\
  App.draftStore s = ∅ /\
  ProofState.type (App.proofState s) = PTnone.

Definition flat_image : HTMLImageElement :=
  {| naturalWidth := 640; naturalHeight := 0;
     elementWidth := 640; elementHeight := 0; currentSrc := "blob:flat" |}.

(** ** The canvas layout and the pointer handlers of [src/components/ImagePane.tsx]

    A pointer event carries the offset of the pointer from the corner of
    the canvas ([evt.clientX - rect.left], [evt.clientY - rect.top]), as
    the engine computes it.  The refs of the component are the fields of
    [Refs]; the [draftLine] state is left out: every write to
    [draftLineRef] is followed by the [setDraftLine] of the same line, and
    only the rendering reads it.  [App] passes all five callbacks, so a
    handler's call of a callback is the callback it returns. *)

Module Pointer.
Local Open Scope Q_scope.

Definition HANDLE_HIT_RADIUS : Q := 14.
Definition LINE_HIT_THRESHOLD : Q := 12.
Definition CENTER_HIT_RADIUS : Q := 14.

(** The state the layout effect sets: [canvasSize] and [scale]. *)
Record View : Type := mkView { canvasSize : Canvas.t; scale : Q }.

Definition initialView : View := mkView (Canvas.mk 0 0) 1.

Inductive Handle : Type := startHandle | endHandle.

Record LineDrag : Type := mkLineDrag { lastX : Q; lastY : Q; kind : LineKind }.

Record Refs : Type := mkRefs {
  isDrawingRef : bool;
  draftLineRef : option Line.t;
  editingHandleRef : option Handle;
  editingLineKindRef : option LineKind;
  rotationDragRef : bool;
  lineDragRef : option LineDrag;
  unitCellDragRef : option ImagePane.Corner
}.

Definition initialRefs : Refs := mkRefs false None None None false None None.

Record Props : Type := mkProps {
  image : ImageState.t;
  proofState : ProofState.t;
  activeProofType : ProofType;
  interactionsEnabled : bool;
  showUnitCellGuides : bool;
  unitCell : option UnitCellState.t;
  unitCellEditable : bool
}.

Inductive Callback : Type :=
| onRotationPick (point : Point.t)
| onMirrorLine (line : Line.t)
| onGlideLine (line : Line.t)
| onDraftLine (line : Line.t) (kind : LineKind)
| onUnitCellChange (cell : UnitCellState.t).

Definition with_draftLineRef (line : option Line.t) (r : Refs) : Refs :=
  mkRefs (isDrawingRef r) line (editingHandleRef r) (editingLineKindRef r)
         (rotationDragRef r) (lineDragRef r) (unitCellDragRef r).

(** [activeProofType] as the kind of a line, when it is one. *)
Definition lineKindOf (type : ProofType) : option LineKind :=
  match type with
  | PTmirror => Some Kmirror
  | PTglide => Some Kglide
  | _ => None
  end.

(** [kind === 'mirror' ? onMirrorLine(line) : onGlideLine(line)] *)
Definition onFinalLine (kind : LineKind) (line : Line.t) : Callback :=
  match kind with
  | Kmirror => onMirrorLine line
  | Kglide => onGlideLine line
  end.

(** [startLine] *)
Definition startLine (point : Point.t) (r : Refs) : Refs :=
  with_draftLineRef
    (Some (Line.mk (Point.x point) (Point.y point) (Point.x point) (Point.y point))) r.

(** [updateLine] *)
Definition updateLine (point : Point.t) (r : Refs) : Refs :=
  match draftLineRef r with
  | None => r
  | Some line =>
    with_draftLineRef
      (Some (Line.mk (Line.x1 line) (Line.y1 line) (Point.x point) (Point.y point))) r
  end.

(** [commitLine]: the refs it leaves and the line it returns. *)
Definition commitLine (r : Refs) : Refs * option Line.t :=
  (with_draftLineRef None r, draftLineRef r).

Section WithArith.
Variable arith : Arith.t.

(** [lengthOf] *)
Definition lengthOf (line : option Line.t) : Q :=
  match line with
  | None => 0
  | Some line =>
    Arith.hypot arith (Arith.sub arith (Line.x2 line) (Line.x1 line))
                    (Arith.sub arith (Line.y2 line) (Line.y1 line))
  end.

(** [distanceToLine] *)
Definition distanceToLine (point : Point.t) (line : Line.t) (scale : Q) : Q :=
  let x1 := Line.x1 line in
  let y1 := Line.y1 line in
  let x2 := Line.x2 line in
  let y2 := Line.y2 line in
  let A := Arith.sub arith (Point.x point) x1 in
  let B := Arith.sub arith (Point.y point) y1 in
  let C := Arith.sub arith x2 x1 in
  let D := Arith.sub arith y2 y1 in
  let dot := Arith.add arith (Arith.mul arith A C) (Arith.mul arith B D) in
  let lenSq := Arith.add arith (Arith.mul arith C C) (Arith.mul arith D D) in
  let param := if Qeq_bool lenSq 0 then -1 else Arith.div arith dot lenSq in
  let '(xx, yy) :=
    if negb (Qle_bool 0 param) then (x1, y1)
    else if negb (Qle_bool param 1) then (x2, y2)
    else (Arith.add arith x1 (Arith.mul arith param C),
          Arith.add arith y1 (Arith.mul arith param D)) in
  let dx := Arith.mul arith (Arith.sub arith (Point.x point) xx) scale in
  let dy := Arith.mul arith (Arith.sub arith (Point.y point) yy) scale in
  Arith.hypot arith dx dy.

(** [Math.hypot((coords.x - x) * scale, (coords.y - y) * scale) <= radius]:
    the test of the center and of the two ends of the line. *)
Definition hitsPoint (coords : Point.t) (x y scale radius : Q) : bool :=
  Qle_bool (Arith.hypot arith (Arith.mul arith (Arith.sub arith (Point.x coords) x) scale)
                            (Arith.mul arith (Arith.sub arith (Point.y coords) y) scale))
           radius.

(** The effect on [[containerSize, image]]. *)
Definition layoutEffect (image : ImageState.t) (containerSize : Canvas.t) (v : View) : View :=
  match ImageState.element image with
  | None => mkView (Canvas.mk 0 0) (scale v)
  | Some element =>
    if (Qeq_bool (Canvas.width containerSize) 0
        || Qeq_bool (Canvas.height containerSize) 0)%bool
    then mkView (Canvas.mk 0 0) (scale v)
    else
      let naturalWidth :=
        if Js.truthy (ImageState.width image) then ImageState.width image
        else Js.of_N (naturalWidth element) in
      let naturalHeight :=
        if Js.truthy (ImageState.height image) then ImageState.height image
        else Js.of_N (naturalHeight element) in
      if (negb (Js.truthy naturalWidth) || negb (Js.truthy naturalHeight))%bool then v
      else
        let ratio :=
          Qmin (Qmin (Arith.div arith (Canvas.width containerSize) naturalWidth)
                     (Arith.div arith (Canvas.height containerSize) naturalHeight)) 1 in
        mkView (Canvas.mk (Arith.mul arith naturalWidth ratio)
                          (Arith.mul arith naturalHeight ratio))
               (if Js.truthy ratio then ratio else 1)
  end.

Section WithView.
Variable view : View.

(** The canvas is rendered, so [canvasRef.current] is set, when the image
    has an element and the canvas a width. *)
Definition canvasMounted (props : Props) : bool :=
  match ImageState.element (image props) with
  | Some _ => negb (Qle_bool (Canvas.width (canvasSize view)) 0)
  | None => false
  end.

Definition getCoords (props : Props) (evt : Point.t) : option Point.t :=
  if canvasMounted props
  then Some (Point.mk (Arith.div arith (Point.x evt) (scale view))
                      (Arith.div arith (Point.y evt) (scale view)))
  else None.

(** The corners of the unit cell in image coordinates. *)
Definition unitCellPoints (props : Props) : option UnitCellState.t :=
  match unitCell props with
  | None => None
  | Some cell =>
    let toImage p := ImagePane.normalizedToImage arith (image props) (canvasSize view)
                                                 (scale view) (Some p) in
    match toImage (UnitCellState.A cell), toImage (UnitCellState.B cell),
          toImage (UnitCellState.C cell), toImage (UnitCellState.D cell) with
    | Some A, Some B, Some C, Some D => Some (UnitCellState.mk A B C D)
    | _, _, _, _ => None
    end
  end.

(** The corner [hitCorner] stores in [unitCellDragRef]: the first of A,
    B, C, D with [Math.hypot(point.x - coords.x, point.y - coords.y) * scale]
    within the hit radius. *)
Definition hitCorner (points : UnitCellState.t) (coords : Point.t)
  : option ImagePane.Corner :=
  let hit c :=
    Qle_bool
      (Arith.mul arith
         (Arith.hypot arith
            (Arith.sub arith (Point.x (ImagePane.corner c points)) (Point.x coords))
            (Arith.sub arith (Point.y (ImagePane.corner c points)) (Point.y coords)))
         (scale view))
      HANDLE_HIT_RADIUS in
  if hit ImagePane.cornerA then Some ImagePane.cornerA
  else if hit ImagePane.cornerB then Some ImagePane.cornerB
  else if hit ImagePane.cornerC then Some ImagePane.cornerC
  else if hit ImagePane.cornerD then Some ImagePane.cornerD
  else None.

(** The line and rotation part of [handleMouseDown], reached when no
    corner of the unit cell is hit. *)
Definition handleMouseDown_proof (props : Props) (coords : Point.t) (r : Refs)
  : Refs * option Callback :=
  let draw :=
    match lineKindOf (activeProofType props) with
    | None => (r, None)
    | Some _ =>
      (startLine coords
         (mkRefs true (draftLineRef r) (editingHandleRef r) (editingLineKindRef r)
                 (rotationDragRef r) (lineDragRef r) (unitCellDragRef r)),
       None)
    end in
  let line :=
    let currentLine :=
      match ProofState.type (proofState props) with
      | PTmirror | PTglide => ProofState.line (proofState props)
      | _ => None
      end in
    match lineKindOf (activeProofType props), currentLine with
    | Some kind, Some currentLine =>
      let startHit :=
        hitsPoint coords (Line.x1 currentLine) (Line.y1 currentLine) (scale view)
                  HANDLE_HIT_RADIUS in
      let endHit :=
        hitsPoint coords (Line.x2 currentLine) (Line.y2 currentLine) (scale view)
                  HANDLE_HIT_RADIUS in
      if (startHit || endHit)%bool then
        (mkRefs (isDrawingRef r) (Some currentLine)
                (Some (if startHit then startHandle else endHandle)) (Some kind)
                (rotationDragRef r) (lineDragRef r) (unitCellDragRef r),
         None)
      else if Qle_bool (distanceToLine coords currentLine (scale view)) LINE_HIT_THRESHOLD
      then
        (mkRefs (isDrawingRef r) (Some currentLine) (editingHandleRef r)
                (editingLineKindRef r) (rotationDragRef r)
                (Some (mkLineDrag (Point.x coords) (Point.y coords) kind))
                (unitCellDragRef r),
         None)
      else draw
    | _, _ => draw
    end in
  match activeProofType props, ProofState.type (proofState props),
        ProofState.center (proofState props) with
  | PTrotation, PTrotation, Some center =>
    if hitsPoint coords (Point.x center) (Point.y center) (scale view) CENTER_HIT_RADIUS
    then
      (mkRefs (isDrawingRef r) (draftLineRef r) (editingHandleRef r)
              (editingLineKindRef r) true (lineDragRef r) (unitCellDragRef r),
       Some (onRotationPick coords))
    else line
  | _, _, _ => line
  end.

Definition handleMouseDown (props : Props) (evt : Point.t) (r : Refs)
  : Refs * option Callback :=
  if negb (interactionsEnabled props) then (r, None)
  else
    match getCoords props evt with
    | None => (r, None)
    | Some coords =>
      let corner :=
        if (showUnitCellGuides props && unitCellEditable props)%bool then
          match unitCell props, unitCellPoints props with
          | Some _, Some points => hitCorner points coords
          | _, _ => None
          end
        else None in
      match corner with
      | Some corner =>
        (mkRefs (isDrawingRef r) (draftLineRef r) (editingHandleRef r)
                (editingLineKindRef r) (rotationDragRef r) (lineDragRef r)
                (Some corner),
         None)
      | None => handleMouseDown_proof props coords r
      end
    end.

Definition handleCanvasClick (props : Props) (evt : Point.t) (r : Refs)
  : Refs * option Callback :=
  if negb (interactionsEnabled props) then (r, None)
  else
    match activeProofType props with
    | PTrotation =>
      match getCoords props evt with
      | None => (r, None)
      | Some coords => (r, Some (onRotationPick coords))
      end
    | _ => (r, None)
    end.

(** [handleMove] below its unit-cell branch. *)
Definition handleMove_proof (props : Props) (coords : Point.t) (r : Refs)
  : Refs * option Callback :=
  match lineDragRef r, draftLineRef r with
  | Some drag, Some prevLine =>
    let dx := Arith.sub arith (Point.x coords) (lastX drag) in
    let dy := Arith.sub arith (Point.y coords) (lastY drag) in
    let line := Line.mk (Arith.add arith (Line.x1 prevLine) dx)
                        (Arith.add arith (Line.y1 prevLine) dy)
                        (Arith.add arith (Line.x2 prevLine) dx)
                        (Arith.add arith (Line.y2 prevLine) dy) in
    (mkRefs (isDrawingRef r) (Some line) (editingHandleRef r) (editingLineKindRef r)
            (rotationDragRef r)
            (Some (mkLineDrag (Point.x coords) (Point.y coords) (kind drag)))
            (unitCellDragRef r),
     Some (onDraftLine line (kind drag)))
  | _, _ =>
    if rotationDragRef r then (r, Some (onRotationPick coords))
    else
      match editingHandleRef r, draftLineRef r with
      | Some handle, Some draft =>
        let line :=
          match handle with
          | startHandle =>
            Line.mk (Point.x coords) (Point.y coords) (Line.x2 draft) (Line.y2 draft)
          | endHandle =>
            Line.mk (Line.x1 draft) (Line.y1 draft) (Point.x coords) (Point.y coords)
          end in
        (with_draftLineRef (Some line) r,
         match editingLineKindRef r with
         | Some kind => Some (onDraftLine line kind)
         | None => None
         end)
      | _, _ =>
        if negb (isDrawingRef r) then (r, None)
        else
          let r' := updateLine coords r in
          (r',
           match draftLineRef r', lineKindOf (activeProofType props) with
           | Some line, Some kind => Some (onDraftLine line kind)
           | _, _ => None
           end)
      end
  end.

Definition handleMove (props : Props) (evt : Point.t) (r : Refs)
  : Refs * option Callback :=
  match getCoords props evt with
  | None => (r, None)
  | Some coords =>
    let unitCellBranch :=
      match unitCellDragRef r, unitCell props, unitCellPoints props with
      | Some corner, Some cell, Some _ =>
        if unitCellEditable props then Some (corner, cell) else None
      | _, _, _ => None
      end in
    match unitCellBranch with
    | Some (corner, cell) =>
      (r, Some (onUnitCellChange
                  (ImagePane.dragUnitCell arith (image props) (canvasSize view) (scale view)
                                          corner coords cell)))
    | None => handleMove_proof props coords r
    end
  end.

Definition handleUp (props : Props) (r : Refs) : Refs * option Callback :=
  match unitCellDragRef r with
  | Some _ =>
    (mkRefs (isDrawingRef r) (draftLineRef r) (editingHandleRef r)
            (editingLineKindRef r) (rotationDragRef r) (lineDragRef r) None,
     None)
  | None =>
    if rotationDragRef r then
      (mkRefs (isDrawingRef r) (draftLineRef r) (editingHandleRef r)
              (editingLineKindRef r) false (lineDragRef r) (unitCellDragRef r),
       None)
    else
      match lineDragRef r, draftLineRef r with
      | Some drag, Some finalLine =>
        (mkRefs (isDrawingRef r) None (editingHandleRef r) (editingLineKindRef r)
                (rotationDragRef r) None (unitCellDragRef r),
         Some (onFinalLine (kind drag) finalLine))
      | _, _ =>
        match editingHandleRef r, draftLineRef r with
        | Some _, Some finalLine =>
          (mkRefs (isDrawingRef r) None None None
                  (rotationDragRef r) (lineDragRef r) (unitCellDragRef r),
           match editingLineKindRef r with
           | Some kind => Some (onFinalLine kind finalLine)
           | None => None
           end)
        | _, _ =>
          if negb (isDrawingRef r) then (r, None)
          else
            let '(r', finalLine) :=
              commitLine
                (mkRefs false (draftLineRef r) (editingHandleRef r)
                        (editingLineKindRef r) (rotationDragRef r) (lineDragRef r)
                        (unitCellDragRef r)) in
            (r',
             match finalLine with
             | Some line =>
               if negb (Qle_bool (lengthOf finalLine) 8) then
                 match lineKindOf (activeProofType props) with
                 | Some kind => Some (onFinalLine kind line)
                 | None => None
                 end
               else None
             | None => None
             end)
        end
      end
  end.

Inductive Event : Type :=
| MouseDown (evt : Point.t)
| MouseMove (evt : Point.t)
| MouseUp
| Click (evt : Point.t).

Definition handle (props : Props) (e : Event) (r : Refs) : Refs * option Callback :=
  match e with
  | MouseDown evt => handleMouseDown props evt r
  | MouseMove evt => handleMove props evt r
  | MouseUp => handleUp props r
  | Click evt => handleCanvasClick props evt r
  end.
End WithView.
End WithArith.
End Pointer.

(** ** [ImagePane] as [App] renders it *)

Module Lab.
Section WithTree.
Variable arith : Arith.t.
Variable context2d : bool.
Variable decisionTree : DecisionTree.t.
Variable view : Pointer.View.

(** [currentNode?.type === 'leaf'] *)
Definition isLeaf (s : App.State) : bool :=
  match App.currentNode decisionTree s with
  | Some (leaf _) => true
  | _ => false
  end.

(** [imageReady && Boolean(selectedAnswerKey) && !isLeaf] *)
Definition proofInteractionsEnabled (s : App.State) : bool :=
  (App.imageReady s
   && match App.answerSelected s with Some _ => true | None => false end
   && negb (isLeaf s))%bool.

(** [currentNode?.type === 'question' && currentNode.needsUnitCell ? true : false] *)
Definition showUnitCellGuides (s : App.State) : bool :=
  match App.currentNode decisionTree s with
  | Some (question node) =>
    match Question.needsUnitCell node with
    | Some true => true
    | _ => false
    end
  | _ => false
  end.

(** The properties [App] hands to [ImagePane]. *)
Definition props (s : App.State) : Pointer.Props :=
  Pointer.mkProps (App.image s) (App.proofState s)
                  (ProofState.type (App.proofState s))
                  (proofInteractionsEnabled s) (showUnitCellGuides s)
                  (Some (App.unitCell s)) (showUnitCellGuides s).

(** The handler of [App] behind each callback. *)
Definition event_of (c : Pointer.Callback) : App.Event :=
  match c with
  | Pointer.onRotationPick point => App.ProofOp (Proof.RotationPick point)
  | Pointer.onMirrorLine line => App.ProofOp (Proof.CaptureLine line Kmirror true)
  | Pointer.onGlideLine line => App.ProofOp (Proof.CaptureLine line Kglide true)
  | Pointer.onDraftLine line kind => App.ProofOp (Proof.CaptureLine line kind false)
  | Pointer.onUnitCellChange cell => App.UnitCellChange cell
  end.

(** One pointer event: the handler of the pane on the properties of the
    current render, then the event of [App] its callback stands for. *)
Definition step (e : Pointer.Event) (st : Pointer.Refs * App.State)
  : Pointer.Refs * App.State :=
  let '(r', callback) := Pointer.handle arith view (props (snd st)) e (fst st) in
  (r',
   match callback with
   | Some c => App.dispatch context2d decisionTree (event_of c) (snd st)
   | None => snd st
   end).

Fixpoint run (events : list Pointer.Event) (st : Pointer.Refs * App.State)
  : Pointer.Refs * App.State :=
  match events with
  | [] => st
  | e :: rest => run rest (step e st)
  end.
End WithTree.
End Lab.

(** ** Vocabulary of the pointer gestures *)

(** What the pane is doing between a mouse-down and the mouse-up. *)
Inductive Mode : Type :=
| Idle
| Drawing (line : Line.t)
| Editing (handle : Pointer.Handle) (kind : LineKind) (line : Line.t)
| Dragging (kind : LineKind) (last : Point.t) (line : Line.t)
| Turning
| Reshaping (corner : ImagePane.Corner).

(** The refs of the pane in each mode: at most one gesture is under way. *)
Definition refs_of (m : Mode) : Pointer.Refs :=
  match m with
  | Idle => Pointer.initialRefs
  | Drawing line => Pointer.mkRefs true (Some line) None None false None None
  | Editing handle kind line =>
    Pointer.mkRefs false (Some line) (Some handle) (Some kind) false None None
  | Dragging kind last line =>
    Pointer.mkRefs false (Some line) None None false
                   (Some (Pointer.mkLineDrag (Point.x last) (Point.y last) kind)) None
  | Turning => Pointer.mkRefs false None None None true None None
  | Reshaping corner => Pointer.mkRefs false None None None false None (Some corner)
  end.

(** The two modes are the same gesture. *)
Definition same_gesture (m m' : Mode) : Prop :=
  match m, m' with
  | Idle, Idle => True
  | Drawing _, Drawing _ => True
  | Editing handle kind _, Editing handle' kind' _ => handle = handle' /\ kind = kind'
  | Dragging kind _ _, Dragging kind' _ _ => kind = kind'
  | Turning, Turning => True
  | Reshaping corner, Reshaping corner' => corner = corner'
  | _, _ => False
  end.

(** The events between a mouse-down and the mouse-up. *)
Definition held (e : Pointer.Event) : bool :=
  match e with
  | Pointer.MouseMove _ => true
  | _ => false
  end.

(** The pane alone, on a render per event: the refs it ends with and the
    callbacks it made, in order. *)
Fixpoint pane_run (arith : Arith.t) (view : Pointer.View)
         (steps : list (Pointer.Props * Pointer.Event))
         (r : Pointer.Refs) : Pointer.Refs * list Pointer.Callback :=
  match steps with
  | [] => (r, [])
  | (props, e) :: rest =>
    let '(r', callback) := Pointer.handle arith view props e r in
    let '(r'', callbacks) := pane_run arith view rest r' in
    (r'', match callback with Some c => c :: callbacks | None => callbacks end)
  end.

(** The segment from [p] to [q]. *)
Definition segment (p q : Point.t) : Line.t :=
  Line.mk (Point.x p) (Point.y p) (Point.x q) (Point.y q).

(** The line with one end moved to [p]. *)
Definition with_end (handle : Pointer.Handle) (p : Point.t) (line : Line.t) : Line.t :=
  match handle with
  | Pointer.startHandle => Line.mk (Point.x p) (Point.y p) (Line.x2 line) (Line.y2 line)
  | Pointer.endHandle => Line.mk (Line.x1 line) (Line.y1 line) (Point.x p) (Point.y p)
  end.

(** The image coordinates of a pointer offset. *)
Definition coords_of (arith : Arith.t) (view : Pointer.View) (evt : Point.t) : Point.t :=
  Point.mk (Arith.div arith (Point.x evt) (Pointer.scale view))
           (Arith.div arith (Point.y evt) (Pointer.scale view)).

(** [line] moved by the way of the pointer from [last] to [coords], as
    the drag branch of [handleMove] computes it. *)
Definition moved (arith : Arith.t) (last coords : Point.t) (line : Line.t) : Line.t :=
  let dx := Arith.sub arith (Point.x coords) (Point.x last) in
  let dy := Arith.sub arith (Point.y coords) (Point.y last) in
  Line.mk (Arith.add arith (Line.x1 line) dx) (Arith.add arith (Line.y1 line) dy)
          (Arith.add arith (Line.x2 line) dx) (Arith.add arith (Line.y2 line) dy).

(** The lines a drag goes through: each one is the line before it, moved
    by the way of the pointer since the event before. *)
Fixpoint drag_lines (arith : Arith.t) (last : Point.t) (line : Line.t)
         (positions : list Point.t) : list Line.t :=
  match positions with
  | [] => []
  | coords :: rest =>
    moved arith last coords line
      :: drag_lines arith coords (moved arith last coords line) rest
  end.

(** The code's test [lengthOf(line) > 8] on the line from [p] to [q]. *)
Definition counts (arith : Arith.t) (p q : Point.t) : bool :=
  negb (Qle_bool (Pointer.lengthOf arith (Some (segment p q))) 8).

(** The pointer at [coords] is away from both ends and from the body of
    the line, as [handleMouseDown] tests it. *)
Definition misses (arith : Arith.t) (view : Pointer.View) (coords : Point.t) (line : Line.t)
  : Prop :=
  Pointer.hitsPoint arith coords (Line.x1 line) (Line.y1 line) (Pointer.scale view)
                    Pointer.HANDLE_HIT_RADIUS = false /\
  Pointer.hitsPoint arith coords (Line.x2 line) (Line.y2 line) (Pointer.scale view)
                    Pointer.HANDLE_HIT_RADIUS = false /\
  Qle_bool (Pointer.distanceToLine arith coords line (Pointer.scale view))
           Pointer.LINE_HIT_THRESHOLD = false.

(** The draft capture the pane asks for while a line drawn from [p] has
    its free end at the pointer offset [evt]. *)
Definition draft_op (arith : Arith.t) (view : Pointer.View) (kind : LineKind) (p evt : Point.t)
  : Proof.Op :=
  Proof.CaptureLine (segment p (coords_of arith view evt)) kind false.

(** ** Example data of the pointer gestures *)

(** The pane at full size over the 1000 x 600 image. *)
Definition full_view : Pointer.View := Pointer.mkView (Canvas.mk 1000 600) 1.

(** The session after "yes" is selected at [q1]: a mirror proof without
    an axis. *)
Definition mirror_selected : App.State :=
  App.dispatch true example_tree (App.SelectAnswer "yes") image_loaded.

(** The session at [q3], which shows the unit cell, with the half turn
    selected. *)
Definition half_turn_selected : App.State :=
  App.dispatch true example_tree (App.SelectAnswer "yes")
    (App.dispatch true example_tree (App.SelectAnswer "no") image_loaded).

(** * Properties *)

(** ** Arithmetic of [Math.min], [Math.max], [Math.round] and [clamp] *)

(** Name every [Qmin]/[Qmax] with its defining cases, then decide the
    linear goal. *)
Ltac name_minmax :=
  repeat match goal with
  | |- context [Qmin ?a ?b] =>
    let m := fresh "m" in
    pose proof (Q.min_spec a b); set (m := Qmin a b) in *; clearbody m
  | |- context [Qmax ?a ?b] =>
    let m := fresh "m" in
    pose proof (Q.max_spec a b); set (m := Qmax a b) in *; clearbody m
  | _ : context [Qmin ?a ?b] |- _ =>
    let m := fresh "m" in
    pose proof (Q.min_spec a b); set (m := Qmin a b) in *; clearbody m
  | _ : context [Qmax ?a ?b] |- _ =>
    let m := fresh "m" in
    pose proof (Q.max_spec a b); set (m := Qmax a b) in *; clearbody m
  end.

Ltac minmax_lra := name_minmax; intuition lra.

Lemma clamp_bounds (value lo hi : Q) :
  lo <= hi -> lo <= ImageTools.clamp value lo hi /\ ImageTools.clamp value lo hi <= hi.
Proof. unfold ImageTools.clamp. intros. minmax_lra. Qed.

Lemma clamp_inside (value lo hi : Q) :
  lo <= value -> value <= hi -> ImageTools.clamp value lo hi == value.
Proof. unfold ImageTools.clamp. intros. minmax_lra. Qed.

Lemma clamp_below (value lo hi : Q) :
  value <= lo -> lo <= hi -> ImageTools.clamp value lo hi == lo.
Proof. unfold ImageTools.clamp. intros. minmax_lra. Qed.

Lemma clamp_above (value lo hi : Q) :
  hi <= value -> lo <= hi -> ImageTools.clamp value lo hi == hi.
Proof. unfold ImageTools.clamp. intros. minmax_lra. Qed.

Lemma clamp_comp (v v' lo lo' hi hi' : Q) :
  v == v' -> lo == lo' -> hi == hi' ->
  ImageTools.clamp v lo hi == ImageTools.clamp v' lo' hi'.
Proof. unfold ImageTools.clamp. intros. minmax_lra. Qed.

Lemma Qfloor_unique (v : Q) (z : Z) :
  inject_Z z <= v -> v < inject_Z (z + 1) -> Qfloor v = z.
Proof.
  intros Hlo Hhi.
  pose proof (Qfloor_le v) as Hf. pose proof (Qlt_floor v) as Hc.
  assert (inject_Z z < inject_Z (Qfloor v + 1)) as H1 by lra.
  assert (inject_Z (Qfloor v) < inject_Z (z + 1)) as H2 by lra.
  rewrite <- Zlt_Qlt in H1, H2. lia.
Qed.

Lemma Math_round_comp (v w : Q) : v == w -> Js.Math_round v = Js.Math_round w.
Proof. intros E. unfold Js.Math_round. f_equal. apply Qfloor_comp. lra. Qed.

Lemma Math_round_mono (v w : Q) : v <= w -> Js.Math_round v <= Js.Math_round w.
Proof.
  intros Hle. unfold Js.Math_round. rewrite <- Zle_Qle.
  apply Qfloor_resp_le. lra.
Qed.

Lemma Math_round_inject_Z (z : Z) : Js.Math_round (inject_Z z) = inject_Z z.
Proof.
  unfold Js.Math_round. f_equal. apply Qfloor_unique.
  - lra.
  - rewrite inject_Z_plus. change (inject_Z 1) with 1. lra.
Qed.

Lemma Math_round_integer (v : Q) : Js.is_integer v -> Js.Math_round v == v.
Proof.
  unfold Js.is_integer. intros E.
  rewrite (Math_round_comp _ _ E), Math_round_inject_Z. lra.
Qed.

Lemma is_integer_inject_Z (z : Z) : Js.is_integer (inject_Z z).
Proof. unfold Js.is_integer. rewrite Qfloor_Z. lra. Qed.

Lemma is_integer_comp (v w : Q) : v == w -> Js.is_integer v -> Js.is_integer w.
Proof.
  unfold Js.is_integer. intros E H. rewrite <- (Qfloor_comp _ _ E). lra.
Qed.

Lemma is_integer_Math_round (v : Q) : Js.is_integer (Js.Math_round v).
Proof. apply is_integer_inject_Z. Qed.

Lemma is_integer_of_N (n : N) : Js.is_integer (Js.of_N n).
Proof. apply is_integer_inject_Z. Qed.

Lemma is_integer_min (v w : Q) :
  Js.is_integer v -> Js.is_integer w -> Js.is_integer (Qmin v w).
Proof.
  intros Hv Hw. destruct (Q.min_dec v w) as [E|E].
  - apply (is_integer_comp v); [lra | exact Hv].
  - apply (is_integer_comp w); [lra | exact Hw].
Qed.

Lemma is_integer_minus (v w : Q) :
  Js.is_integer v -> Js.is_integer w -> Js.is_integer (v - w).
Proof.
  unfold Js.is_integer. intros Hv Hw.
  assert (v - w == inject_Z (Qfloor v - Qfloor w)) as E.
  { unfold Zminus. rewrite inject_Z_plus, inject_Z_opp. lra. }
  rewrite (Qfloor_comp _ _ E), Qfloor_Z. exact E.
Qed.

(** On whole bounds rounding and clamping can be done in either order. *)
Lemma clamp_round_comm (v lo hi : Q) :
  Js.is_integer lo -> Js.is_integer hi -> lo <= hi ->
  ImageTools.clamp (Js.Math_round v) lo hi == Js.Math_round (ImageTools.clamp v lo hi).
Proof.
  intros Hlo Hhi Hle.
  destruct (Qlt_le_dec v lo) as [Hv|Hv]; [|destruct (Qlt_le_dec hi v) as [Hv'|Hv']].
  - rewrite (Math_round_comp (ImageTools.clamp v lo hi) lo) by (apply clamp_below; lra).
    rewrite (Math_round_integer lo Hlo).
    apply clamp_below; [|lra].
    rewrite <- (Math_round_integer lo Hlo). apply Math_round_mono. lra.
  - rewrite (Math_round_comp (ImageTools.clamp v lo hi) hi) by (apply clamp_above; lra).
    rewrite (Math_round_integer hi Hhi).
    apply clamp_above; [|lra].
    rewrite <- (Math_round_integer hi Hhi). apply Math_round_mono. lra.
  - rewrite (Math_round_comp (ImageTools.clamp v lo hi) v) by (apply clamp_inside; lra).
    apply clamp_inside.
    + rewrite <- (Math_round_integer lo Hlo). apply Math_round_mono. lra.
    + rewrite <- (Math_round_integer hi Hhi). apply Math_round_mono. lra.
Qed.

(** ** The patch sampler *)

Lemma samplePatch_some (image : HTMLImageElement) (center : Point.t) (size : Q) :
  ImageTools.availableWidth image <> 0%N ->
  ImageTools.availableHeight image <> 0%N ->
  ImageTools.samplePatch true image center size
  = let W := Js.of_N (ImageTools.availableWidth image) in
    let H := Js.of_N (ImageTools.availableHeight image) in
    let s := Qmin (Qmin size W) H in
    let startX :=
      ImageTools.clamp (Js.Math_round (Point.x center - s / 2)) 0 (Qmax 0 (W - s)) in
    let startY :=
      ImageTools.clamp (Js.Math_round (Point.y center - s / 2)) 0 (Qmax 0 (H - s)) in
    Some (PatchSample.mk
            (Canvas.getImageData (ImageTools.createCanvas s s)
               [Canvas.drawImage9 image startX startY s s 0 0 s s] 0 0 s s)
            (Point.mk startX startY)
            (Point.mk (Point.x center - startX) (Point.y center - startY))
            s).
Proof.
  intros HW HH. unfold ImageTools.samplePatch.
  apply N.eqb_neq in HW, HH. rewrite HW, HH. reflexivity.
Qed.

Lemma of_N_nonneg (n : N) : 0 <= Js.of_N n.
Proof. unfold Js.of_N. change 0 with (inject_Z 0). rewrite <- Zle_Qle. lia. Qed.

Lemma to_long_zero (v : Q) : -1 < v -> v < 1 -> ImageTools.to_long v = 0%Z.
Proof.
  intros Hlo Hhi. unfold ImageTools.to_long.
  destruct (Qle_bool 0 v) eqn:E.
  - apply Qle_bool_iff in E.
    apply Qfloor_unique;
      [change (inject_Z 0) with 0|change (inject_Z (0 + 1)) with 1]; lra.
  - assert (v < 0) as Hneg.
    { apply Qnot_le_lt. intros H. apply Qle_bool_iff in H. congruence. }
    unfold Qceiling.
    rewrite (Qfloor_unique (- v) 0);
      [reflexivity|change (inject_Z 0) with 0|change (inject_Z (0 + 1)) with 1]; lra.
Qed.

Lemma to_long_nonzero (v : Q) : v <= -1 \/ 1 <= v -> ImageTools.to_long v <> 0%Z.
Proof.
  intros Hv. unfold ImageTools.to_long.
  destruct (Qle_bool 0 v) eqn:E.
  - apply Qle_bool_iff in E. assert (1 <= v) as H1 by (destruct Hv; lra).
    pose proof (Qfloor_resp_le 1 v H1) as Hf. change (Qfloor 1) with 1%Z in Hf. lia.
  - assert (v < 0) as Hneg.
    { apply Qnot_le_lt. intros H. apply Qle_bool_iff in H. congruence. }
    assert (1 <= - v) as H1 by (destruct Hv; lra).
    pose proof (Qfloor_resp_le 1 (- v) H1) as Hf. change (Qfloor 1) with 1%Z in Hf.
    unfold Qceiling. lia.
Qed.

(** The call ends as the returned value says, but for the sides that
    [getImageData] refuses. *)
Lemma samplePatch_call_cases (context2d : bool) (image : HTMLImageElement)
      (center : Point.t) (size : Q) :
  ImageTools.samplePatch_call context2d image center size
  = match ImageTools.samplePatch context2d image center size with
    | None => ImageTools.Returns None
    | Some patch =>
      match ImageTools.getImageData_exception (PatchSample.size patch)
                                              (PatchSample.size patch) with
      | Some exception => ImageTools.Throws exception
      | None => ImageTools.Returns (Some patch)
      end
    end.
Proof.
  unfold ImageTools.samplePatch_call, ImageTools.samplePatch.
  destruct ((ImageTools.availableWidth image =? 0)%N
            || (ImageTools.availableHeight image =? 0)%N)%bool; [reflexivity|].
  cbv zeta. destruct context2d; cbn [negb]; [|reflexivity].
  cbn [PatchSample.size]. destruct (ImageTools.getImageData_exception _ _); reflexivity.
Qed.

Lemma Qfloor_le_iff (v : Q) (n : Z) : (Qfloor v <= n)%Z <-> v < inject_Z n + 1.
Proof.
  pose proof (Qfloor_le v) as Hlo. pose proof (Qlt_floor v) as Hhi.
  rewrite inject_Z_plus in Hhi. change (inject_Z 1) with 1 in Hhi.
  split.
  - intros H. rewrite Zle_Qle in H. lra.
  - intros H. assert (inject_Z (Qfloor v) < inject_Z (n + 1)) as Hlt.
    { rewrite inject_Z_plus. change (inject_Z 1) with 1. lra. }
    rewrite <- Zlt_Qlt in Hlt. lia.
Qed.

Lemma in_long_iff (v : Q) :
  ImageTools.in_long v = true <->
  inject_Z ImageTools.LONG_MIN - 1 < v /\ v < inject_Z ImageTools.LONG_MAX + 1.
Proof.
  unfold ImageTools.in_long, ImageTools.to_long.
  rewrite andb_true_iff, !Z.leb_le.
  assert (inject_Z ImageTools.LONG_MIN == - inject_Z (2 ^ 31)) as Emin
      by (vm_compute; reflexivity).
  assert (inject_Z ImageTools.LONG_MAX + 1 == inject_Z (2 ^ 31)) as Emax
      by (vm_compute; reflexivity).
  assert (0 < inject_Z (2 ^ 31)) as Hpos by (vm_compute; reflexivity).
  destruct (Qle_bool 0 v) eqn:E.
  - apply Qle_bool_iff in E. rewrite Qfloor_le_iff.
    pose proof (Qfloor_resp_le 0 v E) as Hf. change (Qfloor 0) with 0%Z in Hf.
    assert (ImageTools.LONG_MIN <= 0)%Z as Hm by (vm_compute; discriminate).
    split; [intros [_ H]; split; lra|intros [_ H]; split; [lia|exact H]].
  - assert (v < 0) as Hneg.
    { apply Qnot_le_lt. intros H. apply Qle_bool_iff in H. congruence. }
    unfold Qceiling.
    assert (0 <= - v) as Hnn by lra.
    pose proof (Qfloor_resp_le 0 (- v) Hnn) as Hf. change (Qfloor 0) with 0%Z in Hf.
    assert (0 <= ImageTools.LONG_MAX)%Z as Hm by (vm_compute; discriminate).
    assert ((ImageTools.LONG_MIN <= - Qfloor (- v))%Z <-> (Qfloor (- v) <= 2 ^ 31)%Z) as ->
        by (unfold ImageTools.LONG_MIN; lia).
    rewrite Qfloor_le_iff.
    split; [intros [H _]; split; lra|intros [H _]; split; [lra|lia]].
Qed.

(** How [getImageData] ends on a square of side [s]. *)
Lemma getImageData_exception_side (s : Q) :
  (ImageTools.getImageData_exception s s = Some ImageTools.IndexSizeError <->
   -1 < s /\ s < 1) /\
  (ImageTools.getImageData_exception s s = Some ImageTools.TypeError <->
   s <= inject_Z ImageTools.LONG_MIN - 1 \/ inject_Z ImageTools.LONG_MAX + 1 <= s).
Proof.
  unfold ImageTools.getImageData_exception. rewrite andb_diag, orb_diag.
  assert (inject_Z ImageTools.LONG_MIN - 1 < -1) as Hmin by (vm_compute; reflexivity).
  assert (1 < inject_Z ImageTools.LONG_MAX + 1) as Hmax by (vm_compute; reflexivity).
  destruct (ImageTools.in_long s) eqn:Ein; cbn [negb].
  - apply in_long_iff in Ein as [Hlo Hhi].
    destruct (ImageTools.to_long s =? 0)%Z eqn:E0.
    + apply Z.eqb_eq in E0.
      assert (-1 < s /\ s < 1) as Hs.
      { destruct (Qlt_le_dec (-1) s) as [H1|H1];
          [destruct (Qlt_le_dec s 1) as [H2|H2]; [tauto|]|];
          exfalso; apply (to_long_nonzero s); auto. }
      split; split; try tauto; try discriminate. intros [H|H]; lra.
    + apply Z.eqb_neq in E0.
      split; split; try discriminate.
      * intros [H1 H2]. exfalso. apply E0. apply to_long_zero; assumption.
      * intros [H|H]; lra.
  - assert (~ (inject_Z ImageTools.LONG_MIN - 1 < s /\ s < inject_Z ImageTools.LONG_MAX + 1))
      as Hout.
    { intros H. apply in_long_iff in H. congruence. }
    split; split; try discriminate.
    + intros [H1 H2]. exfalso. apply Hout. split; lra.
    + intros _. destruct (Qlt_le_dec (inject_Z ImageTools.LONG_MIN - 1) s) as [H1|H1];
        [|left; exact H1].
      destruct (Qlt_le_dec s (inject_Z ImageTools.LONG_MAX + 1)) as [H2|H2];
        [exfalso; apply Hout; split; assumption|right; exact H2].
    + intros _. reflexivity.
Qed.

Lemma getImageData_exception_none (s : Q) :
  ImageTools.getImageData_exception s s = None <->
  (inject_Z ImageTools.LONG_MIN - 1 < s /\ s <= -1) \/
  (1 <= s /\ s < inject_Z ImageTools.LONG_MAX + 1).
Proof.
  destruct (getImageData_exception_side s) as [Hi Ht].
  destruct (ImageTools.getImageData_exception s s) as [[|]|] eqn:E.
  - split; [discriminate|]. destruct (proj1 Hi eq_refl) as [Hlo Hhi].
    assert (inject_Z ImageTools.LONG_MIN - 1 < -1) as Hmin by (vm_compute; reflexivity).
    intros [[_ Hs]|[Hs _]]; lra.
  - split; [discriminate|]. destruct (proj1 Ht eq_refl) as [Hout|Hout];
      intros [[Hs1 Hs2]|[Hs1 Hs2]]; try lra.
    + assert (1 < inject_Z ImageTools.LONG_MAX + 1) as Hmax by (vm_compute; reflexivity).
      assert (inject_Z ImageTools.LONG_MIN - 1 < -1) as Hmin by (vm_compute; reflexivity).
      lra.
    + assert (1 < inject_Z ImageTools.LONG_MAX + 1) as Hmax by (vm_compute; reflexivity).
      lra.
  - split; [|reflexivity]. intros _.
    destruct (Qlt_le_dec (inject_Z ImageTools.LONG_MIN - 1) s) as [H1|H1];
      [|assert (@None ImageTools.Exception = Some ImageTools.TypeError) as Habs
          by (apply Ht; left; exact H1); discriminate].
    destruct (Qlt_le_dec s (inject_Z ImageTools.LONG_MAX + 1)) as [H2|H2];
      [|assert (@None ImageTools.Exception = Some ImageTools.TypeError) as Habs
          by (apply Ht; right; exact H2); discriminate].
    destruct (Qlt_le_dec (-1) s) as [H3|H3]; [|left; split; assumption].
    destruct (Qlt_le_dec s 1) as [H4|H4]; [|right; split; assumption].
    assert (@None ImageTools.Exception = Some ImageTools.IndexSizeError) as Habs
        by (apply Hi; split; assumption).
    discriminate.
Qed.




(** ** Patch-size limits *)

Lemma truthy_positive (v : Q) : 0 < v -> Js.truthy v = true.
Proof.
  intros Hv. unfold Js.truthy. apply negb_true_iff.
  destruct (Qeq_bool v 0) eqn:E; [|reflexivity].
  apply Qeq_bool_iff in E. lra.
Qed.

(** C9: for a loaded image with positive dimensions the limits are
    [min = max(40, 0.2 * minDim)] and [max = max(80, minDim)], and
    [handlePatchSizeChange] resamples through [resizePatch] at the
    requested value clamped into [[min, max]]. *)
Theorem patchSize_clamped (context2d : bool) (image : ImageState.t)
        (img : HTMLImageElement) (value : Q) (prev : ProofState.t) :
  ImageState.element image = Some img ->
  0 < ImageState.width image ->
  0 < ImageState.height image ->
  let minDim := Qmin (ImageState.width image) (ImageState.height image) in
  let lo := Qmax 40 (0.2 * minDim) in
  let hi := Qmax 80 minDim in
  fst (Proof.patchSizeLimits image) == lo /\
  snd (Proof.patchSizeLimits image) == hi /\
  exists clamped,
    Proof.handlePatchSizeChange context2d image value prev
    = Proof.resizePatch context2d image prev clamped /\
    clamped == Qmin (Qmax value lo) hi /\
    lo <= clamped /\ clamped <= hi.
Proof.
  intros Himg Hw Hh minDim lo hi.
  unfold Proof.handlePatchSizeChange, Proof.patchSizeLimits.
  rewrite Himg, (truthy_positive _ Hw), (truthy_positive _ Hh). cbn.
  fold minDim.
  assert (0 < minDim) as Hm by (subst minDim; minmax_lra).
  assert (Qmax 40 (Qmin (Qmax 80 minDim - 20) (minDim * 0.2)) == lo) as Elo
    by (subst lo; minmax_lra).
  split; [exact Elo|]. split; [reflexivity|].
  eexists. split; [reflexivity|].
  fold hi. subst lo hi. minmax_lra.
Qed.

(** The theorem at a loaded 1000 x 600 image and a requested size of 10:
    the limits are 120 and 600. *)
Lemma patchSize_clamped_witness :
  fst (Proof.patchSizeLimits (loaded_image wide_image)) == Qmax 40 (0.2 * Qmin 1000 600) /\
  snd (Proof.patchSizeLimits (loaded_image wide_image)) == Qmax 80 (Qmin 1000 600).
Proof.
  destruct (patchSize_clamped true (loaded_image wide_image) wide_image 10
              (Proof.createProofState PTmirror None)) as (Hlo & Hhi & _).
  - reflexivity.
  - vm_compute. reflexivity.
  - vm_compute. reflexivity.
  - split; [exact Hlo | exact Hhi].
Defined.

(** ** The two reference lengths of the glide distance *)

(** C4: [captureLine] slides a glide by [distance * (patch.size / 2)],
    [handleGlideDistanceChange] by [value * max(width, height)]; when the
    larger image dimension is 1000 and the value is 0.5 the slider path
    slides by 500 px. *)
Theorem glide_reference_lengths (context2d : bool) (image : ImageState.t)
        (img : HTMLImageElement) (line : Line.t) :
  ImageState.element image = Some img ->
  (forall b l distance isFinal patch,
      ImageTools.samplePatch context2d img (Proof.midPoint line) (ProofState.patchSize b)
      = Some patch ->
      ProofState.after (ProofState.base
        (Proof.captureLine context2d image line Kglide isFinal (ProofState.Glide b l distance)))
      = Some (ImageTools.glidePatch context2d patch line
                (distance * (PatchSample.size patch / 2)) img)) /\
  (forall b distance value sample,
      ProofState.patchSample b = Some sample ->
      ProofState.after (ProofState.base
        (Proof.handleGlideDistanceChange context2d image value
           (ProofState.Glide b (Some line) distance)))
      = Some (ImageTools.glidePatch context2d sample line
                (value * Qmax (ImageState.width image) (ImageState.height image)) img)) /\
  (forall b distance sample,
      ProofState.patchSample b = Some sample ->
      Qmax (ImageState.width image) (ImageState.height image) == 1000 ->
      exists distancePx,
        distancePx == 500 /\
        ProofState.after (ProofState.base
          (Proof.handleGlideDistanceChange context2d image 0.5
             (ProofState.Glide b (Some line) distance)))
        = Some (ImageTools.glidePatch context2d sample line distancePx img)).
Proof.
  intros Himg. repeat split.
  - intros b l distance isFinal patch Hpatch.
    unfold Proof.captureLine. rewrite Himg, Hpatch. reflexivity.
  - intros b distance value sample Hs.
    unfold Proof.handleGlideDistanceChange. rewrite Himg, Hs. reflexivity.
  - intros b distance sample Hs Hmax.
    exists (0.5 * Proof.baseLength image). split.
    + unfold Proof.baseLength. rewrite Hmax. reflexivity.
    + unfold Proof.handleGlideDistanceChange. rewrite Himg, Hs. reflexivity.
Qed.

(** The theorem on the 1000 x 600 image: after the axis is drawn, moving
    the slider to 0.5 translates by 500 px along the axis. *)
Lemma glide_reference_lengths_witness :
  exists b sample distancePx,
    drawn_glide true wide_image = ProofState.Glide b (Some sample_line) 0.5 /\
    ProofState.patchSample b = Some sample /\
    distancePx == 500 /\
    ProofState.after (ProofState.base
      (Proof.handleGlideDistanceChange true (loaded_image wide_image) 0.5
         (drawn_glide true wide_image)))
    = Some (ImageTools.glidePatch true sample sample_line distancePx wide_image).
Proof.
  destruct (glide_reference_lengths true (loaded_image wide_image) wide_image sample_line
              eq_refl) as (_ & _ & H).
  assert (exists b sample,
             drawn_glide true wide_image = ProofState.Glide b (Some sample_line) 0.5 /\
             ProofState.patchSample b = Some sample) as (b & sample & Hst & Hs).
  { eexists _, _. split; vm_compute; reflexivity. }
  destruct (H b 0.5 sample Hs) as (px & Hpx & Hafter).
  - vm_compute. reflexivity.
  - exists b, sample, px. rewrite Hst. auto.
Defined.

(** ** The stored glide distance *)

Lemma range_reports_bounds (lo hi step value : Q) :
  ProofControls.range_reports lo hi step value = true -> lo <= value /\ value <= hi.
Proof.
  unfold ProofControls.range_reports. intros H.
  apply andb_true_iff in H as [H _]. apply andb_true_iff in H as [H1 H2].
  split; apply Qle_bool_iff; assumption.
Qed.

Lemma distance_handleGlideDistanceChange (context2d : bool) (image : ImageState.t)
      (value : Q) (prev : ProofState.t) :
  Proof.handleGlideDistanceChange context2d image value prev = prev \/
  (ProofState.distance (Proof.handleGlideDistanceChange context2d image value prev)
   = Some value /\
   ProofState.patchSample (ProofState.base
     (Proof.handleGlideDistanceChange context2d image value prev))
   = ProofState.patchSample (ProofState.base prev)).
Proof.
  unfold Proof.handleGlideDistanceChange.
  destruct (ImageState.element image); [|auto].
  destruct prev as [| |b [l|] d|]; auto.
  destruct (ProofState.patchSample b) eqn:E; auto.
Qed.

Lemma distance_with_patchSize (size : Q) (st : ProofState.t) :
  ProofState.distance (ProofState.with_patchSize size st) = ProofState.distance st.
Proof. destruct st; reflexivity. Qed.

Lemma distance_resizePatch (context2d : bool) (image : ImageState.t)
      (prev : ProofState.t) (size : Q) :
  ProofState.distance (Proof.resizePatch context2d image prev size)
  = ProofState.distance prev.
Proof.
  unfold Proof.resizePatch.
  destruct (ImageState.element image); [|apply distance_with_patchSize].
  destruct prev as [b [c|] a r|b [l|]|b [l|] d|b]; cbn;
    try reflexivity; destruct (ImageTools.samplePatch _ _ _ _); reflexivity.
Qed.

Lemma distance_other_ops (context2d : bool) (image : ImageState.t)
      (op : Proof.Op) (prev : ProofState.t) :
  (forall value, op <> Proof.GlideDistanceChange value) ->
  ProofState.distance (Proof.apply context2d image op prev) = ProofState.distance prev.
Proof.
  intros Hop. destruct op as [p|l k f|v|v|v]; cbn.
  - unfold Proof.handleRotationPick.
    destruct (ImageState.element image); [|reflexivity].
    destruct prev; try reflexivity.
    destruct (ImageTools.samplePatch _ _ _ _); reflexivity.
  - unfold Proof.captureLine.
    destruct (ImageState.element image); [|reflexivity].
    destruct k, prev; try reflexivity;
      destruct (ImageTools.samplePatch _ _ _ _); reflexivity.
  - destruct (Hop v). reflexivity.
  - apply distance_resizePatch.
  - unfold Proof.handleRotationRepeatChange.
    destruct (ImageState.element image); [|reflexivity].
    destruct prev as [b [c|] a r| | |]; try reflexivity.
    destruct (ProofState.patchSample b); reflexivity.
Qed.

Lemma distance_nonneg_step (context2d : bool) (image : ImageState.t)
      (op : Proof.Op) (st : ProofState.t) :
  offered image st op ->
  (forall d, ProofState.distance st = Some d -> 0 <= d) ->
  forall d, ProofState.distance (Proof.apply context2d image op st) = Some d -> 0 <= d.
Proof.
  intros Hoff Hst d Hd.
  destruct op as [p|l k f|v|v|v];
    try (rewrite distance_other_ops in Hd by discriminate; auto).
  cbn in Hd, Hoff. apply range_reports_bounds in Hoff as [Hlo _].
  destruct (distance_handleGlideDistanceChange context2d image v st) as [E|[E _]];
    rewrite E in Hd.
  - auto.
  - injection Hd as <-. exact Hlo.
Qed.

(** C1 (amended): a fresh glide proof stores the distance 0.5;
    [handleGlideDistanceChange] either leaves the state alone or stores
    the slider's value as given; no other operation changes the stored
    distance; a value the slider reports lies in
    [[0, glideMaxDistance]], where [glideMaxDistance] is
    [image.width / patchSample.size] (1 without a width or a patch); so in
    every state reached through the controls the stored distance is
    non-negative.  It is not bounded by 1. *)
Theorem glide_distance_stored (context2d : bool) (image : ImageState.t) :
  (forall angle,
      ProofState.distance (Proof.createProofState PTglide angle) = Some 0.5) /\
  (forall value prev,
      Proof.handleGlideDistanceChange context2d image value prev = prev \/
      ProofState.distance (Proof.handleGlideDistanceChange context2d image value prev)
      = Some value) /\
  (forall op prev,
      (forall value, op <> Proof.GlideDistanceChange value) ->
      ProofState.distance (Proof.apply context2d image op prev)
      = ProofState.distance prev) /\
  (forall value prev,
      ProofControls.glideSlider_reports (Proof.glideMaxDistance image prev) value = true ->
      0 <= value /\
      value <= Proof.glideMaxDistance image
                 (Proof.handleGlideDistanceChange context2d image value prev)) /\
  (forall ops angle d,
      offered_run context2d image ops (Proof.createProofState PTglide angle) ->
      ProofState.distance
        (Proof.run context2d image ops (Proof.createProofState PTglide angle)) = Some d ->
      0 <= d).
Proof.
  split; [reflexivity|].
  split.
  { intros value prev.
    destruct (distance_handleGlideDistanceChange context2d image value prev) as [E|[E _]];
      auto. }
  split; [apply distance_other_ops|].
  split.
  { intros value prev Hrep. apply range_reports_bounds in Hrep as [Hlo Hhi].
    split; [exact Hlo|].
    unfold Proof.glideMaxDistance in *.
    destruct (distance_handleGlideDistanceChange context2d image value prev) as [E|[_ E]];
      rewrite E; exact Hhi. }
  intros ops angle.
  assert (forall d, ProofState.distance (Proof.createProofState PTglide angle) = Some d ->
                    0 <= d) as Hinit.
  { intros d [= <-]. vm_compute. discriminate. }
  revert Hinit. generalize (Proof.createProofState PTglide angle).
  induction ops as [|op rest IH]; intros st Hst d Hoff Hd; cbn in *.
  - auto.
  - destruct Hoff as [Hop Hrest].
    apply (IH (Proof.apply context2d image op st)); auto.
    apply distance_nonneg_step; assumption.
Qed.

(** The theorem on the 1000 x 1000 image: drawing the axis and moving the
    slider to 2 is a run the controls offer, and its stored distance is
    non-negative. *)
Lemma glide_distance_stored_witness :
  let ops := [Proof.CaptureLine sample_line Kglide true; Proof.GlideDistanceChange 2] in
  let fresh := Proof.createProofState PTglide None in
  offered_run true (loaded_image square_image) ops fresh /\
  ProofState.distance (Proof.run true (loaded_image square_image) ops fresh) = Some 2 /\
  0 <= 2.
Proof.
  intros ops fresh.
  assert (offered_run true (loaded_image square_image) ops fresh) as Hoff.
  { cbn. split; [exact I|]. split; [vm_compute; reflexivity | exact I]. }
  assert (ProofState.distance (Proof.run true (loaded_image square_image) ops fresh)
          = Some 2) as Hd by reflexivity.
  split; [exact Hoff|]. split; [exact Hd|].
  destruct (glide_distance_stored true (loaded_image square_image)) as (_ & _ & _ & _ & H).
  exact (H ops None 2 Hoff Hd).
Defined.

(** C1 as stated fails: on the 1000 x 1000 image, once the glide axis is
    drawn the slider is enabled and its range ends at 1000 / 280; moving
    it to 2 stores the distance 2, which is above 1. *)
Lemma glide_distance_above_one :
  let image := loaded_image square_image in
  let drawn := drawn_glide true square_image in
  ProofControls.glideSlider_disabled true drawn = false /\
  Proof.glideMaxDistance image drawn == 1000 / 280 /\
  ProofControls.glideSlider_reports (Proof.glideMaxDistance image drawn) 2 = true /\
  ProofState.distance
    (Proof.run true image
       [Proof.CaptureLine sample_line Kglide true; Proof.GlideDistanceChange 2]
       (Proof.createProofState PTglide None)) = Some 2 /\
  ~ 2 <= 1.
Proof.
  cbn zeta. repeat split; try (vm_compute; congruence).
Qed.

(** ** Resizing commutes with the parameter sliders *)

Lemma resizePatch_glide_distance (context2d : bool) (image : ImageState.t)
      (b : ProofState.Base) (line : Line.t) (distance : Q) (sample : PatchSample.t)
      (size fraction : Q) :
  ProofState.patchSample b = Some sample ->
  Proof.handleGlideDistanceChange context2d image fraction
    (Proof.resizePatch context2d image (ProofState.Glide b (Some line) distance) size)
  = Proof.resizePatch context2d image
      (Proof.handleGlideDistanceChange context2d image fraction
         (ProofState.Glide b (Some line) distance)) size.
Proof.
  intros Hs. unfold Proof.resizePatch, Proof.handleGlideDistanceChange.
  destruct (ImageState.element image) as [img|]; [|reflexivity].
  rewrite Hs. cbn.
  destruct (ImageTools.samplePatch context2d img (Proof.midPoint line) size);
    cbn; rewrite ?Hs; reflexivity.
Qed.

Lemma resizePatch_rotation_repeats (context2d : bool) (image : ImageState.t)
      (b : ProofState.Base) (center : Point.t) (angleDeg repeats : Q)
      (sample : PatchSample.t) (size n : Q) :
  ProofState.patchSample b = Some sample ->
  Proof.handleRotationRepeatChange context2d image n
    (Proof.resizePatch context2d image
       (ProofState.Rotation b (Some center) angleDeg repeats) size)
  = Proof.resizePatch context2d image
      (Proof.handleRotationRepeatChange context2d image n
         (ProofState.Rotation b (Some center) angleDeg repeats)) size.
Proof.
  intros Hs. unfold Proof.resizePatch, Proof.handleRotationRepeatChange.
  destruct (ImageState.element image) as [img|]; [|reflexivity].
  rewrite Hs. cbn.
  destruct (ImageTools.samplePatch context2d img center size);
    cbn; rewrite ?Hs; reflexivity.
Qed.

(** C3: on a glide proof with a committed line and patch sample, and on a
    rotation proof with a committed center and patch sample, resizing the
    patch and then adjusting the glide distance (the rotation repeats)
    gives the same state, hence the same [after] buffer, as adjusting
    first and resizing second; for [resizePatch] at any size and for the
    patch-size slider handler. *)
Theorem resize_commutes_with_adjust (context2d : bool) (image : ImageState.t)
        (b : ProofState.Base) (sample : PatchSample.t) (size : Q) :
  ProofState.patchSample b = Some sample ->
  (forall line distance fraction,
      let st := ProofState.Glide b (Some line) distance in
      let resize_first :=
        Proof.handleGlideDistanceChange context2d image fraction
          (Proof.resizePatch context2d image st size) in
      let adjust_first :=
        Proof.resizePatch context2d image
          (Proof.handleGlideDistanceChange context2d image fraction st) size in
      resize_first = adjust_first /\
      ProofState.after (ProofState.base resize_first)
      = ProofState.after (ProofState.base adjust_first)) /\
  (forall center angleDeg repeats n,
      let st := ProofState.Rotation b (Some center) angleDeg repeats in
      let resize_first :=
        Proof.handleRotationRepeatChange context2d image n
          (Proof.resizePatch context2d image st size) in
      let adjust_first :=
        Proof.resizePatch context2d image
          (Proof.handleRotationRepeatChange context2d image n st) size in
      resize_first = adjust_first /\
      ProofState.after (ProofState.base resize_first)
      = ProofState.after (ProofState.base adjust_first)) /\
  (forall line distance fraction,
      let st := ProofState.Glide b (Some line) distance in
      ProofState.after (ProofState.base
        (Proof.handleGlideDistanceChange context2d image fraction
           (Proof.handlePatchSizeChange context2d image size st)))
      = ProofState.after (ProofState.base
          (Proof.handlePatchSizeChange context2d image size
             (Proof.handleGlideDistanceChange context2d image fraction st)))) /\
  (forall center angleDeg repeats n,
      let st := ProofState.Rotation b (Some center) angleDeg repeats in
      ProofState.after (ProofState.base
        (Proof.handleRotationRepeatChange context2d image n
           (Proof.handlePatchSizeChange context2d image size st)))
      = ProofState.after (ProofState.base
          (Proof.handlePatchSizeChange context2d image size
             (Proof.handleRotationRepeatChange context2d image n st)))).
Proof.
  intros Hs. repeat split; intros; cbn zeta; unfold Proof.handlePatchSizeChange;
    try f_equal; try f_equal;
    eauto using resizePatch_glide_distance, resizePatch_rotation_repeats.
Qed.

(** The theorem on the 1000 x 600 image: after the glide axis is drawn,
    resizing to 200 and sliding to 0.25 commute. *)
Lemma resize_commutes_with_adjust_witness :
  exists b sample,
    drawn_glide true wide_image = ProofState.Glide b (Some sample_line) 0.5 /\
    ProofState.patchSample b = Some sample /\
    ProofState.after (ProofState.base
      (Proof.handleGlideDistanceChange true (loaded_image wide_image) 0.25
         (Proof.resizePatch true (loaded_image wide_image) (drawn_glide true wide_image) 200)))
    = ProofState.after (ProofState.base
        (Proof.resizePatch true (loaded_image wide_image)
           (Proof.handleGlideDistanceChange true (loaded_image wide_image) 0.25
              (drawn_glide true wide_image)) 200)).
Proof.
  assert (exists b sample,
             drawn_glide true wide_image = ProofState.Glide b (Some sample_line) 0.5 /\
             ProofState.patchSample b = Some sample) as (b & sample & Hst & Hs).
  { eexists _, _. split; vm_compute; reflexivity. }
  exists b, sample. split; [exact Hst|]. split; [exact Hs|].
  rewrite Hst.
  destruct (resize_commutes_with_adjust true (loaded_image wide_image) b sample 200 Hs)
    as (Hglide & _).
  exact (proj2 (Hglide sample_line 0.5 0.25)).
Defined.

(** ** The ready flag *)

Lemma ready_with_patchSize (size : Q) (st : ProofState.t) :
  ProofState.ready (ProofState.base (ProofState.with_patchSize size st))
  = ProofState.ready (ProofState.base st).
Proof. destruct st; reflexivity. Qed.

Lemma ready_resizePatch (context2d : bool) (image : ImageState.t)
      (prev : ProofState.t) (size : Q) :
  ProofState.ready (ProofState.base (Proof.resizePatch context2d image prev size))
  = ProofState.ready (ProofState.base prev).
Proof.
  unfold Proof.resizePatch.
  destruct (ImageState.element image); [|apply ready_with_patchSize].
  destruct prev as [b [c|] a r|b [l|]|b [l|] d|b]; cbn;
    try reflexivity; destruct (ImageTools.samplePatch _ _ _ _); reflexivity.
Qed.

Lemma ready_handleGlideDistanceChange (context2d : bool) (image : ImageState.t)
      (value : Q) (prev : ProofState.t) :
  ProofState.ready (ProofState.base
    (Proof.handleGlideDistanceChange context2d image value prev))
  = ProofState.ready (ProofState.base prev).
Proof.
  unfold Proof.handleGlideDistanceChange.
  destruct (ImageState.element image); [|reflexivity].
  destruct prev as [| |b [l|] d|]; try reflexivity.
  destruct (ProofState.patchSample b); reflexivity.
Qed.

Lemma ready_handleRotationRepeatChange (context2d : bool) (image : ImageState.t)
      (value : Q) (prev : ProofState.t) :
  ProofState.ready (ProofState.base
    (Proof.handleRotationRepeatChange context2d image value prev))
  = ProofState.ready (ProofState.base prev).
Proof.
  unfold Proof.handleRotationRepeatChange.
  destruct (ImageState.element image); [|reflexivity].
  destruct prev as [b [c|] a r| | |]; try reflexivity.
  destruct (ProofState.patchSample b); reflexivity.
Qed.

(** A non-final line keeps the flag; a final one can only raise it. *)
Lemma ready_captureLine (context2d : bool) (image : ImageState.t) (line : Line.t)
      (kind : LineKind) (isFinal : bool) (prev : ProofState.t) :
  ProofState.ready (ProofState.base
    (Proof.captureLine context2d image line kind isFinal prev))
  = ProofState.ready (ProofState.base prev)
  \/ (isFinal = true /\
      ProofState.ready (ProofState.base
        (Proof.captureLine context2d image line kind isFinal prev)) = true /\
      is_Some (ProofState.after (ProofState.base
        (Proof.captureLine context2d image line kind isFinal prev)))).
Proof.
  unfold Proof.captureLine.
  destruct (ImageState.element image); [|auto].
  destruct kind, prev; auto;
    destruct (ImageTools.samplePatch _ _ _ _); auto;
    destruct isFinal; cbn; eauto.
Qed.

Lemma ready_handleRotationPick (context2d : bool) (image : ImageState.t)
      (point : Point.t) (prev : ProofState.t) :
  Proof.handleRotationPick context2d image point prev = prev
  \/ (ProofState.ready (ProofState.base
        (Proof.handleRotationPick context2d image point prev)) = true /\
      is_Some (ProofState.after (ProofState.base
        (Proof.handleRotationPick context2d image point prev)))).
Proof.
  unfold Proof.handleRotationPick.
  destruct (ImageState.element image); [|auto].
  destruct prev; auto.
  destruct (ImageTools.samplePatch _ _ _ _); cbn; eauto.
Qed.

Lemma ready_apply_mono (context2d : bool) (image : ImageState.t)
      (op : Proof.Op) (st : ProofState.t) :
  ProofState.ready (ProofState.base st) = true ->
  ProofState.ready (ProofState.base (Proof.apply context2d image op st)) = true.
Proof.
  intros Hr. destruct op as [p|l k f|v|v|v]; cbn.
  - destruct (ready_handleRotationPick context2d image p st) as [E|[E _]];
      rewrite E; auto.
  - destruct (ready_captureLine context2d image l k f st) as [E|(_ & E & _)];
      rewrite E; auto.
  - rewrite ready_handleGlideDistanceChange. exact Hr.
  - unfold Proof.handlePatchSizeChange. rewrite ready_resizePatch. exact Hr.
  - rewrite ready_handleRotationRepeatChange. exact Hr.
Qed.

Lemma type_apply (context2d : bool) (image : ImageState.t)
      (op : Proof.Op) (st : ProofState.t) :
  ProofState.type (Proof.apply context2d image op st) = ProofState.type st.
Proof.
  destruct op as [p|l k f|v|v|v]; cbn.
  - unfold Proof.handleRotationPick.
    destruct (ImageState.element image); [|reflexivity].
    destruct st; try reflexivity.
    destruct (ImageTools.samplePatch _ _ _ _); reflexivity.
  - unfold Proof.captureLine.
    destruct (ImageState.element image); [|reflexivity].
    destruct k, st; try reflexivity;
      destruct (ImageTools.samplePatch _ _ _ _); reflexivity.
  - unfold Proof.handleGlideDistanceChange.
    destruct (ImageState.element image); [|reflexivity].
    destruct st as [| |b [l|] d|]; try reflexivity.
    destruct (ProofState.patchSample b); reflexivity.
  - unfold Proof.handlePatchSizeChange, Proof.resizePatch.
    destruct (ImageState.element image); [|destruct st; reflexivity].
    destruct st as [b [c|] a r|b [l|]|b [l|] d|b]; cbn;
      try reflexivity; destruct (ImageTools.samplePatch _ _ _ _); reflexivity.
  - unfold Proof.handleRotationRepeatChange.
    destruct (ImageState.element image); [|reflexivity].
    destruct st as [b [c|] a r| | |]; try reflexivity.
    destruct (ProofState.patchSample b); reflexivity.
Qed.

(** C5: a fresh proof is ready exactly when its type is [none]; no
    operation on the proof turns a ready proof back to not ready; and a
    proof that was not ready becomes ready only through a rotation pick or
    a final line, which also leaves a computed [after] buffer. *)
Theorem ready_flag (context2d : bool) (image : ImageState.t) :
  (forall type angle,
      ProofState.ready (ProofState.base (Proof.createProofState type angle))
      = bool_decide (type = PTnone)) /\
  (forall op st,
      ProofState.ready (ProofState.base st) = true ->
      ProofState.ready (ProofState.base (Proof.apply context2d image op st)) = true) /\
  (forall op st,
      ProofState.ready (ProofState.base st) = false ->
      ProofState.ready (ProofState.base (Proof.apply context2d image op st)) = true ->
      ((exists point, op = Proof.RotationPick point) \/
       (exists line kind, op = Proof.CaptureLine line kind true)) /\
      is_Some (ProofState.after (ProofState.base (Proof.apply context2d image op st)))).
Proof.
  split; [intros [] angle; reflexivity|].
  split; [intros op st; apply ready_apply_mono|].
  intros op st Hnot Hnow. destruct op as [p|l k f|v|v|v]; cbn in *.
  - split; [eauto|].
    destruct (ready_handleRotationPick context2d image p st) as [E|[_ E]]; [|exact E].
    rewrite E in Hnow. congruence.
  - destruct (ready_captureLine context2d image l k f st) as [E|(-> & _ & E)].
    + rewrite E in Hnow. congruence.
    + split; [eauto|exact E].
  - rewrite ready_handleGlideDistanceChange in Hnow. congruence.
  - unfold Proof.handlePatchSizeChange in Hnow. rewrite ready_resizePatch in Hnow.
    congruence.
  - rewrite ready_handleRotationRepeatChange in Hnow. congruence.
Qed.

(** The theorem on the 1000 x 600 image: a fresh mirror proof is not
    ready, a final line makes it ready, and a later draft line and a
    resize leave it ready. *)
Lemma ready_flag_witness :
  let image := loaded_image wide_image in
  let fresh := Proof.createProofState PTmirror None in
  let drawn := Proof.apply true image (Proof.CaptureLine sample_mirror_line Kmirror true) fresh in
  ProofState.ready (ProofState.base fresh) = false /\
  ProofState.ready (ProofState.base drawn) = true /\
  ProofState.ready (ProofState.base
    (Proof.apply true image (Proof.CaptureLine sample_line Kmirror false) drawn)) = true /\
  ProofState.ready (ProofState.base
    (Proof.apply true image (Proof.PatchSizeChange 100) drawn)) = true /\
  is_Some (ProofState.after (ProofState.base drawn)).
Proof.
  intros image fresh drawn.
  destruct (ready_flag true image) as (Hfresh & Hmono & Hfirst).
  assert (ProofState.ready (ProofState.base drawn) = true) as Hdrawn by reflexivity.
  split; [exact (Hfresh PTmirror None)|].
  split; [exact Hdrawn|].
  split; [exact (Hmono _ drawn Hdrawn)|].
  split; [exact (Hmono _ drawn Hdrawn)|].
  exact (proj2 (Hfirst (Proof.CaptureLine sample_mirror_line Kmirror true) fresh
                       (Hfresh PTmirror None) Hdrawn)).
Defined.

(** ** The draft store *)

Lemma lookupDraft_ensure (store : gmap string (gmap string ProofState.t))
      (next nodeId answerKey : string) :
  App.lookupDraft (<[next := default ∅ (store !! next)]> store) nodeId answerKey
  = App.lookupDraft store nodeId answerKey.
Proof.
  unfold App.lookupDraft. destruct (decide (next = nodeId)) as [->|Hne].
  - rewrite lookup_insert_eq. reflexivity.
  - rewrite lookup_insert_ne by exact Hne. reflexivity.
Qed.

Lemma lookupDraft_write (store : gmap string (gmap string ProofState.t))
      (node key nodeId answerKey : string) (p : ProofState.t) :
  App.lookupDraft (<[node := <[key := p]> (default ∅ (store !! node))]> store)
                  nodeId answerKey
  = if decide (node = nodeId /\ key = answerKey) then Some p
    else App.lookupDraft store nodeId answerKey.
Proof.
  unfold App.lookupDraft. destruct (decide (node = nodeId)) as [->|Hne].
  - rewrite lookup_insert_eq. cbn. destruct (decide (key = answerKey)) as [->|Hk].
    + rewrite lookup_insert_eq. rewrite decide_True by auto. reflexivity.
    + rewrite lookup_insert_ne by exact Hk. rewrite decide_False by tauto. reflexivity.
  - rewrite lookup_insert_ne by exact Hne. rewrite decide_False by tauto. reflexivity.
Qed.

Lemma ensure_bucket_present (store : gmap string (gmap string ProofState.t))
      (next : string) (bucket : gmap string ProofState.t) :
  store !! next = Some bucket -> <[next := default ∅ (store !! next)]> store = store.
Proof. intros E. rewrite E. cbn. apply insert_id. exact E. Qed.

Lemma pop_app {A : Type} (front : list A) (last : A) :
  App.pop (front ++ [last]) = Some (front, last).
Proof. unfold App.pop. rewrite rev_app_distr. cbn. rewrite rev_involutive. reflexivity. Qed.

Lemma pop_nil {A : Type} : App.pop (@nil A) = None.
Proof. reflexivity. Qed.

Lemma pop_Some {A : Type} (l front : list A) (last : A) :
  App.pop l = Some (front, last) -> l = front ++ [last].
Proof.
  unfold App.pop. intros H. destruct (rev l) as [|x xs] eqn:E; [discriminate|].
  injection H as <- <-. rewrite <- (rev_involutive l), E. reflexivity.
Qed.

(** ** Effects *)

Section Controller.
Variable context2d : bool.
Variable decisionTree : DecisionTree.t.

Local Abbreviation dispatch := (App.dispatch context2d decisionTree).
Local Abbreviation commit := (App.commit decisionTree).
Local Abbreviation currentNode := (App.currentNode decisionTree).
Local Abbreviation handleConfirmAnswer := (App.handleConfirmAnswer decisionTree).

(** Without a change of dependencies no effect runs. *)
Lemma commit_same (s : App.State) : commit s s = s.
Proof.
  unfold App.commit. rewrite !bool_decide_eq_true_2 by reflexivity. reflexivity.
Qed.

Lemma handleConfirmAnswer_cases (s : App.State) :
  handleConfirmAnswer s = s \/
  exists node key answer,
    currentNode s = Some (question node) /\
    App.selectedAnswerKey s = Some key /\
    Js.truthy_string key = true /\
    ProofState.ready (ProofState.base (App.proofState s)) = true /\
    App.findAnswer node key = Some answer /\
    handleConfirmAnswer s = confirmed s node key answer.
Proof.
  unfold App.handleConfirmAnswer.
  destruct (currentNode s) as [[node|]|] eqn:En; auto.
  destruct (App.selectedAnswerKey s) as [key|] eqn:Ek; auto.
  destruct (Js.truthy_string key) eqn:Et; cbn; auto.
  destruct (ProofState.ready _) eqn:Er; cbn; auto.
  destruct (App.findAnswer node key) as [answer|] eqn:Ea; auto.
  right. exists node, key, answer. auto 10.
Qed.

Lemma handleConfirmAnswer_go (s : App.State) (node : Question.t) (key : string)
      (answer : Answer.t) :
  currentNode s = Some (question node) ->
  App.selectedAnswerKey s = Some key ->
  Js.truthy_string key = true ->
  ProofState.ready (ProofState.base (App.proofState s)) = true ->
  App.findAnswer node key = Some answer ->
  handleConfirmAnswer s = confirmed s node key answer.
Proof.
  intros En Ek Et Er Ea. unfold App.handleConfirmAnswer.
  rewrite En, Ek, Et, Er, Ea. reflexivity.
Qed.

Lemma answerSelected_None (s : App.State) :
  App.selectedAnswerKey s = None -> App.answerSelected s = None.
Proof. unfold App.answerSelected. intros ->. reflexivity. Qed.

Lemma answerSelected_Some (s : App.State) (key : string) :
  App.answerSelected s = Some key <->
  App.selectedAnswerKey s = Some key /\ Js.truthy_string key = true.
Proof.
  unfold App.answerSelected. destruct (App.selectedAnswerKey s) as [k|]; cbn.
  - destruct (Js.truthy_string k) eqn:E; split.
    + intros [= <-]. auto.
    + intros [[= <-] _]. reflexivity.
    + discriminate.
    + intros [[= <-] E']. congruence.
  - split; [discriminate | intros [? _]; discriminate].
Qed.

(** The effects after a manual confirmation do nothing more. *)
Lemma dispatch_ConfirmAnswer (s : App.State) :
  dispatch App.ConfirmAnswer s = handleConfirmAnswer s.
Proof.
  unfold App.dispatch. cbn [App.handle].
  destruct (handleConfirmAnswer_cases s) as [E|(node & key & answer & _ & _ & _ & _ & _ & E)];
    rewrite E.
  - apply commit_same.
  - unfold App.commit, App.autoConfirmEffect, App.autoConfirmDue, App.draftEffect.
    rewrite (answerSelected_None (confirmed s node key answer)) by reflexivity.
    repeat case_bool_decide; reflexivity.
Qed.
End Controller.

(** ** Invariants of the controller *)

Lemma type_createProofState (t : ProofType) (angle : option Q) :
  ProofState.type (Proof.createProofState t angle) = t.
Proof. destruct t; reflexivity. Qed.

Lemma ready_createProofState (t : ProofType) (angle : option Q) :
  ProofState.ready (ProofState.base (Proof.createProofState t angle))
  = bool_decide (t = PTnone).
Proof. destruct t; reflexivity. Qed.

Lemma ready_if_none_create (t : ProofType) (angle : option Q) :
  ProofState.type (Proof.createProofState t angle) = PTnone ->
  ProofState.ready (ProofState.base (Proof.createProofState t angle)) = true.
Proof. destruct t; cbn; intros E; first [reflexivity | discriminate E]. Qed.

Lemma lookupDraft_empty (nodeId key : string) : App.lookupDraft ∅ nodeId key = None.
Proof. unfold App.lookupDraft. rewrite lookup_empty. cbn. apply lookup_empty. Qed.

Lemma fits_create (tree : DecisionTree.t) (nodeId key : string)
      (node : Question.t) (answer : Answer.t) :
  DecisionTree.nodes tree !! nodeId = Some (question node) ->
  App.findAnswer node key = Some answer ->
  fits tree nodeId key
       (Proof.createProofState (fst (App.resolveProofRequirements node (Some answer)))
                               (snd (App.resolveProofRequirements node (Some answer)))).
Proof.
  intros Hn Ha. split; [apply ready_if_none_create|].
  intros node' answer' Hn' Ha'. rewrite type_createProofState.
  rewrite Hn in Hn'. injection Hn' as <-. rewrite Ha in Ha'. injection Ha' as <-.
  reflexivity.
Qed.

Lemma fits_apply (context2d : bool) (tree : DecisionTree.t) (image : ImageState.t)
      (op : Proof.Op) (nodeId key : string) (p : ProofState.t) :
  fits tree nodeId key p -> fits tree nodeId key (Proof.apply context2d image op p).
Proof.
  intros [Hr Ht]. split.
  - rewrite type_apply. intros Hn. apply ready_apply_mono. auto.
  - intros. rewrite type_apply. eauto.
Qed.

Section Invariants.
Variable context2d : bool.
Variable decisionTree : DecisionTree.t.

Local Abbreviation inv := (invariant decisionTree).

Lemma invariant_initial : inv (App.initialState decisionTree).
Proof.
  split; cbn.
  - reflexivity.
  - discriminate.
  - constructor.
  - intros nodeId key d. rewrite lookupDraft_empty. discriminate.
Qed.

Lemma invariant_handleFileLoaded (url : string) (img : HTMLImageElement) (s : App.State) :
  inv s -> inv (App.handleFileLoaded decisionTree url img s).
Proof.
  intros [Hp Hs Hh Hd]. split; cbn.
  - reflexivity.
  - discriminate.
  - constructor.
  - exact Hd.
Qed.

Lemma invariant_handleRestart (s : App.State) :
  inv s -> inv (App.handleRestart decisionTree s).
Proof.
  intros _. split; cbn.
  - reflexivity.
  - discriminate.
  - constructor.
  - intros nodeId key d. rewrite lookupDraft_empty. discriminate.
Qed.

Lemma invariant_handleUnitCellChange (next : UnitCellState.t) (s : App.State) :
  inv s -> inv (App.handleUnitCellChange next s).
Proof. intros [Hp Hs Hh Hd]. split; cbn; assumption. Qed.

Lemma invariant_handleChangeAnswer (s : App.State) :
  inv s -> inv (App.handleChangeAnswer s).
Proof.
  intros [Hp Hs Hh Hd]. split; cbn.
  - reflexivity.
  - discriminate.
  - exact Hh.
  - exact Hd.
Qed.

Lemma invariant_handleSelectAnswer (answerKey : string) (s : App.State) :
  inv s -> inv (App.handleSelectAnswer decisionTree answerKey s).
Proof.
  intros Hinv. unfold App.handleSelectAnswer.
  destruct (App.imageReady s); cbn; [|exact Hinv].
  destruct (App.currentNode decisionTree s) as [[node|]|] eqn:En; try exact Hinv.
  destruct (App.findAnswer node answerKey) as [answer|] eqn:Ea; [|exact Hinv].
  destruct Hinv as [Hp Hs Hh Hd].
  assert (fits decisionTree (App.currentNodeId s) answerKey
            (default (Proof.createProofState
                        (fst (App.resolveProofRequirements node (Some answer)))
                        (snd (App.resolveProofRequirements node (Some answer))))
                     (App.lookupDraft (App.draftStore s) (App.currentNodeId s) answerKey)))
    as Hfits.
  { destruct (App.lookupDraft _ _ _) eqn:El; cbn.
    - eapply Hd. exact El.
    - apply fits_create; assumption. }
  split; [cbn | | cbn | cbn].
  - apply Hfits.
  - intros key Hk. apply answerSelected_Some in Hk as [[= <-] _]. cbn.
    split; [exists node, answer; auto | exact Hfits].
  - exact Hh.
  - exact Hd.
Qed.

Lemma invariant_handleResetProof (s : App.State) :
  inv s -> inv (App.handleResetProof decisionTree s).
Proof.
  intros Hinv. unfold App.handleResetProof.
  destruct (App.currentNode decisionTree s) as [[node|]|] eqn:En; try exact Hinv.
  destruct (App.selectedAnswerKey s) as [key|] eqn:Ek; [|exact Hinv].
  destruct (Js.truthy_string key) eqn:Et; cbn; [|exact Hinv].
  destruct (App.findAnswer node key) as [answer|] eqn:Ea; [|exact Hinv].
  destruct Hinv as [Hp Hs Hh Hd].
  pose proof (fits_create decisionTree (App.currentNodeId s) key node answer En Ea) as Hfits.
  split; [cbn | | cbn | cbn].
  - apply Hfits.
  - intros key' Hk. apply answerSelected_Some in Hk as [Hk _]. cbn in Hk.
    rewrite ?Ek in Hk. injection Hk as <-. cbn.
    split; [exists node, answer; auto | exact Hfits].
  - exact Hh.
  - exact Hd.
Qed.

Lemma invariant_handleConfirmAnswer (s : App.State) :
  wf_tree decisionTree -> inv s -> inv (App.handleConfirmAnswer decisionTree s).
Proof.
  intros Hwf Hinv.
  destruct (handleConfirmAnswer_cases decisionTree s)
    as [E|(node & key & answer & En & Ek & Et & Er & Ea & E)]; rewrite E; [exact Hinv|].
  destruct Hinv as [Hp Hs Hh Hd]. split; cbn.
  - reflexivity.
  - discriminate.
  - apply Forall_app. split; [exact Hh|]. constructor; [|constructor].
    exists key. cbn. split; [reflexivity|]. split; [exact Et|].
    exists node, answer. split; [|exact Ea].
    rewrite (Hwf _ _ En). exact En.
  - intros nodeId key' d. rewrite lookupDraft_ensure. apply Hd.
Qed.

Lemma invariant_handleBack (s : App.State) :
  inv s -> inv (App.handleBack decisionTree s).
Proof.
  intros Hinv. unfold App.handleBack.
  destruct (App.pop (App.history s)) as [[front last]|] eqn:Epop; [|exact Hinv].
  apply pop_Some in Epop.
  destruct Hinv as [Hp Hs Hh Hd].
  rewrite Epop in Hh. apply Forall_app in Hh as [Hfront Hlast].
  apply Forall_cons in Hlast as [(key & Ek & Et & node & answer & En & Ea) _].
  rewrite En, Ek, Et.
  assert (fits decisionTree (HistoryEntry.nodeId last) key
            match App.lookupDraft (App.draftStore s) (HistoryEntry.nodeId last) key with
            | Some storedDraft => storedDraft
            | None =>
              let '(type, rotationAngleDeg) :=
                App.resolveProofRequirements node (App.findAnswer node key) in
              Proof.createProofState type rotationAngleDeg
            end) as Hfits.
  { destruct (App.lookupDraft _ _ _) eqn:El.
    - eapply Hd. exact El.
    - rewrite Ea. apply (fits_create decisionTree _ _ _ _ En Ea). }
  split; [cbn | | cbn | cbn].
  - apply Hfits.
  - intros key' Hk. apply answerSelected_Some in Hk as [Hk _]. cbn in Hk.
    rewrite ?Ek in Hk. injection Hk as <-. cbn.
    split; [exists node, answer; auto | exact Hfits].
  - exact Hfront.
  - exact Hd.
Qed.

Lemma invariant_ProofOp (op : Proof.Op) (s : App.State) :
  inv s ->
  inv (App.with_proofState (Proof.apply context2d (App.image s) op (App.proofState s)) s).
Proof.
  intros [Hp Hs Hh Hd]. split; cbn.
  - rewrite type_apply. intros Hn. apply ready_apply_mono. auto.
  - intros key Hk. destruct (Hs key Hk) as [Hv Hf].
    split; [exact Hv | apply fits_apply; exact Hf].
  - exact Hh.
  - exact Hd.
Qed.

Lemma invariant_handle (e : App.Event) (s : App.State) :
  wf_tree decisionTree -> inv s -> inv (App.handle context2d decisionTree e s).
Proof.
  intros Hwf Hinv. destruct e; cbn [App.handle].
  - apply invariant_handleFileLoaded; assumption.
  - apply invariant_handleRestart; assumption.
  - apply invariant_handleUnitCellChange; assumption.
  - apply invariant_handleSelectAnswer; assumption.
  - apply invariant_handleResetProof; assumption.
  - apply invariant_handleChangeAnswer; assumption.
  - apply invariant_handleConfirmAnswer; assumption.
  - apply invariant_handleBack; assumption.
  - apply invariant_ProofOp; assumption.
Qed.
End Invariants.

Section Commit.
Variable context2d : bool.
Variable decisionTree : DecisionTree.t.

Local Abbreviation inv := (invariant decisionTree).
Local Abbreviation commit := (App.commit decisionTree).

Lemma autoConfirmDue_deps (s s' : App.State) :
  App.autoConfirmDeps decisionTree s = App.autoConfirmDeps decisionTree s' ->
  App.autoConfirmDue decisionTree s = App.autoConfirmDue decisionTree s'.
Proof.
  unfold App.autoConfirmDeps, App.autoConfirmDue, App.answerSelected.
  intros [= Et Ek En]. rewrite Et, Ek, En. reflexivity.
Qed.

Lemma autoConfirmDue_true (s : App.State) :
  App.autoConfirmDue decisionTree s = true ->
  exists key node,
    App.answerSelected s = Some key /\
    App.currentNode decisionTree s = Some (question node) /\
    ProofState.type (App.proofState s) = PTnone.
Proof.
  unfold App.autoConfirmDue.
  destruct (App.answerSelected s) as [key|]; [|discriminate].
  destruct (App.currentNode decisionTree s) as [[node|]|]; try discriminate.
  intros H. apply bool_decide_eq_true in H. eauto.
Qed.

Lemma autoConfirmDue_intro (s : App.State) (key : string) (node : Question.t) :
  App.answerSelected s = Some key ->
  App.currentNode decisionTree s = Some (question node) ->
  ProofState.type (App.proofState s) = PTnone ->
  App.autoConfirmDue decisionTree s = true.
Proof.
  unfold App.autoConfirmDue. intros -> -> Ht. apply bool_decide_eq_true. exact Ht.
Qed.

(** Under the invariant a due auto-confirmation goes through. *)
Lemma autoConfirm_goes (cur : App.State) :
  inv cur ->
  App.autoConfirmDue decisionTree cur = true ->
  exists node key answer,
    App.answerSelected cur = Some key /\
    App.currentNode decisionTree cur = Some (question node) /\
    App.findAnswer node key = Some answer /\
    App.handleConfirmAnswer decisionTree cur = confirmed cur node key answer.
Proof.
  intros Hinv Hdue.
  apply autoConfirmDue_true in Hdue as (key & node & Hk & Hn & Ht).
  destruct (inv_selected _ _ Hinv key Hk) as [(node' & answer & Hn' & Ha) _].
  unfold App.currentNode in Hn. rewrite Hn in Hn'. injection Hn' as <-.
  exists node, key, answer. split; [exact Hk|]. split; [exact Hn|]. split; [exact Ha|].
  apply answerSelected_Some in Hk as [Hk Htr].
  apply handleConfirmAnswer_go; auto.
  apply (inv_proof_ready _ _ Hinv Ht).
Qed.

(** The state after the first effect of a commit. *)
Lemma commit_first_effect (prev cur : App.State) :
  inv cur ->
  App.autoConfirmDue decisionTree prev = false ->
  let s1 :=
    if bool_decide (App.autoConfirmDeps decisionTree cur = App.autoConfirmDeps decisionTree prev)
    then cur else App.autoConfirmEffect decisionTree cur in
  (App.autoConfirmDue decisionTree cur = false /\ s1 = cur) \/
  (exists node key answer,
      App.answerSelected cur = Some key /\
      App.currentNode decisionTree cur = Some (question node) /\
      App.findAnswer node key = Some answer /\
      s1 = confirmed cur node key answer).
Proof.
  intros Hinv Hprev s1. subst s1. case_bool_decide as Hdeps.
  - left. split; [|reflexivity].
    rewrite (autoConfirmDue_deps _ _ Hdeps). exact Hprev.
  - unfold App.autoConfirmEffect.
    destruct (App.autoConfirmDue decisionTree cur) eqn:Hdue; [|auto].
    right. destruct (autoConfirm_goes cur Hinv Hdue) as (node & key & answer & ? & ? & ? & E).
    exists node, key, answer. rewrite E. auto.
Qed.

Lemma invariant_draftEffect (cur acc : App.State) :
  inv cur -> inv acc -> inv (App.draftEffect cur acc).
Proof.
  intros Hcur [Hp Hs Hh Hd]. unfold App.draftEffect.
  destruct (App.answerSelected cur) as [key|] eqn:Ek; [|split; assumption].
  split; cbn [App.with_draftStore App.proofState App.history App.draftStore
              App.currentNodeId].
  - exact Hp.
  - intros key' Hk. apply Hs. rewrite <- Hk.
    unfold App.answerSelected. reflexivity.
  - exact Hh.
  - intros nodeId key' d. rewrite lookupDraft_write. case_decide as Heq.
    + intros [= <-]. destruct Heq as [<- <-].
      apply (inv_selected _ _ Hcur key Ek).
    + apply Hd.
Qed.

Lemma invariant_commit (prev cur : App.State) :
  wf_tree decisionTree -> inv cur -> inv (commit prev cur).
Proof.
  intros Hwf Hinv. unfold App.commit. cbv zeta.
  set (s1 := if bool_decide (App.autoConfirmDeps decisionTree cur
                             = App.autoConfirmDeps decisionTree prev)
             then cur else App.autoConfirmEffect decisionTree cur).
  assert (inv s1) as H1.
  { subst s1. case_bool_decide; [exact Hinv|]. unfold App.autoConfirmEffect.
    destruct (App.autoConfirmDue decisionTree cur); [|exact Hinv].
    apply invariant_handleConfirmAnswer; assumption. }
  clearbody s1. case_bool_decide; [exact H1|]. apply invariant_draftEffect; assumption.
Qed.

Lemma draftEffect_frame (cur acc : App.State) :
  App.currentNodeId (App.draftEffect cur acc) = App.currentNodeId acc /\
  App.selectedAnswerKey (App.draftEffect cur acc) = App.selectedAnswerKey acc /\
  App.proofState (App.draftEffect cur acc) = App.proofState acc /\
  App.history (App.draftEffect cur acc) = App.history acc /\
  App.image (App.draftEffect cur acc) = App.image acc /\
  App.unitCell (App.draftEffect cur acc) = App.unitCell acc.
Proof.
  unfold App.draftEffect. destruct (App.answerSelected cur); cbn; auto 10.
Qed.

Lemma autoConfirmDue_draftEffect (cur acc : App.State) :
  App.autoConfirmDue decisionTree (App.draftEffect cur acc)
  = App.autoConfirmDue decisionTree acc.
Proof.
  apply autoConfirmDue_deps. unfold App.autoConfirmDeps, App.currentNode.
  destruct (draftEffect_frame cur acc) as (-> & -> & -> & _). reflexivity.
Qed.

Lemma answerSelected_draftEffect (cur acc : App.State) :
  App.answerSelected (App.draftEffect cur acc) = App.answerSelected acc.
Proof.
  unfold App.answerSelected.
  destruct (draftEffect_frame cur acc) as (_ & -> & _). reflexivity.
Qed.

(** A handler that keeps a selection keeps the draft store. *)
Lemma handle_draftStore (e : App.Event) (s : App.State) :
  App.selectedAnswerKey (App.handle context2d decisionTree e s) = None \/
  App.draftStore (App.handle context2d decisionTree e s) = App.draftStore s.
Proof.
  destruct e; cbn [App.handle]; auto.
  - unfold App.handleSelectAnswer.
    destruct (App.imageReady s); cbn; auto.
    destruct (App.currentNode decisionTree s) as [[node|]|]; auto.
    destruct (App.findAnswer node answerKey); auto.
  - unfold App.handleResetProof.
    destruct (App.currentNode decisionTree s) as [[node|]|]; auto.
    destruct (App.selectedAnswerKey s) as [key|]; auto.
    destruct (Js.truthy_string key); cbn; auto.
    destruct (App.findAnswer node key); auto.
  - destruct (handleConfirmAnswer_cases decisionTree s)
      as [E|(node & key & answer & _ & _ & _ & _ & _ & E)]; rewrite E; auto.
  - unfold App.handleBack.
    destruct (App.pop (App.history s)) as [[front last]|]; auto.
Qed.

Lemma settled_commit (prev cur : App.State) :
  inv cur ->
  settled decisionTree prev ->
  (App.selectedAnswerKey cur = None \/ App.draftStore cur = App.draftStore prev) ->
  settled decisionTree (commit prev cur).
Proof.
  intros Hinv [Hidle Hdraft] Hstore. unfold App.commit. cbv zeta.
  destruct (commit_first_effect prev cur Hinv Hidle)
    as [[Hdue ->]|(node & key & answer & _ & _ & _ & ->)].
  - case_bool_decide as Hdeps.
    + split; [exact Hdue|].
      intros key Hk.
      unfold App.draftDeps in Hdeps. injection Hdeps as En Ep Es.
      destruct Hstore as [Hnone|Hsame].
      { apply answerSelected_Some in Hk as [Hk _]. congruence. }
      rewrite Hsame, En, Ep. apply Hdraft.
      unfold App.answerSelected in *. rewrite <- Es. exact Hk.
    + split; [rewrite autoConfirmDue_draftEffect; exact Hdue|].
      intros key. rewrite answerSelected_draftEffect. intros Hk.
      unfold App.draftEffect. rewrite Hk. cbn.
      rewrite lookupDraft_write. rewrite decide_True by auto. reflexivity.
  - assert (forall acc, App.selectedAnswerKey acc = None -> settled decisionTree acc) as Hnone.
    { intros acc Hacc. split.
      - unfold App.autoConfirmDue. rewrite (answerSelected_None acc Hacc). reflexivity.
      - intros k Hk. rewrite (answerSelected_None acc Hacc) in Hk. discriminate. }
    case_bool_decide; apply Hnone; [reflexivity|].
    destruct (draftEffect_frame cur (confirmed cur node key answer)) as (_ & -> & _).
    reflexivity.
Qed.

(** Every reachable state satisfies both invariants. *)
Lemma reachable_invariant (s : App.State) :
  wf_tree decisionTree ->
  App.reachable context2d decisionTree s ->
  inv s /\ settled decisionTree s.
Proof.
  intros Hwf Hreach. induction Hreach as [|e s Hreach [Hinv Hset]].
  - split; [apply invariant_initial|]. split; [reflexivity|discriminate].
  - unfold App.dispatch. split.
    + apply invariant_commit; [exact Hwf|]. apply invariant_handle; assumption.
    + apply settled_commit; [|exact Hset|apply handle_draftStore].
      apply invariant_handle; assumption.
Qed.
End Commit.

(** ** Auto-confirmation *)

Lemma reachable_dispatch_all (context2d : bool) (tree : DecisionTree.t)
      (events : list App.Event) (s : App.State) :
  App.reachable context2d tree s ->
  App.reachable context2d tree (App.dispatch_all context2d tree events s).
Proof.
  revert s. induction events as [|e rest IH]; intros s Hs; cbn.
  - exact Hs.
  - apply IH. constructor. exact Hs.
Qed.

Lemma wf_example_tree : wf_tree example_tree.
Proof.
  intros id node. unfold example_tree. cbn.
  repeat (rewrite lookup_insert; case_decide;
          [subst; intros [= <-]; reflexivity || discriminate|]).
  rewrite lookup_empty. discriminate.
Qed.

(** C7: in every reachable state, whenever the handler of an event leaves
    an answer selected at a question node with a proof of type [none]
    (by selecting it, by restoring a draft on the way back, or
    otherwise), the effects of the next render confirm it: the controller
    moves to the answer's target node, clears the selection and pushes
    the step on the history.  No reachable state rests with such a
    selection, and selecting an answer that resolves to [none] lands on
    its target node. *)
Theorem auto_confirm (context2d : bool) (decisionTree : DecisionTree.t) (s : App.State) :
  wf_tree decisionTree ->
  App.reachable context2d decisionTree s ->
  (forall e key node,
      let cur := App.handle context2d decisionTree e s in
      let s' := App.dispatch context2d decisionTree e s in
      App.answerSelected cur = Some key ->
      App.currentNode decisionTree cur = Some (question node) ->
      ProofState.type (App.proofState cur) = PTnone ->
      exists answer,
        App.findAnswer node key = Some answer /\
        App.currentNodeId s' = Answer.next answer /\
        App.selectedAnswerKey s' = None /\
        App.proofState s' = Proof.createProofState PTnone None /\
        App.history s' = App.history cur ++ [HistoryEntry.mk (Question.id node) (Some key)]) /\
  App.autoConfirmDue decisionTree s = false /\
  (forall key node answer,
      App.imageReady s = true ->
      App.currentNode decisionTree s = Some (question node) ->
      App.findAnswer node key = Some answer ->
      Js.truthy_string key = true ->
      fst (App.resolveProofRequirements node (Some answer)) = PTnone ->
      App.currentNodeId (App.dispatch context2d decisionTree (App.SelectAnswer key) s)
      = Answer.next answer).
Proof.
  intros Hwf Hreach.
  destruct (reachable_invariant context2d decisionTree s Hwf Hreach) as [Hinv Hset].
  assert (forall e key node,
      let cur := App.handle context2d decisionTree e s in
      let s' := App.dispatch context2d decisionTree e s in
      App.answerSelected cur = Some key ->
      App.currentNode decisionTree cur = Some (question node) ->
      ProofState.type (App.proofState cur) = PTnone ->
      exists answer,
        App.findAnswer node key = Some answer /\
        App.currentNodeId s' = Answer.next answer /\
        App.selectedAnswerKey s' = None /\
        App.proofState s' = Proof.createProofState PTnone None /\
        App.history s' = App.history cur ++ [HistoryEntry.mk (Question.id node) (Some key)])
    as Hgeneral.
  { intros e key node cur s' Hk Hn Ht. subst s'. unfold App.dispatch. fold cur.
    assert (invariant decisionTree cur) as Hcur by (apply invariant_handle; assumption).
    unfold App.commit. cbv zeta.
    destruct (commit_first_effect decisionTree s cur Hcur (settled_idle _ _ Hset))
      as [[Hdue _]|(node' & key' & answer & Hk' & Hn' & Ha & ->)].
    { rewrite (autoConfirmDue_intro decisionTree cur key node Hk Hn Ht) in Hdue.
      discriminate. }
    rewrite Hk in Hk'. injection Hk' as <-. rewrite Hn in Hn'. injection Hn' as <-.
    exists answer. split; [exact Ha|].
    case_bool_decide.
    - cbn. auto.
    - destruct (draftEffect_frame cur (confirmed cur node key answer))
        as (-> & -> & -> & -> & _). cbn. auto. }
  split; [exact Hgeneral|]. split; [apply (settled_idle _ _ Hset)|].
  intros key node answer Himg Hn Ha Htr Hnone.
  assert (App.handle context2d decisionTree (App.SelectAnswer key) s
          = App.mkState (App.image s) (App.currentNodeId s) (Some key)
              (default (Proof.createProofState
                          (fst (App.resolveProofRequirements node (Some answer)))
                          (snd (App.resolveProofRequirements node (Some answer))))
                       (App.lookupDraft (App.draftStore s) (App.currentNodeId s) key))
              (App.history s) (App.draftStore s) (App.unitCell s)) as Ecur.
  { cbn [App.handle]. unfold App.handleSelectAnswer. rewrite Himg, Hn, Ha. reflexivity. }
  assert (invariant decisionTree (App.handle context2d decisionTree (App.SelectAnswer key) s))
    as Hcur by (apply invariant_handle; assumption).
  assert (App.answerSelected (App.handle context2d decisionTree (App.SelectAnswer key) s)
          = Some key) as Hk.
  { rewrite Ecur. unfold App.answerSelected. cbn. rewrite Htr. reflexivity. }
  assert (App.currentNode decisionTree
            (App.handle context2d decisionTree (App.SelectAnswer key) s)
          = Some (question node)) as Hn'.
  { rewrite Ecur. exact Hn. }
  destruct (inv_selected _ _ Hcur key Hk) as [_ [_ Htype]].
  destruct (Hgeneral (App.SelectAnswer key) key node Hk Hn') as (answer' & Ha' & Hgo & _).
  - rewrite (Htype node answer); [exact Hnone| |exact Ha].
    rewrite Ecur. exact Hn.
  - rewrite Ha in Ha'. injection Ha' as <-. exact Hgo.
Qed.

(** The theorem on the example session: with the image loaded, selecting
    "no" at [q1], which needs no proof, lands on [q3]. *)
Lemma auto_confirm_witness :
  App.reachable true example_tree image_loaded /\
  App.currentNodeId (App.dispatch true example_tree (App.SelectAnswer "no") image_loaded)
  = "q3" /\
  App.autoConfirmDue example_tree image_loaded = false.
Proof.
  assert (App.reachable true example_tree image_loaded) as Hreach.
  { apply (reachable_dispatch_all true example_tree
             [App.FileLoaded "blob:wide" wide_image]). constructor. }
  destruct (auto_confirm true example_tree image_loaded wf_example_tree Hreach)
    as (_ & Hidle & Hselect).
  split; [exact Hreach|]. split; [|exact Hidle].
  apply (Hselect "no" q1 (Answer.mk "no" "No" "q3" None None)); reflexivity.
Defined.

(** ** Backtracking *)

Section Backtracking.
Variable context2d : bool.
Variable decisionTree : DecisionTree.t.

Local Abbreviation dispatch := (App.dispatch context2d decisionTree).
Local Abbreviation commit := (App.commit decisionTree).

Lemma autoConfirmDue_type (s : App.State) :
  ProofState.type (App.proofState s) <> PTnone ->
  App.autoConfirmDue decisionTree s = false.
Proof.
  intros Ht. unfold App.autoConfirmDue.
  destruct (App.answerSelected s); [|reflexivity].
  destruct (App.currentNode decisionTree s) as [[node|]|]; try reflexivity.
  apply bool_decide_eq_false. exact Ht.
Qed.

(** When no auto-confirmation is due, a commit changes the draft store only. *)
Lemma commit_idle_frame (prev cur : App.State) :
  App.autoConfirmDue decisionTree cur = false ->
  App.currentNodeId (commit prev cur) = App.currentNodeId cur /\
  App.selectedAnswerKey (commit prev cur) = App.selectedAnswerKey cur /\
  App.proofState (commit prev cur) = App.proofState cur /\
  App.history (commit prev cur) = App.history cur /\
  App.image (commit prev cur) = App.image cur /\
  App.unitCell (commit prev cur) = App.unitCell cur.
Proof.
  intros Hdue. unfold App.commit, App.autoConfirmEffect. rewrite Hdue.
  assert ((if bool_decide (App.autoConfirmDeps decisionTree cur
                           = App.autoConfirmDeps decisionTree prev)
           then cur else cur) = cur) as -> by (case_bool_decide; reflexivity).
  case_bool_decide; [auto 10|apply draftEffect_frame].
Qed.

Lemma handleBack_restore (s : App.State) (front : list HistoryEntry.t)
      (nodeId key : string) (node : Question.t) :
  App.history s = front ++ [HistoryEntry.mk nodeId (Some key)] ->
  DecisionTree.nodes decisionTree !! nodeId = Some (question node) ->
  Js.truthy_string key = true ->
  App.handleBack decisionTree s
  = App.mkState (App.image s) nodeId (Some key)
      match App.lookupDraft (App.draftStore s) nodeId key with
      | Some storedDraft => storedDraft
      | None =>
        Proof.createProofState
          (fst (App.resolveProofRequirements node (App.findAnswer node key)))
          (snd (App.resolveProofRequirements node (App.findAnswer node key)))
      end
      front (App.draftStore s) (App.unitCell s).
Proof.
  intros Hh Hn Ht. unfold App.handleBack. rewrite Hh, pop_app. cbn.
  rewrite Hn, Ht. reflexivity.
Qed.

Lemma handleBack_empty (s : App.State) :
  App.history s = [] -> App.handleBack decisionTree s = s.
Proof. intros Hh. unfold App.handleBack. rewrite Hh. reflexivity. Qed.

(** C6: from any reachable state with an image, select an answer whose
    proof type resolves to [mirror], draw a final line that makes the
    proof ready, confirm, and go back: the write-through effect has
    stored the drawn proof as the draft of the (node, answer) pair,
    confirming moves to the answer's target, and going back restores the
    node, the selected answer, the history and exactly the proof state
    (line, before and after buffers included) held before confirming.
    Going back with an empty history changes nothing.  In general
    [handleBack] restores the stored draft of the popped (node, answer)
    pair, or a fresh proof of the resolved type when there is none. *)
Theorem backtracking_lossless (s : App.State) :
  wf_tree decisionTree ->
  App.reachable context2d decisionTree s ->
  (forall key node answer line,
      let s1 := dispatch (App.SelectAnswer key) s in
      let s2 := dispatch (App.ProofOp (Proof.CaptureLine line Kmirror true)) s1 in
      let s3 := dispatch App.ConfirmAnswer s2 in
      let s4 := dispatch App.Back s3 in
      App.imageReady s = true ->
      App.currentNode decisionTree s = Some (question node) ->
      App.findAnswer node key = Some answer ->
      Js.truthy_string key = true ->
      fst (App.resolveProofRequirements node (Some answer)) = PTmirror ->
      ProofState.ready (ProofState.base (App.proofState s2)) = true ->
      ProofState.type (App.proofState s2) = PTmirror /\
      App.lookupDraft (App.draftStore s2) (App.currentNodeId s) key
      = Some (App.proofState s2) /\
      App.currentNodeId s3 = Answer.next answer /\
      App.currentNodeId s4 = App.currentNodeId s /\
      App.selectedAnswerKey s4 = Some key /\
      App.proofState s4 = App.proofState s2 /\
      ProofState.line (App.proofState s4) = ProofState.line (App.proofState s2) /\
      ProofState.before (ProofState.base (App.proofState s4))
      = ProofState.before (ProofState.base (App.proofState s2)) /\
      ProofState.after (ProofState.base (App.proofState s4))
      = ProofState.after (ProofState.base (App.proofState s2)) /\
      App.history s4 = App.history s) /\
  (App.history s = [] -> dispatch App.Back s = s) /\
  (forall front nodeId key node,
      App.history s = front ++ [HistoryEntry.mk nodeId (Some key)] ->
      DecisionTree.nodes decisionTree !! nodeId = Some (question node) ->
      Js.truthy_string key = true ->
      let s' := App.handleBack decisionTree s in
      App.currentNodeId s' = nodeId /\
      App.selectedAnswerKey s' = Some key /\
      App.history s' = front /\
      App.proofState s'
      = match App.lookupDraft (App.draftStore s) nodeId key with
        | Some storedDraft => storedDraft
        | None =>
          Proof.createProofState
            (fst (App.resolveProofRequirements node (App.findAnswer node key)))
            (snd (App.resolveProofRequirements node (App.findAnswer node key)))
        end).
Proof.
  intros Hwf Hreach. split; [|split].
  - intros key node answer line s1 s2 s3 s4 Himg Hn Ha Htr Hmirror Hready.
    destruct (reachable_invariant context2d decisionTree s Hwf Hreach) as [Hinv Hset].
    (* selecting *)
    set (cur1 := App.handle context2d decisionTree (App.SelectAnswer key) s).
    assert (cur1 = App.mkState (App.image s) (App.currentNodeId s) (Some key)
              (default (Proof.createProofState
                          (fst (App.resolveProofRequirements node (Some answer)))
                          (snd (App.resolveProofRequirements node (Some answer))))
                       (App.lookupDraft (App.draftStore s) (App.currentNodeId s) key))
              (App.history s) (App.draftStore s) (App.unitCell s)) as Ecur1.
    { unfold cur1. cbn [App.handle]. unfold App.handleSelectAnswer.
      rewrite Himg, Hn, Ha. reflexivity. }
    assert (invariant decisionTree cur1) as Hcur1 by (apply invariant_handle; assumption).
    assert (App.answerSelected cur1 = Some key) as Hk1.
    { rewrite Ecur1. unfold App.answerSelected. cbn. rewrite Htr. reflexivity. }
    assert (ProofState.type (App.proofState cur1) = PTmirror) as Ht1.
    { destruct (inv_selected _ _ Hcur1 key Hk1) as [_ [_ Htype]].
      rewrite (Htype node answer); [exact Hmirror| |exact Ha].
      rewrite Ecur1. exact Hn. }
    assert (App.autoConfirmDue decisionTree cur1 = false) as Hdue1
      by (apply autoConfirmDue_type; rewrite Ht1; discriminate).
    assert (App.currentNodeId s1 = App.currentNodeId cur1 /\
            App.selectedAnswerKey s1 = App.selectedAnswerKey cur1 /\
            App.proofState s1 = App.proofState cur1 /\
            App.history s1 = App.history cur1) as (En1 & Es1 & Ep1 & Eh1).
    { destruct (commit_idle_frame s cur1 Hdue1) as (? & ? & ? & ? & _). auto. }
    rewrite Ecur1 in En1, Es1, Eh1. cbn in En1, Es1, Eh1.
    (* drawing *)
    set (cur2 := App.handle context2d decisionTree
                   (App.ProofOp (Proof.CaptureLine line Kmirror true)) s1).
    assert (ProofState.type (App.proofState cur2) = PTmirror) as Ht2.
    { unfold cur2. cbn [App.handle App.with_proofState App.proofState].
      rewrite type_apply, Ep1. exact Ht1. }
    assert (App.autoConfirmDue decisionTree cur2 = false) as Hdue2
      by (apply autoConfirmDue_type; rewrite Ht2; discriminate).
    assert (App.currentNodeId s2 = App.currentNodeId s1 /\
            App.selectedAnswerKey s2 = App.selectedAnswerKey s1 /\
            App.proofState s2 = App.proofState cur2 /\
            App.history s2 = App.history s1) as (En2 & Es2 & Ep2 & Eh2).
    { destruct (commit_idle_frame s1 cur2 Hdue2) as (? & ? & ? & ? & _). auto. }
    rewrite En1 in En2. rewrite Es1 in Es2. rewrite Eh1 in Eh2.
    assert (App.reachable context2d decisionTree s2) as Hreach2
      by (do 2 constructor; exact Hreach).
    destruct (reachable_invariant context2d decisionTree s2 Hwf Hreach2) as [Hinv2 Hset2].
    assert (App.answerSelected s2 = Some key) as Hk2.
    { apply answerSelected_Some. auto. }
    pose proof (settled_draft _ _ Hset2 key Hk2) as Hdraft2. rewrite En2 in Hdraft2.
    assert (ProofState.type (App.proofState s2) = PTmirror) as Ht2'
      by (rewrite Ep2; exact Ht2).
    (* confirming *)
    assert (s3 = confirmed s2 node key answer) as E3.
    { unfold s3. rewrite dispatch_ConfirmAnswer. apply handleConfirmAnswer_go; auto.
      unfold App.currentNode. rewrite En2. exact Hn. }
    (* going back *)
    assert (App.handleBack decisionTree s3
            = App.mkState (App.image s3) (App.currentNodeId s) (Some key) (App.proofState s2)
                          (App.history s) (App.draftStore s3) (App.unitCell s3)) as E4.
    { rewrite (handleBack_restore s3 (App.history s) (App.currentNodeId s) key node).
      - rewrite E3 at 2. cbn [confirmed App.draftStore].
        rewrite lookupDraft_ensure, Hdraft2. reflexivity.
      - rewrite E3. cbn. rewrite Eh2. rewrite (Hwf _ _ Hn). reflexivity.
      - exact Hn.
      - exact Htr. }
    assert (App.autoConfirmDue decisionTree (App.handleBack decisionTree s3) = false) as Hdue4.
    { apply autoConfirmDue_type. rewrite E4. cbn. rewrite Ht2'. discriminate. }
    assert (App.currentNodeId s4 = App.currentNodeId (App.handleBack decisionTree s3) /\
            App.selectedAnswerKey s4 = App.selectedAnswerKey (App.handleBack decisionTree s3) /\
            App.proofState s4 = App.proofState (App.handleBack decisionTree s3) /\
            App.history s4 = App.history (App.handleBack decisionTree s3))
      as (En4 & Es4 & Ep4 & Eh4).
    { destruct (commit_idle_frame s3 (App.handleBack decisionTree s3) Hdue4)
        as (? & ? & ? & ? & _). auto. }
    rewrite E4 in En4, Es4, Ep4, Eh4. cbn in En4, Es4, Ep4, Eh4.
    split; [exact Ht2'|]. split; [exact Hdraft2|].
    split; [rewrite E3; reflexivity|].
    split; [exact En4|]. split; [exact Es4|]. split; [exact Ep4|].
    rewrite Ep4. auto.
  - intros Hh. unfold App.dispatch. cbn [App.handle].
    rewrite (handleBack_empty s Hh). apply commit_same.
  - intros front nodeId key node Hh Hn Htr s'. subst s'.
    rewrite (handleBack_restore s front nodeId key node Hh Hn Htr). cbn. auto.
Qed.
End Backtracking.

(** The theorem on the example session: the mirror proof drawn for "yes"
    at [q1] is confirmed (the session reaches [q2]) and going back
    restores [q1], the answer and the drawn proof with its line. *)
Lemma backtracking_lossless_witness :
  let s1 := App.dispatch true example_tree (App.SelectAnswer "yes") image_loaded in
  let s2 := App.dispatch true example_tree
              (App.ProofOp (Proof.CaptureLine sample_mirror_line Kmirror true)) s1 in
  let s3 := App.dispatch true example_tree App.ConfirmAnswer s2 in
  let s4 := App.dispatch true example_tree App.Back s3 in
  ProofState.ready (ProofState.base (App.proofState s2)) = true /\
  App.currentNodeId s3 = "q2" /\
  App.currentNodeId s4 = "q1" /\
  App.selectedAnswerKey s4 = Some "yes" /\
  App.proofState s4 = App.proofState s2 /\
  ProofState.line (App.proofState s2) = Some sample_mirror_line.
Proof.
  intros s1 s2 s3 s4.
  assert (App.reachable true example_tree image_loaded) as Hreach.
  { apply (reachable_dispatch_all true example_tree
             [App.FileLoaded "blob:wide" wide_image]). constructor. }
  assert (ProofState.ready (ProofState.base (App.proofState s2)) = true)
    as Hready by (vm_compute; reflexivity).
  assert (App.imageReady image_loaded = true) as Himg by (vm_compute; reflexivity).
  assert (App.currentNode example_tree image_loaded = Some (question q1)) as Hnode
    by (vm_compute; reflexivity).
  assert (ProofState.line (App.proofState s2) = Some sample_mirror_line) as Hline
    by (vm_compute; reflexivity).
  destruct (backtracking_lossless true example_tree image_loaded wf_example_tree Hreach)
    as (Hscenario & _ & _).
  destruct (Hscenario "yes" q1 (Answer.mk "yes" "Yes" "q2" (Some PTmirror) None)
                      sample_mirror_line Himg Hnode eq_refl eq_refl eq_refl Hready)
    as (_ & _ & H3 & H4 & Hsel & Hproof & _).
  split; [exact Hready|]. split; [exact H3|]. split; [exact H4|].
  split; [exact Hsel|]. split; [exact Hproof|]. exact Hline.
Defined.

(** Going back onto an answer that needs no proof is undone at once: the
    restored draft has type [none], so the next render confirms it again. *)
Example back_onto_none_advances_again :
  let at_q3 := App.dispatch true example_tree (App.SelectAnswer "no") image_loaded in
  App.currentNodeId at_q3 = "q3" /\
  App.currentNodeId (App.handleBack example_tree at_q3) = "q1" /\
  App.currentNodeId (App.dispatch true example_tree App.Back at_q3) = "q3".
Proof. cbv zeta. repeat split; vm_compute; reflexivity. Qed.

(** ** Confirming keeps the drafts *)

(** C10: [handleConfirmAnswer] leaves the draft of every (node, answer)
    pair as it was; every bucket of the store is unchanged, except that
    the destination node gets an empty bucket when it had none; after a
    confirmation that went through the destination has a bucket; an
    existing destination bucket leaves the whole store unchanged; the
    effects that follow a manual confirmation change nothing more; and
    the draft of the answer just confirmed is what [handleBack] restores
    next. *)
Theorem confirm_keeps_drafts (context2d : bool) (decisionTree : DecisionTree.t)
        (s : App.State) :
  let s' := App.handleConfirmAnswer decisionTree s in
  (forall nodeId answerKey,
      App.lookupDraft (App.draftStore s') nodeId answerKey
      = App.lookupDraft (App.draftStore s) nodeId answerKey) /\
  (forall nodeId,
      App.draftStore s' !! nodeId = App.draftStore s !! nodeId \/
      (nodeId = App.currentNodeId s' /\
       App.draftStore s !! nodeId = None /\
       App.draftStore s' !! nodeId = Some ∅)) /\
  (s' <> s -> is_Some (App.draftStore s' !! App.currentNodeId s')) /\
  (forall bucket,
      App.draftStore s !! App.currentNodeId s' = Some bucket ->
      App.draftStore s' = App.draftStore s) /\
  App.dispatch context2d decisionTree App.ConfirmAnswer s = s' /\
  (forall key d,
      wf_tree decisionTree ->
      s' <> s ->
      App.selectedAnswerKey s = Some key ->
      App.lookupDraft (App.draftStore s) (App.currentNodeId s) key = Some d ->
      let back := App.handleBack decisionTree s' in
      App.currentNodeId back = App.currentNodeId s /\
      App.selectedAnswerKey back = Some key /\
      App.proofState back = d).
Proof.
  intros s'. subst s'.
  destruct (handleConfirmAnswer_cases decisionTree s)
    as [E|(node & key & answer & En & Ek & Et & _ & _ & E)].
  - rewrite dispatch_ConfirmAnswer, E. repeat split; auto; congruence.
  - rewrite dispatch_ConfirmAnswer, E.
    split; [intros; apply lookupDraft_ensure|].
    split.
    { intros nodeId. cbn. destruct (decide (Answer.next answer = nodeId)) as [<-|Hne].
      - rewrite lookup_insert_eq.
        destruct (App.draftStore s !! Answer.next answer) eqn:Eb; cbn; auto.
      - rewrite lookup_insert_ne by exact Hne. auto. }
    split; [intros _; cbn; rewrite lookup_insert_eq; eauto|].
    split; [intros bucket Hb; cbn; eapply ensure_bucket_present; exact Hb|].
    split; [reflexivity|].
    intros key' d Hwf _ Ek' Hd. rewrite Ek in Ek'. injection Ek' as <-.
    assert (Question.id node = App.currentNodeId s) as Eid by (apply Hwf; exact En).
    rewrite (handleBack_restore decisionTree (confirmed s node key answer)
               (App.history s) (App.currentNodeId s) key node).
    + cbn. rewrite lookupDraft_ensure, Hd. auto.
    + cbn. rewrite Eid. reflexivity.
    + exact En.
    + exact Et.
Qed.

(** The theorem on the example session: confirming the drawn mirror
    creates the empty bucket of [q2], keeps the draft of ([q1], yes), and
    going back restores that draft. *)
Lemma confirm_keeps_drafts_witness :
  let s' := App.handleConfirmAnswer example_tree mirror_drawn in
  s' <> mirror_drawn /\
  App.currentNodeId s' = "q2" /\
  is_Some (App.draftStore s' !! "q2") /\
  App.lookupDraft (App.draftStore s') "q1" "yes" = Some (App.proofState mirror_drawn) /\
  App.proofState (App.handleBack example_tree s') = App.proofState mirror_drawn.
Proof.
  intros s'.
  destruct (confirm_keeps_drafts true example_tree mirror_drawn)
    as (Hkeep & _ & Hdest & _ & _ & Hback).
  assert (s' <> mirror_drawn) as Hne.
  { intros E. apply (f_equal App.currentNodeId) in E. vm_compute in E. discriminate. }
  assert (App.lookupDraft (App.draftStore mirror_drawn) (App.currentNodeId mirror_drawn) "yes"
          = Some (App.proofState mirror_drawn)) as Hdraft by (vm_compute; reflexivity).
  assert (App.selectedAnswerKey mirror_drawn = Some "yes") as Hsel
    by (vm_compute; reflexivity).
  split; [exact Hne|]. split; [vm_compute; reflexivity|].
  split; [exact (Hdest Hne)|].
  split.
  - unfold s'. rewrite Hkeep. vm_compute. reflexivity.
  - exact (proj2 (proj2 (Hback "yes" _ wf_example_tree Hne Hsel Hdraft))).
Defined.

(** ** Operations that are not valid in the current state *)

Lemma with_patchSize_frame (size : Q) (st : ProofState.t) :
  let st' := ProofState.with_patchSize size st in
  ProofState.patchSize (ProofState.base st') = size /\
  ProofState.type st' = ProofState.type st /\
  ProofState.ready (ProofState.base st') = ProofState.ready (ProofState.base st) /\
  ProofState.before (ProofState.base st') = ProofState.before (ProofState.base st) /\
  ProofState.after (ProofState.base st') = ProofState.after (ProofState.base st) /\
  ProofState.patchSample (ProofState.base st') = ProofState.patchSample (ProofState.base st) /\
  ProofState.line st' = ProofState.line st /\
  ProofState.center st' = ProofState.center st /\
  ProofState.distance st' = ProofState.distance st /\
  ProofState.repeats st' = ProofState.repeats st /\
  ProofState.angleDeg st' = ProofState.angleDeg st.
Proof. destruct st; cbn; auto 12. Qed.

(** C8 (amended): an operation that is not valid in the current state
    returns the state it was given: a rotation point outside the rotation
    variant, a line whose kind is not the variant, a glide distance
    without a sampled patch and a line, rotation repeats without a center
    and a sampled patch, a confirmation without a selected answer or with
    a proof that is not ready.  Resizing the patch without a committed
    center or line is not such a no-op: it stores the clamped size in
    [patchSize] and leaves every other field as it was. *)
Theorem invalid_operations (context2d : bool) (decisionTree : DecisionTree.t)
        (image : ImageState.t) :
  (forall point st,
      ProofState.type st <> PTrotation ->
      Proof.handleRotationPick context2d image point st = st) /\
  (forall line kind isFinal st,
      ProofState.type st <> LineKind_type kind ->
      Proof.captureLine context2d image line kind isFinal st = st) /\
  (forall value st,
      ProofState.type st <> PTglide \/
      ProofState.patchSample (ProofState.base st) = None \/
      ProofState.line st = None ->
      Proof.handleGlideDistanceChange context2d image value st = st) /\
  (forall value st,
      ProofState.type st <> PTrotation \/
      ProofState.center st = None \/
      ProofState.patchSample (ProofState.base st) = None ->
      Proof.handleRotationRepeatChange context2d image value st = st) /\
  (forall s,
      App.answerSelected s = None \/
      ProofState.ready (ProofState.base (App.proofState s)) = false ->
      App.handleConfirmAnswer decisionTree s = s /\
      App.dispatch context2d decisionTree App.ConfirmAnswer s = s) /\
  (forall value st,
      ProofState.center st = None ->
      ProofState.line st = None ->
      let limits := Proof.patchSizeLimits image in
      let size := Qmin (Qmax value (fst limits)) (snd limits) in
      let st' := Proof.handlePatchSizeChange context2d image value st in
      st' = ProofState.with_patchSize size st /\
      ProofState.patchSize (ProofState.base st') = size /\
      ProofState.type st' = ProofState.type st /\
      ProofState.ready (ProofState.base st') = ProofState.ready (ProofState.base st) /\
      ProofState.before (ProofState.base st') = ProofState.before (ProofState.base st) /\
      ProofState.after (ProofState.base st') = ProofState.after (ProofState.base st) /\
      ProofState.patchSample (ProofState.base st')
      = ProofState.patchSample (ProofState.base st) /\
      ProofState.distance st' = ProofState.distance st /\
      ProofState.repeats st' = ProofState.repeats st /\
      ProofState.angleDeg st' = ProofState.angleDeg st).
Proof.
  split.
  { intros point st Ht. unfold Proof.handleRotationPick.
    destruct (ImageState.element image); [|reflexivity].
    destruct st; try reflexivity. destruct Ht. reflexivity. }
  split.
  { intros line kind isFinal st Ht. unfold Proof.captureLine.
    destruct (ImageState.element image); [|reflexivity].
    destruct kind, st; try reflexivity; destruct Ht; reflexivity. }
  split.
  { intros value st H. unfold Proof.handleGlideDistanceChange.
    destruct (ImageState.element image); [|reflexivity].
    destruct st as [| |b [l|] d|]; try reflexivity.
    destruct (ProofState.patchSample b) eqn:E; [|reflexivity].
    cbn in H. rewrite E in H. destruct H as [H|[H|H]]; [destruct H; reflexivity| |];
      discriminate. }
  split.
  { intros value st H. unfold Proof.handleRotationRepeatChange.
    destruct (ImageState.element image); [|reflexivity].
    destruct st as [b [c|] a r| | |]; try reflexivity.
    destruct (ProofState.patchSample b) eqn:E; [|reflexivity].
    cbn in H. rewrite E in H. destruct H as [H|[H|H]]; [destruct H; reflexivity| |];
      discriminate. }
  split.
  { intros s H. rewrite dispatch_ConfirmAnswer.
    assert (App.handleConfirmAnswer decisionTree s = s) as E; [|split; exact E].
    destruct (handleConfirmAnswer_cases decisionTree s)
      as [E|(node & key & answer & _ & Ek & Et & Er & _ & _)]; [exact E|].
    destruct H as [H|H]; [|congruence].
    assert (App.answerSelected s = Some key) as Hk by (apply answerSelected_Some; auto).
    congruence. }
  intros value st Hc Hl limits size st'.
  assert (st' = ProofState.with_patchSize size st) as E.
  { subst st' size limits. unfold Proof.handlePatchSizeChange, Proof.resizePatch.
    destruct (ImageState.element image); [|reflexivity].
    destruct st as [b [c|] a r|b [l|]|b [l|] d|b]; cbn in Hc, Hl;
      try discriminate; reflexivity. }
  rewrite E. split; [reflexivity|].
  destruct (with_patchSize_frame size st) as (? & ? & ? & ? & ? & ? & _ & _ & ? & ? & ?).
  auto 12.
Qed.

(** The theorem on the 1000 x 600 image: a fresh mirror proof ignores a
    rotation point, and a resize to 300 stores 300 as its patch size. *)
Lemma invalid_operations_witness :
  let fresh := Proof.createProofState PTmirror None in
  Proof.handleRotationPick true (loaded_image wide_image) (Point.mk 10 10) fresh = fresh /\
  Proof.handlePatchSizeChange true (loaded_image wide_image) 300 fresh
  = ProofState.with_patchSize
      (Qmin (Qmax 300 (fst (Proof.patchSizeLimits (loaded_image wide_image))))
            (snd (Proof.patchSizeLimits (loaded_image wide_image)))) fresh.
Proof.
  intros fresh.
  destruct (invalid_operations true example_tree (loaded_image wide_image))
    as (Hpick & _ & _ & _ & _ & Hresize).
  split.
  - apply Hpick. discriminate.
  - apply (Hresize 300 fresh); reflexivity.
Defined.

(** C8 as stated fails for the resize: on the 1000 x 600 image a fresh
    mirror proof has no committed line, yet resizing to 300 changes the
    state: the patch size goes from 280 to 300. *)
Lemma resize_without_input_changes_state :
  let fresh := Proof.createProofState PTmirror None in
  let resized := Proof.handlePatchSizeChange true (loaded_image wide_image) 300 fresh in
  ProofState.line fresh = None /\
  ProofState.center fresh = None /\
  ProofState.patchSize (ProofState.base fresh) = 280 /\
  ProofState.patchSize (ProofState.base resized) = 300 /\
  resized <> fresh.
Proof.
  cbv zeta. repeat split; try (vm_compute; congruence).
Qed.

(** ** One commit settles the effects *)

Lemma commit_no_selection (tree : DecisionTree.t) (prev cur : App.State) :
  App.selectedAnswerKey cur = None -> App.commit tree prev cur = cur.
Proof.
  intros Hnone. unfold App.commit, App.autoConfirmEffect, App.autoConfirmDue, App.draftEffect.
  rewrite (answerSelected_None cur Hnone).
  repeat case_bool_decide; reflexivity.
Qed.

Lemma commit_same_deps (tree : DecisionTree.t) (prev cur : App.State) :
  App.autoConfirmDeps tree cur = App.autoConfirmDeps tree prev ->
  App.draftDeps cur = App.draftDeps prev ->
  App.commit tree prev cur = cur.
Proof.
  intros H1 H2. unfold App.commit.
  rewrite !bool_decide_eq_true_2 by assumption. reflexivity.
Qed.

(** The render that follows a commit runs no effect that changes the
    state: [dispatch] needs no second round. *)
Lemma commit_settles (tree : DecisionTree.t) (prev cur : App.State) :
  App.commit tree cur (App.commit tree prev cur) = App.commit tree prev cur.
Proof.
  assert (forall acc,
             App.autoConfirmDeps tree acc = App.autoConfirmDeps tree cur ->
             App.draftDeps acc = App.draftDeps cur ->
             App.commit tree cur (App.draftEffect cur acc) = App.draftEffect cur acc) as Hdraft.
  { intros acc H1 H2. apply commit_same_deps.
    - rewrite <- H1. unfold App.autoConfirmDeps, App.currentNode.
      destruct (draftEffect_frame cur acc) as (-> & -> & -> & _). reflexivity.
    - rewrite <- H2. unfold App.draftDeps.
      destruct (draftEffect_frame cur acc) as (-> & -> & -> & _). reflexivity. }
  assert (forall acc,
             App.selectedAnswerKey acc = None ->
             App.commit tree cur (App.draftEffect cur acc) = App.draftEffect cur acc) as Hnone.
  { intros acc Hacc. apply commit_no_selection.
    destruct (draftEffect_frame cur acc) as (_ & -> & _). exact Hacc. }
  unfold App.commit at 2 3. cbv zeta. unfold App.autoConfirmEffect.
  set (b1 := bool_decide (App.autoConfirmDeps tree cur = App.autoConfirmDeps tree prev)).
  set (b2 := bool_decide (App.draftDeps cur = App.draftDeps prev)).
  destruct (handleConfirmAnswer_cases tree cur)
    as [E|(node & key & answer & _ & _ & _ & _ & _ & E)]; rewrite E;
    destruct b1, b2, (App.autoConfirmDue tree cur);
    first [ apply commit_same
          | apply Hdraft; reflexivity
          | apply commit_no_selection; reflexivity
          | apply Hnone; reflexivity ].
Qed.

(** Writing the draft that is already stored changes nothing: an effect
    skipped because its dependencies are structurally unchanged would
    have left the state as it is. *)
Lemma draftEffect_redundant (cur : App.State) (key : string) :
  App.answerSelected cur = Some key ->
  App.lookupDraft (App.draftStore cur) (App.currentNodeId cur) key
  = Some (App.proofState cur) ->
  App.draftEffect cur cur = cur.
Proof.
  intros Hk Hd. unfold App.draftEffect. rewrite Hk.
  unfold App.lookupDraft in Hd.
  destruct (App.draftStore cur !! App.currentNodeId cur) as [bucket|] eqn:Eb; cbn in Hd.
  - cbn. rewrite (insert_id bucket key _ Hd), (insert_id _ _ _ Eb).
    destruct cur; reflexivity.
  - rewrite lookup_empty in Hd. discriminate.
Qed.

(** * Further properties of the code *)

(** ** Sliders and limits *)

Lemma Math_floor_bounds (v : Q) : Sliders.Math_floor v <= v /\ v < Sliders.Math_floor v + 1.
Proof.
  unfold Sliders.Math_floor. split; [apply Qfloor_le|].
  pose proof (Qlt_floor v) as H. rewrite inject_Z_plus in H. exact H.
Qed.

Lemma Math_floor_mono (v w : Q) : v <= w -> Sliders.Math_floor v <= Sliders.Math_floor w.
Proof.
  intros H. unfold Sliders.Math_floor. rewrite <- Zle_Qle. apply Qfloor_resp_le. exact H.
Qed.

Lemma Math_floor_integer (z : Z) : Sliders.Math_floor (inject_Z z) = inject_Z z.
Proof. unfold Sliders.Math_floor. rewrite Qfloor_Z. reflexivity. Qed.

Lemma patchSizeLimits_bounds (image : ImageState.t) :
  40 <= fst (Proof.patchSizeLimits image) /\
  fst (Proof.patchSizeLimits image) + 20 <= snd (Proof.patchSizeLimits image).
Proof.
  unfold Proof.patchSizeLimits.
  destruct (ImageState.element image); [|cbn; lra].
  destruct (negb _ || negb _)%bool; cbn; [lra|].
  minmax_lra.
Qed.

(** X1: whatever the image, the patch-size limits satisfy
    [40 <= min <= max - 20]; the range of the patch-size slider is at least
    20 wide; and a value the slider reports is at most [max] and less than
    1 below [min], so the size [handlePatchSizeChange] passes to
    [resizePatch] is the slider's value raised by less than 1, and the
    value itself once it reaches [min]. *)
Theorem patch_slider_meets_limits (image : ImageState.t) (value : Q) :
  let limits := Proof.patchSizeLimits image in
  let clamped := Qmin (Qmax value (fst limits)) (snd limits) in
  (40 <= fst limits /\ fst limits + 20 <= snd limits) /\
  Sliders.patch_min limits + 20 <= Sliders.patch_max limits /\
  (Sliders.patchSlider_reports limits value = true ->
   fst limits - 1 < value /\ value <= snd limits /\
   value <= clamped /\ clamped < value + 1 /\
   (fst limits <= value -> clamped == value)).
Proof.
  intros limits clamped.
  destruct (patchSizeLimits_bounds image) as [H40 Hgap]. fold limits in H40, Hgap.
  destruct (Math_floor_bounds (fst limits)) as [Hf1 Hf2].
  destruct (Math_floor_bounds (snd limits)) as [Hg1 Hg2].
  assert (40 <= Sliders.Math_floor (fst limits)) as Hf40.
  { change 40 with (inject_Z 40). rewrite <- (Math_floor_integer 40).
    apply Math_floor_mono. exact H40. }
  split; [auto|]. split.
  { unfold Sliders.patch_min, Sliders.patch_max. minmax_lra. }
  intros Hrep. apply range_reports_bounds in Hrep as [Hlo Hhi].
  unfold Sliders.patch_min in Hlo. unfold Sliders.patch_max in Hhi.
  subst clamped. revert Hlo Hhi. minmax_lra.
Qed.

(** The theorem on the loaded 1000 x 600 image, whose limits are 120 and
    600: the slider, whose step is 24, reports 144, which is passed on unchanged. *)
Lemma patch_slider_meets_limits_witness :
  Sliders.patchSlider_reports (Proof.patchSizeLimits (loaded_image wide_image)) 144 = true /\
  Qmin (Qmax 144 (fst (Proof.patchSizeLimits (loaded_image wide_image))))
       (snd (Proof.patchSizeLimits (loaded_image wide_image))) == 144.
Proof.
  assert (Sliders.patchSlider_reports (Proof.patchSizeLimits (loaded_image wide_image)) 144
          = true) as Hrep by (vm_compute; reflexivity).
  split; [exact Hrep|].
  destruct (patch_slider_meets_limits (loaded_image wide_image) 144) as (_ & _ & H).
  destruct (H Hrep) as (_ & _ & _ & _ & Heq).
  apply Heq. vm_compute. discriminate.
Defined.
(** ** The stored patch size *)

Lemma patchSize_with_patchSize (size : Q) (st : ProofState.t) :
  ProofState.patchSize (ProofState.base (ProofState.with_patchSize size st)) = size.
Proof. destruct st; reflexivity. Qed.

Lemma patchSize_resizePatch (context2d : bool) (image : ImageState.t)
      (prev : ProofState.t) (size : Q) :
  ProofState.patchSize (ProofState.base (Proof.resizePatch context2d image prev size)) = size.
Proof.
  unfold Proof.resizePatch.
  destruct (ImageState.element image); [|apply patchSize_with_patchSize].
  destruct prev as [b [c|] a r|b [l|]|b [l|] d|b]; cbn;
    try reflexivity; destruct (ImageTools.samplePatch _ _ _ _); reflexivity.
Qed.

Lemma patchSize_other_ops (context2d : bool) (image : ImageState.t)
      (op : Proof.Op) (prev : ProofState.t) :
  (forall value, op <> Proof.PatchSizeChange value) ->
  ProofState.patchSize (ProofState.base (Proof.apply context2d image op prev))
  = ProofState.patchSize (ProofState.base prev).
Proof.
  intros Hop. destruct op as [p|l k f|v|v|v]; cbn.
  - unfold Proof.handleRotationPick.
    destruct (ImageState.element image); [|reflexivity].
    destruct prev; try reflexivity.
    destruct (ImageTools.samplePatch _ _ _ _); reflexivity.
  - unfold Proof.captureLine.
    destruct (ImageState.element image); [|reflexivity].
    destruct k, prev; try reflexivity;
      destruct (ImageTools.samplePatch _ _ _ _); reflexivity.
  - unfold Proof.handleGlideDistanceChange.
    destruct (ImageState.element image); [|reflexivity].
    destruct prev as [| |b [l|] d|]; try reflexivity.
    destruct (ProofState.patchSample b); reflexivity.
  - destruct (Hop v). reflexivity.
  - unfold Proof.handleRotationRepeatChange.
    destruct (ImageState.element image); [|reflexivity].
    destruct prev as [b [c|] a r| | |]; try reflexivity.
    destruct (ProofState.patchSample b); reflexivity.
Qed.

(** X2: a fresh proof has patch size 280, only the patch-size slider
    changes it, and it stores a size between the limits of the image; so
    in every state reached from a fresh proof the patch size is at least
    40, and it is 280 or lies between the limits. *)
Theorem patchSize_within_limits (context2d : bool) (image : ImageState.t)
        (ops : list Proof.Op) (type : ProofType) (angle : option Q) :
  let st := Proof.run context2d image ops (Proof.createProofState type angle) in
  let size := ProofState.patchSize (ProofState.base st) in
  40 <= size /\
  (size = 280 \/
   (fst (Proof.patchSizeLimits image) <= size /\ size <= snd (Proof.patchSizeLimits image))).
Proof.
  cbv zeta.
  assert (forall st,
             (ProofState.patchSize (ProofState.base st) = 280 \/
              (fst (Proof.patchSizeLimits image) <= ProofState.patchSize (ProofState.base st) /\
               ProofState.patchSize (ProofState.base st) <= snd (Proof.patchSizeLimits image))) ->
             let size := ProofState.patchSize
                           (ProofState.base (Proof.run context2d image ops st)) in
             size = 280 \/
             (fst (Proof.patchSizeLimits image) <= size /\
              size <= snd (Proof.patchSizeLimits image))) as Hrun.
  { induction ops as [|op rest IH]; intros st Hst; cbn; [exact Hst|].
    apply IH. destruct op as [p|l k f|v|v|v];
      try (rewrite patchSize_other_ops by discriminate; exact Hst).
    right. cbn. unfold Proof.handlePatchSizeChange. rewrite patchSize_resizePatch.
    destruct (patchSizeLimits_bounds image). minmax_lra. }
  specialize (Hrun (Proof.createProofState type angle)).
  destruct Hrun as [E|[Hlo Hhi]].
  - left. destruct type; reflexivity.
  - rewrite E. split; [lra|auto].
  - destruct (patchSizeLimits_bounds image). split; [lra|auto].
Qed.

(** ** Buffers in step with the parameters *)

Lemma samplePatch_Some_inv (context2d : bool) (img : HTMLImageElement)
      (center : Point.t) (size : Q) (p : PatchSample.t) :
  ImageTools.samplePatch context2d img center size = Some p ->
  context2d = true /\
  ImageTools.availableWidth img <> 0%N /\ ImageTools.availableHeight img <> 0%N.
Proof.
  unfold ImageTools.samplePatch.
  destruct (ImageTools.availableWidth img =? 0)%N eqn:EW; [discriminate|].
  destruct (ImageTools.availableHeight img =? 0)%N eqn:EH; [discriminate|].
  destruct context2d; [|discriminate].
  intros _. apply N.eqb_neq in EW, EH. auto.
Qed.

Lemma samplePatch_None_iff (context2d : bool) (img : HTMLImageElement)
      (center : Point.t) (size : Q) :
  ImageTools.samplePatch context2d img center size = None <->
  context2d = false \/
  ImageTools.availableWidth img = 0%N \/ ImageTools.availableHeight img = 0%N.
Proof.
  unfold ImageTools.samplePatch.
  destruct (ImageTools.availableWidth img =? 0)%N eqn:EW;
    [apply N.eqb_eq in EW; cbn; tauto|].
  destruct (ImageTools.availableHeight img =? 0)%N eqn:EH;
    [apply N.eqb_eq in EH; cbn; tauto|].
  apply N.eqb_neq in EW, EH.
  destruct context2d; cbn; split; try tauto; try discriminate.
  intros [H|[H|H]]; [discriminate|contradiction|contradiction].
Qed.

(** Whether a patch can be sampled does not depend on the focus or the size. *)
Lemma samplePatch_succeeds (context2d : bool) (img : HTMLImageElement)
      (c c' : Point.t) (s s' : Q) (p : PatchSample.t) :
  ImageTools.samplePatch context2d img c s = Some p ->
  exists p', ImageTools.samplePatch context2d img c' s' = Some p'.
Proof.
  intros H. destruct (ImageTools.samplePatch context2d img c' s') as [p'|] eqn:E; [eauto|].
  apply samplePatch_None_iff in E.
  apply samplePatch_Some_inv in H as (? & ? & ?).
  destruct E as [E|[E|E]]; congruence.
Qed.

Lemma in_sync_create (context2d : bool) (image : ImageState.t)
      (type : ProofType) (angle : option Q) :
  in_sync context2d image (Proof.createProofState type angle).
Proof. destruct type; cbn; auto. Qed.

Lemma in_sync_apply (context2d : bool) (image : ImageState.t)
      (op : Proof.Op) (st : ProofState.t) :
  in_sync context2d image st -> in_sync context2d image (Proof.apply context2d image op st).
Proof.
  intros Hst. destruct op as [point|line kind isFinal|value|value|value]; cbn [Proof.apply].
  - unfold Proof.handleRotationPick.
    destruct (ImageState.element image) as [img|] eqn:Ei; [|exact Hst].
    destruct st as [b c a r| | |]; try exact Hst.
    destruct (ImageTools.samplePatch context2d img point (ProofState.patchSize b))
      as [patch|] eqn:Ep; [|exact Hst].
    unfold in_sync. cbn. exists img, point, (ImageTools.rotatePatch context2d patch (a * r) img).
    auto 10.
  - unfold Proof.captureLine.
    destruct (ImageState.element image) as [img|] eqn:Ei; [|exact Hst].
    destruct kind, st as [b c a r|b l|b l d|b]; try exact Hst;
      destruct (ImageTools.samplePatch context2d img (Proof.midPoint line)
                                       (ProofState.patchSize b)) as [patch|] eqn:Ep;
      try exact Hst; unfold in_sync; cbn; eexists img, (Proof.midPoint line), _; auto 10.
  - unfold Proof.handleGlideDistanceChange.
    destruct (ImageState.element image) as [img|] eqn:Ei; [|exact Hst].
    destruct st as [| |b [l|] d|]; try exact Hst.
    destruct (ProofState.patchSample b) as [sample|] eqn:Es; [|exact Hst].
    unfold in_sync in *. cbn in *. rewrite Es in *.
    destruct Hst as (img' & f & a & Ei' & Ef & Esample & Eb & _).
    rewrite Ei in Ei'. injection Ei' as <-.
    eexists img, f, _. auto 10.
  - unfold Proof.handlePatchSizeChange.
    set (size := Qmin _ _). clearbody size. unfold Proof.resizePatch.
    destruct (ImageState.element image) as [img|] eqn:Ei.
    2:{ unfold in_sync in *.
        destruct st as [b c a r|b l|b l d|b]; cbn in *;
          destruct (ProofState.patchSample b); try exact Hst;
          destruct Hst as (? & ? & ? & ? & _); congruence. }
    assert (forall b f,
               focus st = Some f -> ProofState.base st = b ->
               ImageTools.samplePatch context2d img f size = None -> False) as Hfail.
    { intros b f Ef Eb En. unfold in_sync in Hst. rewrite Eb, Ef in Hst.
      destruct (ProofState.patchSample b) as [p|]; [|destruct Hst as (_ & _ & ?); discriminate].
      destruct Hst as (img' & f' & a & Ei' & [= <-] & Es & _).
      rewrite Ei in Ei'. injection Ei' as <-.
      destruct (samplePatch_succeeds _ _ _ f _ size _ Es) as [p' Ep']. congruence. }
    assert (forall patchSize', focus st = None ->
               in_sync context2d image (ProofState.with_patchSize patchSize' st)) as Hnone.
    { intros s' Ef. unfold in_sync in *.
      destruct st as [b c a r|b l|b l d|b]; cbn in *;
        destruct (ProofState.patchSample b); try exact Hst;
        destruct Hst as (? & ? & ? & ? & ? & _); congruence. }
    destruct st as [b [c|] a r|b [l|]|b [l|] d|b]; try (apply Hnone; reflexivity).
    + destruct (ImageTools.samplePatch context2d img c size) as [patch|] eqn:Ep;
        [|destruct (Hfail b c eq_refl eq_refl Ep)].
      unfold in_sync. cbn. eexists img, c, _. auto 10.
    + destruct (ImageTools.samplePatch context2d img (Proof.midPoint l) size)
        as [patch|] eqn:Ep; [|destruct (Hfail b _ eq_refl eq_refl Ep)].
      unfold in_sync. cbn. eexists img, _, _. auto 10.
    + destruct (ImageTools.samplePatch context2d img (Proof.midPoint l) size)
        as [patch|] eqn:Ep; [|destruct (Hfail b _ eq_refl eq_refl Ep)].
      unfold in_sync. cbn. eexists img, _, _. auto 10.
  - unfold Proof.handleRotationRepeatChange.
    destruct (ImageState.element image) as [img|] eqn:Ei; [|exact Hst].
    destruct st as [b [c|] a r| | |]; try exact Hst.
    destruct (ProofState.patchSample b) as [sample|] eqn:Es; [|exact Hst].
    unfold in_sync in *. cbn in *. rewrite Es in *.
    destruct Hst as (img' & f & a' & Ei' & Ef & Esample & Eb & _).
    rewrite Ei in Ei'. injection Ei' as <-.
    eexists img, f, _. auto 10.
Qed.

(** X3: in every state reached from a fresh proof on a fixed image, the
    buffers agree with the stored parameters.  Without a stored patch
    there is no center, no line and no buffer; with one, the patch is the
    sample around the stored center (or the midpoint of the stored line)
    at the stored patch size, [before] is its raster, and [after] is the
    rotation by [angleDeg * repeats], the reflection across the stored
    line, or the glide along it by the stored distance times one of the
    two reference lengths. *)
Theorem buffers_in_sync (context2d : bool) (image : ImageState.t)
        (ops : list Proof.Op) (type : ProofType) (angle : option Q) :
  in_sync context2d image
          (Proof.run context2d image ops (Proof.createProofState type angle)).
Proof.
  generalize (in_sync_create context2d image type angle).
  generalize (Proof.createProofState type angle).
  induction ops as [|op rest IH]; intros st Hst; cbn; [exact Hst|].
  apply IH, in_sync_apply, Hst.
Qed.

(** ** An image that cannot be sampled *)

Lemma unusable_samplePatch (context2d : bool) (image : ImageState.t)
      (img : HTMLImageElement) (c : Point.t) (s : Q) :
  unusable context2d image ->
  ImageState.element image = Some img ->
  ImageTools.samplePatch context2d img c s = None.
Proof.
  unfold unusable. intros H E. rewrite E in H. apply samplePatch_None_iff. exact H.
Qed.

Lemma unusable_apply (context2d : bool) (image : ImageState.t)
      (op : Proof.Op) (st : ProofState.t) :
  unusable context2d image ->
  ProofState.patchSample (ProofState.base st) = None ->
  exists size, Proof.apply context2d image op st = ProofState.with_patchSize size st.
Proof.
  intros Hun Hs.
  assert (exists size, st = ProofState.with_patchSize size st) as Hsame.
  { exists (ProofState.patchSize (ProofState.base st)). destruct st as [[]|[]|[]|[]]; reflexivity. }
  destruct op as [point|line kind isFinal|value|value|value]; cbn [Proof.apply].
  - unfold Proof.handleRotationPick.
    destruct (ImageState.element image) as [img|] eqn:Ei; [|exact Hsame].
    destruct st; try exact Hsame.
    rewrite (unusable_samplePatch _ _ _ _ _ Hun Ei). exact Hsame.
  - unfold Proof.captureLine.
    destruct (ImageState.element image) as [img|] eqn:Ei; [|exact Hsame].
    destruct kind, st; try exact Hsame;
      rewrite (unusable_samplePatch _ _ _ _ _ Hun Ei); exact Hsame.
  - unfold Proof.handleGlideDistanceChange.
    destruct (ImageState.element image) as [img|] eqn:Ei; [|exact Hsame].
    destruct st as [| |b [l|] d|]; try exact Hsame.
    cbn in Hs. rewrite Hs. exact Hsame.
  - unfold Proof.handlePatchSizeChange. set (size := Qmin _ _). clearbody size.
    exists size. unfold Proof.resizePatch.
    destruct (ImageState.element image) as [img|] eqn:Ei; [|reflexivity].
    destruct st as [b [c|] a r|b [l|]|b [l|] d|b]; try reflexivity;
      rewrite (unusable_samplePatch _ _ _ _ _ Hun Ei); reflexivity.
  - unfold Proof.handleRotationRepeatChange.
    destruct (ImageState.element image) as [img|] eqn:Ei; [|exact Hsame].
    destruct st as [b [c|] a r| | |]; try exact Hsame.
    cbn in Hs. rewrite Hs. exact Hsame.
Qed.

Lemma with_patchSize_twice (s0 s1 : Q) (st : ProofState.t) :
  ProofState.with_patchSize s1 (ProofState.with_patchSize s0 st)
  = ProofState.with_patchSize s1 st.
Proof. destruct st; reflexivity. Qed.

Lemma unusable_run (context2d : bool) (image : ImageState.t)
      (ops : list Proof.Op) (fresh : ProofState.t) :
  unusable context2d image ->
  ProofState.patchSample (ProofState.base fresh) = None ->
  forall s0, exists size,
      Proof.run context2d image ops (ProofState.with_patchSize s0 fresh)
      = ProofState.with_patchSize size fresh.
Proof.
  intros Hun Hs. induction ops as [|op rest IH]; intros s0; cbn; [eauto|].
  destruct (unusable_apply context2d image op (ProofState.with_patchSize s0 fresh) Hun)
    as [s1 E1].
  { destruct (with_patchSize_frame s0 fresh) as (_ & _ & _ & _ & _ & -> & _). exact Hs. }
  rewrite E1, with_patchSize_twice. apply IH.
Qed.

(** X4: when no patch can be sampled (no image element, no 2D context, or
    an image without width or height) no sequence of operations gets a
    proof anywhere: the state stays the fresh proof, up to its patch size.
    In particular a rotation, mirror or glide proof never becomes ready
    and never shows a buffer. *)
Theorem unusable_image_never_ready (context2d : bool) (image : ImageState.t)
        (ops : list Proof.Op) (type : ProofType) (angle : option Q) :
  unusable context2d image ->
  let fresh := Proof.createProofState type angle in
  let st := Proof.run context2d image ops fresh in
  (exists size, st = ProofState.with_patchSize size fresh) /\
  ProofState.ready (ProofState.base st) = bool_decide (type = PTnone) /\
  ProofState.before (ProofState.base st) = None /\
  ProofState.after (ProofState.base st) = None /\
  ProofState.patchSample (ProofState.base st) = None.
Proof.
  intros Hun. cbv zeta.
  destruct (unusable_run context2d image ops (Proof.createProofState type angle) Hun)
    with (s0 := 280) as [size E]; [destruct type; reflexivity|].
  replace (ProofState.with_patchSize 280 (Proof.createProofState type angle))
    with (Proof.createProofState type angle) in E by (destruct type; reflexivity).
  split; [eauto|]. rewrite E. destruct type; cbn; auto.
Qed.

(** The theorem on an image 640 wide and 0 high: a click and a final line
    leave a fresh rotation proof not ready. *)
Lemma unusable_image_never_ready_witness :
  unusable true (loaded_image flat_image) /\
  ProofState.ready (ProofState.base
    (Proof.run true (loaded_image flat_image)
       [Proof.RotationPick (Point.mk 10 0); Proof.PatchSizeChange 100]
       (Proof.createProofState PTrotation None))) = false.
Proof.
  assert (unusable true (loaded_image flat_image)) as Hun by (cbn; auto).
  split; [exact Hun|].
  destruct (unusable_image_never_ready true (loaded_image flat_image)
              [Proof.RotationPick (Point.mk 10 0); Proof.PatchSizeChange 100]
              PTrotation None Hun) as (_ & Hr & _).
  exact Hr.
Defined.

(** ** The focus inside the crop *)

Lemma Math_round_bounds (v : Q) :
  v - (1 # 2) < Js.Math_round v /\ Js.Math_round v <= v + (1 # 2).
Proof.
  unfold Js.Math_round.
  pose proof (Qfloor_le (v + (1 # 2))) as H1.
  pose proof (Qlt_floor (v + (1 # 2))) as H2. rewrite inject_Z_plus in H2.
  change (inject_Z 1) with 1 in H2. split; lra.
Qed.

Lemma samplePatch_call_throws (context2d : bool) (img : HTMLImageElement)
      (center : Point.t) (size : Q) :
  ImageTools.samplePatch_call context2d img center size
  = ImageTools.Throws ImageTools.IndexSizeError <->
  context2d = true /\
  ImageTools.availableWidth img <> 0%N /\ ImageTools.availableHeight img <> 0%N /\
  -1 < size /\ size < 1.
Proof.
  rewrite samplePatch_call_cases.
  destruct (ImageTools.samplePatch context2d img center size) as [p|] eqn:Ep.
  - destruct (samplePatch_Some_inv _ _ _ _ _ Ep) as (-> & HW & HH).
    rewrite (samplePatch_some img center size HW HH) in Ep. cbv zeta in Ep.
    injection Ep as <-. cbn [PatchSample.size].
    set (W := Js.of_N (ImageTools.availableWidth img)).
    set (H := Js.of_N (ImageTools.availableHeight img)).
    assert (1 <= W) as HW1.
    { unfold W, Js.of_N. change 1 with (inject_Z 1). rewrite <- Zle_Qle. lia. }
    assert (1 <= H) as HH1.
    { unfold H, Js.of_N. change 1 with (inject_Z 1). rewrite <- Zle_Qle. lia. }
    set (s := Qmin (Qmin size W) H).
    assert (-1 < s /\ s < 1 <-> -1 < size /\ size < 1) as Hs.
    { unfold s. split; intros [Hlo Hhi]; split; minmax_lra. }
    destruct (getImageData_exception_side s) as [Hindex _].
    destruct (ImageTools.getImageData_exception s s) as [e|] eqn:Et.
    + split.
      * intros E. injection E as ->. split; [reflexivity|]. tauto.
      * intros (_ & _ & _ & Hlo & Hhi).
        assert (Some e = Some ImageTools.IndexSizeError) as E by (apply Hindex; tauto).
        injection E as ->. reflexivity.
    + split; [discriminate|]. intros (_ & _ & _ & Hlo & Hhi).
      assert (@None ImageTools.Exception = Some ImageTools.IndexSizeError) as E
          by (apply Hindex; tauto).
      discriminate.
  - split; [discriminate|]. intros (Hc & HW & HH & _).
    apply samplePatch_None_iff in Ep. destruct Ep as [E|[E|E]]; congruence.
Qed.

Lemma patchSize_run_lower (context2d : bool) (image : ImageState.t)
      (ops : list Proof.Op) (st : ProofState.t) :
  40 <= ProofState.patchSize (ProofState.base st) ->
  40 <= ProofState.patchSize (ProofState.base (Proof.run context2d image ops st)).
Proof.
  revert st. induction ops as [|op rest IH]; intros st Hst; cbn; [exact Hst|].
  apply IH. destruct op as [p|l k f|v|v|v];
    try (rewrite patchSize_other_ops by discriminate; exact Hst).
  cbn. unfold Proof.handlePatchSizeChange. rewrite patchSize_resizePatch.
  destruct (patchSizeLimits_bounds image). minmax_lra.
Qed.



(** ** Rotation parameters *)

Lemma rotation_params_apply (context2d : bool) (image : ImageState.t)
      (op : Proof.Op) (st : ProofState.t) :
  ProofState.angleDeg (Proof.apply context2d image op st) = ProofState.angleDeg st /\
  ((forall r, ProofState.repeats st = Some r -> 1 <= r) ->
   forall r, ProofState.repeats (Proof.apply context2d image op st) = Some r -> 1 <= r).
Proof.
  destruct op as [p|l k f|v|v|v]; cbn [Proof.apply].
  - unfold Proof.handleRotationPick.
    destruct (ImageState.element image); [|auto].
    destruct st; auto.
    destruct (ImageTools.samplePatch _ _ _ _); auto.
  - unfold Proof.captureLine.
    destruct (ImageState.element image); [|auto].
    destruct k, st; auto; destruct (ImageTools.samplePatch _ _ _ _); auto.
  - unfold Proof.handleGlideDistanceChange.
    destruct (ImageState.element image); [|auto].
    destruct st as [| |b [l|] d|]; auto.
    destruct (ProofState.patchSample b); auto.
  - unfold Proof.handlePatchSizeChange, Proof.resizePatch.
    destruct (ImageState.element image); [|destruct st; auto].
    destruct st as [b [c|] a r|b [l|]|b [l|] d|b]; cbn; auto;
      destruct (ImageTools.samplePatch _ _ _ _); auto.
  - unfold Proof.handleRotationRepeatChange.
    destruct (ImageState.element image); [|auto].
    destruct st as [b [c|] a r| | |]; auto.
    destruct (ProofState.patchSample b); auto.
    cbn. split; [reflexivity|]. intros _ r' [= <-]. apply Q.le_max_l.
Qed.

(** X6: in every state reached from a fresh rotation proof the angle is
    the one the proof was created with (the answer's override, else 180),
    and the stored number of repeats is at least 1. *)
Theorem rotation_parameters (context2d : bool) (image : ImageState.t)
        (ops : list Proof.Op) (angle : option Q) :
  let st := Proof.run context2d image ops (Proof.createProofState PTrotation angle) in
  ProofState.angleDeg st = Some (default 180 angle) /\
  exists r, ProofState.repeats st = Some r /\ 1 <= r.
Proof.
  cbv zeta.
  assert (forall st a,
             ProofState.angleDeg st = Some a ->
             (forall r, ProofState.repeats st = Some r -> 1 <= r) ->
             ProofState.angleDeg (Proof.run context2d image ops st) = Some a /\
             (forall r, ProofState.repeats (Proof.run context2d image ops st) = Some r ->
                        1 <= r)) as Hrun.
  { induction ops as [|op rest IH]; intros st a Ha Hr; cbn; [auto|].
    destruct (rotation_params_apply context2d image op st) as [Ea Hr'].
    apply IH; [rewrite Ea; exact Ha | auto]. }
  destruct (Hrun (Proof.createProofState PTrotation angle) (default 180 angle))
    as [Ha Hr].
  - reflexivity.
  - intros r [= <-]. lra.
  - split; [exact Ha|].
    destruct (Proof.run context2d image ops (Proof.createProofState PTrotation angle));
      try discriminate.
    cbn in *. eauto.
Qed.

Lemma order_integer (angleDeg : Q) : Js.is_integer (Sliders.order angleDeg).
Proof.
  unfold Sliders.order.
  destruct (Q.max_dec 1 (Js.Math_round (360 / angleDeg))) as [E|E].
  - apply (is_integer_comp 1); [lra | apply (is_integer_inject_Z 1)].
  - apply (is_integer_comp (Js.Math_round (360 / angleDeg)));
      [lra | apply is_integer_Math_round].
Qed.



(** ** The unit cell *)

Lemma Qmax_keeps (v w : Q) : w <= v -> Qmax v w = v.
Proof.
  intros H. unfold Qmax, GenericMinMax.gmax.
  destruct (v ?= w) eqn:E; try reflexivity.
  apply Qlt_alt in E. lra.
Qed.

Lemma Qmin_keeps (v w : Q) : v <= w -> Qmin v w = v.
Proof.
  intros H. unfold Qmin, GenericMinMax.gmin.
  destruct (v ?= w) eqn:E; try reflexivity.
  apply Qgt_alt in E. lra.
Qed.

Lemma clamp01_in_unit_square (p : Point.t) : in_unit_square (App.clamp01 p).
Proof. unfold in_unit_square, App.clamp01. cbn. repeat split; minmax_lra. Qed.

Lemma clamp01_keeps (p : Point.t) : in_unit_square p -> App.clamp01 p = p.
Proof.
  intros [[Hx0 Hx1] [Hy0 Hy1]]. unfold App.clamp01. destruct p as [x y]. cbn in *.
  rewrite (Qmax_keeps x 0 Hx0), (Qmax_keeps y 0 Hy0).
  rewrite (Qmin_keeps x 1 Hx1), (Qmin_keeps y 1 Hy1). reflexivity.
Qed.

Lemma dispatch_UnitCellChange (context2d : bool) (tree : DecisionTree.t)
      (next : UnitCellState.t) (s : App.State) :
  App.dispatch context2d tree (App.UnitCellChange next) s
  = App.handleUnitCellChange next s.
Proof. unfold App.dispatch. cbn [App.handle]. apply commit_same_deps; reflexivity. Qed.

(** X8: [handleUnitCellChange] stores every corner inside the unit
    square, stores a corner that already lies inside it unchanged, touches
    nothing but the unit cell, and triggers no effect. *)
Theorem unit_cell_clamped (context2d : bool) (tree : DecisionTree.t)
        (next : UnitCellState.t) (s : App.State) :
  let s' := App.dispatch context2d tree (App.UnitCellChange next) s in
  (forall c, in_unit_square (ImagePane.corner c (App.unitCell s'))) /\
  (forall c, in_unit_square (ImagePane.corner c next) ->
             ImagePane.corner c (App.unitCell s') = ImagePane.corner c next) /\
  App.image s' = App.image s /\
  App.currentNodeId s' = App.currentNodeId s /\
  App.selectedAnswerKey s' = App.selectedAnswerKey s /\
  App.proofState s' = App.proofState s /\
  App.history s' = App.history s /\
  App.draftStore s' = App.draftStore s.
Proof.
  cbv zeta. rewrite dispatch_UnitCellChange. cbn.
  split; [intros []; apply clamp01_in_unit_square|].
  split; [intros []; apply clamp01_keeps|]. auto 10.
Qed.

(** The theorem on the example session: a cell whose corner A is at
    (-0.2, 1.5) is stored with A at (0, 1), and its corner B, inside the
    unit square, is stored as it is. *)
Lemma unit_cell_clamped_witness :
  let next := UnitCellState.mk (Point.mk (-0.2) 1.5) (Point.mk 0.45 0.15)
                               (Point.mk 0.2 0.45) (Point.mk 0.5 0.45) in
  let s' := App.dispatch true example_tree (App.UnitCellChange next) image_loaded in
  UnitCellState.A (App.unitCell s') = Point.mk 0 1 /\
  UnitCellState.B (App.unitCell s') = Point.mk 0.45 0.15.
Proof.
  intros next s'.
  destruct (unit_cell_clamped true example_tree next image_loaded) as (_ & Hkeep & _).
  split; [vm_compute; reflexivity|].
  apply (Hkeep ImagePane.cornerB).
  unfold in_unit_square. cbn. repeat split; vm_compute; discriminate.
Defined.

(** ** What a commit can do *)

Lemma commit_cases (tree : DecisionTree.t) (prev cur : App.State) :
  (App.commit tree prev cur = cur \/ App.commit tree prev cur = App.draftEffect cur cur) \/
  exists node key answer,
    App.currentNode tree cur = Some (question node) /\
    App.selectedAnswerKey cur = Some key /\
    Js.truthy_string key = true /\
    App.findAnswer node key = Some answer /\
    App.autoConfirmDue tree cur = true /\
    (App.commit tree prev cur = confirmed cur node key answer \/
     App.commit tree prev cur = App.draftEffect cur (confirmed cur node key answer)).
Proof.
  unfold App.commit, App.autoConfirmEffect. cbv zeta.
  set (b1 := bool_decide (App.autoConfirmDeps tree cur = App.autoConfirmDeps tree prev)).
  set (b2 := bool_decide (App.draftDeps cur = App.draftDeps prev)).
  destruct (App.autoConfirmDue tree cur) eqn:Hdue.
  - destruct (handleConfirmAnswer_cases tree cur)
      as [E|(node & key & answer & En & Ek & Et & _ & Ea & E)]; rewrite E.
    + left. destruct b1, b2; auto.
    + destruct b1; [left; destruct b2; auto|].
      right. exists node, key, answer. destruct b2; auto 10.
  - left. destruct b1, b2; auto.
Qed.

Lemma confirmed_frame (s : App.State) (node : Question.t) (key : string) (answer : Answer.t) :
  App.image (confirmed s node key answer) = App.image s /\
  App.unitCell (confirmed s node key answer) = App.unitCell s.
Proof. split; reflexivity. Qed.

Lemma commit_frame (tree : DecisionTree.t) (prev cur : App.State) :
  App.image (App.commit tree prev cur) = App.image cur /\
  App.unitCell (App.commit tree prev cur) = App.unitCell cur.
Proof.
  destruct (commit_cases tree prev cur)
    as [[E|E]|(node & key & answer & _ & _ & _ & _ & _ & [E|E])]; rewrite E.
  - auto.
  - destruct (draftEffect_frame cur cur) as (_ & _ & _ & _ & -> & ->). auto.
  - auto.
  - destruct (draftEffect_frame cur (confirmed cur node key answer))
      as (_ & _ & _ & _ & -> & ->). auto.
Qed.

Lemma handle_unitCell (context2d : bool) (tree : DecisionTree.t)
      (e : App.Event) (s : App.State) :
  (forall c, in_unit_square (ImagePane.corner c (App.unitCell s))) ->
  forall c, in_unit_square (ImagePane.corner c (App.unitCell (App.handle context2d tree e s))).
Proof.
  assert (forall c, in_unit_square (ImagePane.corner c App.defaultUnitCell)) as Hdefault.
  { intros []; unfold in_unit_square; cbn; repeat split; vm_compute; discriminate. }
  intros Hs. destruct e; cbn [App.handle]; try exact Hs; try exact Hdefault.
  - intros []; apply clamp01_in_unit_square.
  - unfold App.handleSelectAnswer. destruct (negb (App.imageReady s)); [exact Hs|].
    destruct (App.currentNode tree s) as [[node|]|]; try exact Hs.
    destruct (App.findAnswer node answerKey); exact Hs.
  - unfold App.handleResetProof.
    destruct (App.currentNode tree s) as [[node|]|]; try exact Hs.
    destruct (App.selectedAnswerKey s) as [key|]; [|exact Hs].
    destruct (negb (Js.truthy_string key)); [exact Hs|].
    destruct (App.findAnswer node key); exact Hs.
  - destruct (handleConfirmAnswer_cases tree s)
      as [E|(node & key & answer & _ & _ & _ & _ & _ & E)]; rewrite E; exact Hs.
  - unfold App.handleBack. destruct (App.pop (App.history s)) as [[front last]|]; exact Hs.
Qed.

Lemma reachable_unitCell (context2d : bool) (tree : DecisionTree.t) (s : App.State) :
  App.reachable context2d tree s ->
  forall c, in_unit_square (ImagePane.corner c (App.unitCell s)).
Proof.
  induction 1 as [|e s Hreach IH].
  - intros []; unfold in_unit_square; cbn; repeat split; vm_compute; discriminate.
  - unfold App.dispatch.
    destruct (commit_frame tree s (App.handle context2d tree e s)) as [_ ->].
    apply handle_unitCell, IH.
Qed.

Lemma imageToNormalized_in_unit_square (arith : Arith.t) (image : ImageState.t)
      (canvasSize : Canvas.t) (scale : Q) (point : Point.t) :
  in_unit_square (ImagePane.imageToNormalized arith image canvasSize scale point).
Proof.
  unfold in_unit_square, ImagePane.imageToNormalized. cbn. repeat split; minmax_lra.
Qed.

(** X10: in every reachable state, dragging a corner of the unit cell to
    an image point stores that corner at the point's normalized
    coordinates (the clamp of [ImagePane] and the clamp of
    [handleUnitCellChange] collapse into one) and leaves the other three
    corners exactly as they were, whatever the arithmetic of the pane
    rounds to. *)
Theorem unit_cell_drag (arith : Arith.t) (context2d : bool) (tree : DecisionTree.t)
        (s : App.State) (canvasSize : Canvas.t) (scale : Q) (c : ImagePane.Corner)
        (coords : Point.t) :
  App.reachable context2d tree s ->
  let dragged := ImagePane.dragUnitCell arith (App.image s) canvasSize scale c coords
                                        (App.unitCell s) in
  let s' := App.dispatch context2d tree (App.UnitCellChange dragged) s in
  ImagePane.corner c (App.unitCell s')
  = ImagePane.imageToNormalized arith (App.image s) canvasSize scale coords /\
  in_unit_square (ImagePane.corner c (App.unitCell s')) /\
  (forall c', c' <> c ->
              ImagePane.corner c' (App.unitCell s') = ImagePane.corner c' (App.unitCell s)).
Proof.
  intros Hreach dragged s'.
  pose proof (reachable_unitCell context2d tree s Hreach) as Hcell.
  assert (forall c', ImagePane.corner c' (App.unitCell s')
                     = ImagePane.corner c' dragged) as Hkeep.
  { intros c'. subst s'. rewrite dispatch_UnitCellChange. cbn.
    assert (in_unit_square (ImagePane.corner c' dragged)) as Hc'.
    { subst dragged. unfold ImagePane.dragUnitCell.
      pose proof (imageToNormalized_in_unit_square arith (App.image s) canvasSize scale coords)
        as Hn.
      destruct c, c'; cbn; first [exact Hn | apply (Hcell ImagePane.cornerA)
        | apply (Hcell ImagePane.cornerB) | apply (Hcell ImagePane.cornerC)
        | apply (Hcell ImagePane.cornerD)]. }
    destruct c'; cbn in *; apply clamp01_keeps; exact Hc'. }
  split; [rewrite Hkeep; subst dragged; destruct c; reflexivity|].
  split.
  { subst s'. rewrite dispatch_UnitCellChange. cbn.
    destruct c; apply clamp01_in_unit_square. }
  intros c' Hne. rewrite Hkeep. subst dragged. destruct c, c'; try reflexivity; congruence.
Qed.

(** The theorem on the example session, shown at half size: dragging
    corner A to the image point (-200, 900) stores it at (0, 1) and keeps
    corner D. *)
Lemma unit_cell_drag_witness :
  let dragged := ImagePane.dragUnitCell Arith.exact (App.image image_loaded) (Canvas.mk 500 300) 0.5
                   ImagePane.cornerA (Point.mk (-200) 900) (App.unitCell image_loaded) in
  let s' := App.dispatch true example_tree (App.UnitCellChange dragged) image_loaded in
  App.reachable true example_tree image_loaded /\
  in_unit_square (UnitCellState.A (App.unitCell s')) /\
  UnitCellState.A (App.unitCell s') = Point.mk 0 1 /\
  UnitCellState.D (App.unitCell s') = UnitCellState.D (App.unitCell image_loaded).
Proof.
  intros dragged s'.
  assert (App.reachable true example_tree image_loaded) as Hreach.
  { apply (reachable_dispatch_all true example_tree
             [App.FileLoaded "blob:wide" wide_image]). constructor. }
  destruct (unit_cell_drag Arith.exact true example_tree image_loaded (Canvas.mk 500 300) 0.5
              ImagePane.cornerA (Point.mk (-200) 900) Hreach) as (_ & Hin & Hother).
  split; [exact Hreach|]. split; [exact Hin|].
  split; [vm_compute; reflexivity|].
  apply (Hother ImagePane.cornerD). discriminate.
Defined.

(** ** Write-through of the drafts *)

Lemma draft_written_commit (tree : DecisionTree.t) (prev cur : App.State) :
  (forall key, App.answerSelected prev = Some key ->
     App.lookupDraft (App.draftStore prev) (App.currentNodeId prev) key
     = Some (App.proofState prev)) ->
  (App.selectedAnswerKey cur = None \/ App.draftStore cur = App.draftStore prev) ->
  forall key, App.answerSelected (App.commit tree prev cur) = Some key ->
    App.lookupDraft (App.draftStore (App.commit tree prev cur))
                    (App.currentNodeId (App.commit tree prev cur)) key
    = Some (App.proofState (App.commit tree prev cur)).
Proof.
  intros Hprev Hstore key. unfold App.commit, App.autoConfirmEffect. cbv zeta.
  set (b1 := bool_decide (App.autoConfirmDeps tree cur = App.autoConfirmDeps tree prev)).
  assert ((if b1 then cur
           else if App.autoConfirmDue tree cur then App.handleConfirmAnswer tree cur else cur)
          = cur \/
          exists node k answer,
            (if b1 then cur
             else if App.autoConfirmDue tree cur then App.handleConfirmAnswer tree cur
                  else cur) = confirmed cur node k answer) as [->|(node & k & answer & ->)].
  { destruct b1; [auto|]. destruct (App.autoConfirmDue tree cur); [|auto].
    destruct (handleConfirmAnswer_cases tree cur)
      as [E|(node & k & answer & _ & _ & _ & _ & _ & E)]; rewrite E; eauto. }
  - case_bool_decide as Hdeps.
    + intros Hk. unfold App.draftDeps in Hdeps. injection Hdeps as En Ep Es.
      destruct Hstore as [Hnone|Hsame].
      { apply answerSelected_Some in Hk as [Hk _]. congruence. }
      rewrite Hsame, En, Ep. apply Hprev.
      unfold App.answerSelected in *. rewrite <- Es. exact Hk.
    + rewrite answerSelected_draftEffect. intros Hk.
      unfold App.draftEffect. rewrite Hk. cbn.
      rewrite lookupDraft_write. rewrite decide_True by auto. reflexivity.
  - case_bool_decide.
    + intros Hk. apply answerSelected_Some in Hk as [Hk _]. discriminate.
    + rewrite answerSelected_draftEffect.
      intros Hk. apply answerSelected_Some in Hk as [Hk _]. discriminate.
Qed.

(** X11: write-through.  In every reachable state with a selected answer,
    whatever the decision tree, the draft stored for the current node and
    that answer is exactly the current proof state. *)
Theorem write_through (context2d : bool) (tree : DecisionTree.t) (s : App.State)
        (key : string) :
  App.reachable context2d tree s ->
  App.answerSelected s = Some key ->
  App.lookupDraft (App.draftStore s) (App.currentNodeId s) key = Some (App.proofState s).
Proof.
  intros Hreach. revert key. induction Hreach as [|e s Hreach IH].
  - discriminate.
  - unfold App.dispatch. apply draft_written_commit; [exact IH|apply handle_draftStore].
Qed.

(** The theorem on the example session: once the mirror axis is drawn,
    the draft of ([q1], yes) is the drawn proof. *)
Lemma write_through_witness :
  App.reachable true example_tree mirror_drawn /\
  App.answerSelected mirror_drawn = Some "yes" /\
  App.lookupDraft (App.draftStore mirror_drawn) (App.currentNodeId mirror_drawn) "yes"
  = Some (App.proofState mirror_drawn).
Proof.
  assert (App.reachable true example_tree mirror_drawn) as Hreach.
  { do 3 constructor. constructor. }
  assert (App.answerSelected mirror_drawn = Some "yes") as Hk by (vm_compute; reflexivity).
  split; [exact Hreach|]. split; [exact Hk|].
  exact (write_through true example_tree mirror_drawn "yes" Hreach Hk).
Defined.

(** ** Before the first upload *)

Lemma handle_image (context2d : bool) (tree : DecisionTree.t) (e : App.Event) (s : App.State) :
  (exists url img, e = App.FileLoaded url img) \/
  App.image (App.handle context2d tree e s) = App.image s.
Proof.
  destruct e; cbn [App.handle]; eauto.
  - unfold App.handleSelectAnswer. destruct (negb (App.imageReady s)); [auto|].
    destruct (App.currentNode tree s) as [[node|]|]; auto.
    destruct (App.findAnswer node answerKey); auto.
  - unfold App.handleResetProof.
    destruct (App.currentNode tree s) as [[node|]|]; auto.
    destruct (App.selectedAnswerKey s) as [key|]; auto.
    destruct (negb (Js.truthy_string key)); auto.
    destruct (App.findAnswer node key); auto.
  - destruct (handleConfirmAnswer_cases tree s)
      as [E|(node & key & answer & _ & _ & _ & _ & _ & E)]; rewrite E; auto.
  - unfold App.handleBack. destruct (App.pop (App.history s)) as [[front last]|]; auto.
Qed.

Lemma at_start_handle (context2d : bool) (tree : DecisionTree.t)
      (e : App.Event) (s : App.State) :
  App.imageReady (App.handle context2d tree e s) = false ->
  at_start tree s ->
  at_start tree (App.handle context2d tree e s).
Proof.
  intros Himg (En & Es & Eh & Ed & Et).
  destruct e; cbn [App.handle] in *.
  - discriminate.
  - repeat split.
  - repeat split; assumption.
  - assert (App.imageReady s = false) as Ei.
    { destruct (handle_image context2d tree (App.SelectAnswer answerKey) s)
        as [(url & img & E)|E]; [discriminate|].
      cbn [App.handle] in E. unfold App.imageReady in *. rewrite <- E. exact Himg. }
    unfold App.handleSelectAnswer. rewrite Ei. cbn. repeat split; assumption.
  - unfold App.handleResetProof. rewrite Es.
    destruct (App.currentNode tree s) as [[node|]|]; repeat split; assumption.
  - repeat split; assumption.
  - unfold App.handleConfirmAnswer. rewrite Es.
    destruct (App.currentNode tree s) as [[node|]|]; repeat split; assumption.
  - unfold App.handleBack. rewrite Eh. repeat split; assumption.
  - repeat split; try assumption. cbn. rewrite type_apply. exact Et.
Qed.

Lemma no_image_no_progress_aux (context2d : bool) (tree : DecisionTree.t) (s : App.State) :
  App.reachable context2d tree s ->
  App.imageReady s = false ->
  at_start tree s.
Proof.
  induction 1 as [|e s Hreach IH]; intros Himg.
  - repeat split.
  - unfold App.dispatch in *.
    assert (App.imageReady (App.handle context2d tree e s) = false) as Himg'.
    { unfold App.imageReady in *.
      destruct (commit_frame tree s (App.handle context2d tree e s)) as [<- _]. exact Himg. }
    assert (at_start tree (App.handle context2d tree e s)) as Hcur.
    { apply at_start_handle; [exact Himg'|]. apply IH.
      destruct (handle_image context2d tree e s) as [(url & img & ->)|E].
      - discriminate.
      - unfold App.imageReady in *. rewrite <- E. exact Himg'. }
    rewrite commit_no_selection; [exact Hcur | apply Hcur].
Qed.


(** X12: until an image is loaded the session stays on its first screen:
    in every reachable state without an image the current node is the
    start node, no answer is selected, the history and the draft store
    are empty and the proof type is [none]; and no event other than an
    upload loads an image or leaves that screen. *)
Theorem no_image_no_progress (context2d : bool) (tree : DecisionTree.t) (s : App.State) :
  App.reachable context2d tree s ->
  App.imageReady s = false ->
  at_start tree s /\
  forall e, (forall url img, e <> App.FileLoaded url img) ->
            App.imageReady (App.dispatch context2d tree e s) = false /\
            at_start tree (App.dispatch context2d tree e s).
Proof.
  intros Hreach Himg. split; [apply (no_image_no_progress_aux context2d); assumption|].
  intros e He.
  assert (App.imageReady (App.dispatch context2d tree e s) = false) as Himg'.
  { unfold App.dispatch, App.imageReady in *.
    destruct (commit_frame tree s (App.handle context2d tree e s)) as [-> _].
    destruct (handle_image context2d tree e s) as [(url & img & ->)| ->].
    - destruct (He url img). reflexivity.
    - exact Himg. }
  split; [exact Himg'|].
  apply (no_image_no_progress_aux context2d); [constructor; exact Hreach | exact Himg'].
Qed.

(** The theorem on the example tree: before any upload, selecting "yes",
    resizing the patch and confirming leave the session at its start. *)
Lemma no_image_no_progress_witness :
  let s := App.dispatch_all true example_tree
             [App.SelectAnswer "yes"; App.ProofOp (Proof.PatchSizeChange 100);
              App.ConfirmAnswer]
             (App.initialState example_tree) in
  App.imageReady s = false /\ at_start example_tree s.
Proof.
  intros s.
  assert (App.imageReady s = false) as Himg by (vm_compute; reflexivity).
  split; [exact Himg|].
  assert (App.reachable true example_tree s) as Hreach
    by (apply reachable_dispatch_all; constructor).
  exact (proj1 (no_image_no_progress true example_tree s Hreach Himg)).
Defined.

(** ** The selected answer *)

(** X13: in every reachable state with a selected answer, an image is
    loaded, the current node is a question that has the answer, and the
    proof state has the type the answer resolves to, which is never
    [none]: an answer that needs no proof does not stay selected. *)
Theorem selection_valid (context2d : bool) (tree : DecisionTree.t) (s : App.State)
        (key : string) :
  wf_tree tree ->
  App.reachable context2d tree s ->
  App.answerSelected s = Some key ->
  App.imageReady s = true /\
  exists node answer,
    App.currentNode tree s = Some (question node) /\
    App.findAnswer node key = Some answer /\
    ProofState.type (App.proofState s) = fst (App.resolveProofRequirements node (Some answer)) /\
    ProofState.type (App.proofState s) <> PTnone.
Proof.
  intros Hwf Hreach Hk.
  destruct (reachable_invariant context2d tree s Hwf Hreach) as [Hinv Hset].
  split.
  - destruct (App.imageReady s) eqn:Himg; [reflexivity|].
    destruct (no_image_no_progress_aux context2d tree s Hreach Himg) as (_ & Es & _).
    apply answerSelected_Some in Hk as [Hk _]. congruence.
  - destruct (inv_selected _ _ Hinv key Hk) as [(node & answer & Hn & Ha) [_ Htype]].
    exists node, answer. split; [exact Hn|]. split; [exact Ha|].
    split; [apply Htype; assumption|].
    intros Hnone. pose proof (settled_idle _ _ Hset) as Hidle.
    rewrite (autoConfirmDue_intro tree s key node Hk Hn Hnone) in Hidle. discriminate.
Qed.

(** The theorem on the example session: with the mirror axis drawn for
    "yes" at [q1], the proof is a mirror proof. *)
Lemma selection_valid_witness :
  App.answerSelected mirror_drawn = Some "yes" /\
  App.imageReady mirror_drawn = true /\
  ProofState.type (App.proofState mirror_drawn) <> PTnone.
Proof.
  assert (App.reachable true example_tree mirror_drawn) as Hreach.
  { do 3 constructor. constructor. }
  assert (App.answerSelected mirror_drawn = Some "yes") as Hk by (vm_compute; reflexivity).
  destruct (selection_valid true example_tree mirror_drawn "yes" wf_example_tree Hreach Hk)
    as (Himg & node & answer & _ & _ & _ & Hne).
  split; [exact Hk|]. split; [exact Himg | exact Hne].
Defined.

(** ** The history is a path of the tree *)

Lemma path_snoc (tree : DecisionTree.t) (from mid to : string)
      (front : list HistoryEntry.t) (e : HistoryEntry.t)
      (key : string) (node : Question.t) (answer : Answer.t) :
  path tree from front mid ->
  HistoryEntry.nodeId e = mid ->
  HistoryEntry.selectedAnswerKey e = Some key ->
  DecisionTree.nodes tree !! mid = Some (question node) ->
  App.findAnswer node key = Some answer ->
  Answer.next answer = to ->
  path tree from (front ++ [e]) to.
Proof.
  revert from. induction front as [|e0 rest IH]; intros from Hp Hn Hk Hq Ha Ht; cbn in *.
  - subst from. split; [exact Hn|]. exists key, node, answer. auto.
  - destruct Hp as (Hn0 & key0 & node0 & answer0 & Hk0 & Hq0 & Ha0 & Hrest).
    split; [exact Hn0|]. exists key0, node0, answer0.
    split; [exact Hk0|]. split; [exact Hq0|]. split; [exact Ha0|].
    apply IH; assumption.
Qed.

Lemma path_snoc_inv (tree : DecisionTree.t) (from to : string)
      (front : list HistoryEntry.t) (e : HistoryEntry.t) :
  path tree from (front ++ [e]) to ->
  path tree from front (HistoryEntry.nodeId e) /\
  exists key node answer,
    HistoryEntry.selectedAnswerKey e = Some key /\
    DecisionTree.nodes tree !! HistoryEntry.nodeId e = Some (question node) /\
    App.findAnswer node key = Some answer /\
    Answer.next answer = to.
Proof.
  revert from. induction front as [|e0 rest IH]; intros from Hp; cbn in *.
  - destruct Hp as (Hn & key & node & answer & Hk & Hq & Ha & Ht).
    split; [auto|]. exists key, node, answer. rewrite Hn. auto.
  - destruct Hp as (Hn0 & key0 & node0 & answer0 & Hk0 & Hq0 & Ha0 & Hrest).
    destruct (IH _ Hrest) as [Hfront Hlast].
    split; [|exact Hlast].
    split; [exact Hn0|]. exists key0, node0, answer0. auto.
Qed.

Lemma path_confirmed (tree : DecisionTree.t) (s : App.State)
      (node : Question.t) (key : string) (answer : Answer.t) :
  wf_tree tree ->
  path tree (DecisionTree.start tree) (App.history s) (App.currentNodeId s) ->
  App.currentNode tree s = Some (question node) ->
  App.findAnswer node key = Some answer ->
  path tree (DecisionTree.start tree)
       (App.history (confirmed s node key answer))
       (App.currentNodeId (confirmed s node key answer)).
Proof.
  intros Hwf Hp En Ea. cbn. eapply path_snoc; eauto.
Qed.

Lemma path_handleConfirmAnswer (tree : DecisionTree.t) (s : App.State) :
  wf_tree tree ->
  path tree (DecisionTree.start tree) (App.history s) (App.currentNodeId s) ->
  path tree (DecisionTree.start tree)
       (App.history (App.handleConfirmAnswer tree s))
       (App.currentNodeId (App.handleConfirmAnswer tree s)).
Proof.
  intros Hwf Hp.
  destruct (handleConfirmAnswer_cases tree s)
    as [E|(node & key & answer & En & Ek & Et & _ & Ea & E)]; rewrite E; [exact Hp|].
  apply path_confirmed; assumption.
Qed.

Lemma path_handle (context2d : bool) (tree : DecisionTree.t) (e : App.Event) (s : App.State) :
  wf_tree tree ->
  path tree (DecisionTree.start tree) (App.history s) (App.currentNodeId s) ->
  path tree (DecisionTree.start tree)
       (App.history (App.handle context2d tree e s))
       (App.currentNodeId (App.handle context2d tree e s)).
Proof.
  intros Hwf Hp. destruct e; cbn [App.handle]; try exact Hp; try reflexivity.
  - unfold App.handleSelectAnswer. destruct (negb (App.imageReady s)); [exact Hp|].
    destruct (App.currentNode tree s) as [[node|]|]; try exact Hp.
    destruct (App.findAnswer node answerKey); exact Hp.
  - unfold App.handleResetProof.
    destruct (App.currentNode tree s) as [[node|]|]; try exact Hp.
    destruct (App.selectedAnswerKey s) as [key|]; [|exact Hp].
    destruct (negb (Js.truthy_string key)); [exact Hp|].
    destruct (App.findAnswer node key); exact Hp.
  - apply path_handleConfirmAnswer; assumption.
  - unfold App.handleBack.
    destruct (App.pop (App.history s)) as [[front last]|] eqn:Epop; [|exact Hp].
    apply pop_Some in Epop. rewrite Epop in Hp.
    apply path_snoc_inv in Hp as [Hfront _]. exact Hfront.
Qed.

Lemma path_commit (tree : DecisionTree.t) (prev cur : App.State) :
  wf_tree tree ->
  path tree (DecisionTree.start tree) (App.history cur) (App.currentNodeId cur) ->
  path tree (DecisionTree.start tree)
       (App.history (App.commit tree prev cur))
       (App.currentNodeId (App.commit tree prev cur)).
Proof.
  intros Hwf Hp.
  destruct (commit_cases tree prev cur)
    as [[E|E]|(node & key & answer & En & Ek & Et & Ea & _ & [E|E])]; rewrite E.
  - exact Hp.
  - destruct (draftEffect_frame cur cur) as (-> & _ & _ & -> & _). exact Hp.
  - apply path_confirmed; assumption.
  - destruct (draftEffect_frame cur (confirmed cur node key answer))
      as (-> & _ & _ & -> & _).
    apply path_confirmed; assumption.
Qed.

Lemma reachable_path (context2d : bool) (tree : DecisionTree.t) (s : App.State) :
  wf_tree tree ->
  App.reachable context2d tree s ->
  path tree (DecisionTree.start tree) (App.history s) (App.currentNodeId s).
Proof.
  intros Hwf. induction 1 as [|e s Hreach IH]; [reflexivity|].
  unfold App.dispatch. apply path_commit, path_handle; assumption.
Qed.

(** X14: in every reachable state the history is a path of the decision
    tree from the start node to the current node: each entry records an
    answer of the question it names, that answer leads to the node of the
    next entry, and the answer of the last entry leads to the current
    node.  So going back always returns to the question whose answer led
    to the current node. *)
Theorem history_is_path (context2d : bool) (tree : DecisionTree.t) (s : App.State) :
  wf_tree tree ->
  App.reachable context2d tree s ->
  path tree (DecisionTree.start tree) (App.history s) (App.currentNodeId s) /\
  (forall front last,
      App.history s = front ++ [last] ->
      App.currentNodeId (App.handleBack tree s) = HistoryEntry.nodeId last /\
      exists key node answer,
        HistoryEntry.selectedAnswerKey last = Some key /\
        App.currentNode tree (App.handleBack tree s) = Some (question node) /\
        App.findAnswer node key = Some answer /\
        Answer.next answer = App.currentNodeId s).
Proof.
  intros Hwf Hreach.
  pose proof (reachable_path context2d tree s Hwf Hreach) as Hp.
  split; [exact Hp|].
  intros front last Hh. rewrite Hh in Hp.
  apply path_snoc_inv in Hp as (_ & key & node & answer & Hk & Hn & Ha & Ht).
  assert (App.currentNodeId (App.handleBack tree s) = HistoryEntry.nodeId last) as Eb.
  { unfold App.handleBack. rewrite Hh, pop_app. reflexivity. }
  split; [exact Eb|]. exists key, node, answer.
  unfold App.currentNode. rewrite Eb. auto.
Qed.

(** The theorem on the example session: after the drawn mirror is
    confirmed the history is the one step ([q1], yes) and leads to [q2]. *)
Lemma history_is_path_witness :
  let s := App.dispatch true example_tree App.ConfirmAnswer mirror_drawn in
  App.reachable true example_tree s /\
  App.history s = [HistoryEntry.mk "q1" (Some "yes")] /\
  path example_tree "q1" (App.history s) (App.currentNodeId s).
Proof.
  intros s.
  assert (App.reachable true example_tree s) as Hreach.
  { do 4 constructor. constructor. }
  split; [exact Hreach|]. split; [vm_compute; reflexivity|].
  exact (proj1 (history_is_path true example_tree s wf_example_tree Hreach)).
Defined.
(** ** Back over an answer that needs no proof *)

Lemma selected_facts (context2d : bool) (tree : DecisionTree.t) (s : App.State)
      (key : string) :
  wf_tree tree ->
  App.reachable context2d tree s ->
  App.answerSelected s = Some key ->
  App.imageReady s = true /\
  App.selectedAnswerKey s = Some key /\
  App.lookupDraft (App.draftStore s) (App.currentNodeId s) key = Some (App.proofState s) /\
  exists node answer,
    App.currentNode tree s = Some (question node) /\
    App.findAnswer node key = Some answer /\
    ProofState.type (App.proofState s) = fst (App.resolveProofRequirements node (Some answer)) /\
    ProofState.type (App.proofState s) <> PTnone.
Proof.
  intros Hwf Hreach Hk.
  destruct (reachable_invariant context2d tree s Hwf Hreach) as [Hinv Hset].
  split.
  { destruct (App.imageReady s) eqn:Himg; [reflexivity|].
    destruct (no_image_no_progress_aux context2d tree s Hreach Himg) as (_ & Es & _).
    apply answerSelected_Some in Hk as [Hk _]. congruence. }
  split; [apply answerSelected_Some in Hk as [Hk _]; exact Hk|].
  split; [apply (settled_draft _ _ Hset); exact Hk|].
  destruct (inv_selected _ _ Hinv key Hk) as [(node & answer & Hn & Ha) [_ Htype]].
  exists node, answer. split; [exact Hn|]. split; [exact Ha|].
  split; [apply Htype; assumption|].
  intros Hnone. pose proof (settled_idle _ _ Hset) as Hidle.
  rewrite (autoConfirmDue_intro tree s key node Hk Hn Hnone) in Hidle. discriminate.
Qed.

(** What the effects leave of the history: that of the render, or that of
    the render with the answer of the render confirmed. *)
Lemma commit_history (tree : DecisionTree.t) (prev cur : App.State) :
  (App.history (App.commit tree prev cur) = App.history cur /\
   App.currentNodeId (App.commit tree prev cur) = App.currentNodeId cur) \/
  exists node key answer,
    App.currentNode tree cur = Some (question node) /\
    App.selectedAnswerKey cur = Some key /\
    App.findAnswer node key = Some answer /\
    App.currentNodeId (App.commit tree prev cur) = Answer.next answer /\
    App.history (App.commit tree prev cur)
    = App.history cur ++ [HistoryEntry.mk (Question.id node) (Some key)].
Proof.
  destruct (commit_cases tree prev cur)
    as [[E|E]|(node & key & answer & En & Ek & Et & Ea & _ & [E|E])]; rewrite E.
  - left. split; reflexivity.
  - left. destruct (draftEffect_frame cur cur) as (-> & _ & _ & -> & _). split; reflexivity.
  - right. exists node, key, answer. cbn. auto.
  - right. exists node, key, answer.
    destruct (draftEffect_frame cur (confirmed cur node key answer))
      as (-> & _ & _ & -> & _).
    cbn. auto.
Qed.

(** X15: the Back button cannot cross an answer that needs no proof.
    When the last answer of the history resolves to the proof type
    [none], going back restores that answer as selected with a proof of
    type [none], the auto-confirm effect confirms it again at once, and
    the session is where it was: same node, same history, no answer
    selected. *)
Theorem back_over_unproved_answer (context2d : bool) (tree : DecisionTree.t)
        (s : App.State) (front : list HistoryEntry.t) (last : HistoryEntry.t)
        (key : string) (node : Question.t) (answer : Answer.t) :
  wf_tree tree ->
  App.reachable context2d tree s ->
  App.history s = front ++ [last] ->
  HistoryEntry.selectedAnswerKey last = Some key ->
  DecisionTree.nodes tree !! HistoryEntry.nodeId last = Some (question node) ->
  App.findAnswer node key = Some answer ->
  fst (App.resolveProofRequirements node (Some answer)) = PTnone ->
  let s' := App.dispatch context2d tree App.Back s in
  App.currentNodeId (App.handleBack tree s) = HistoryEntry.nodeId last /\
  App.currentNodeId s' = App.currentNodeId s /\
  App.history s' = App.history s /\
  App.selectedAnswerKey s' = None /\
  App.proofState s' = Proof.createProofState PTnone None /\
  App.image s' = App.image s /\
  App.unitCell s' = App.unitCell s.
Proof.
  intros Hwf Hreach Hh Hk Hn Ha Hnone s'.
  destruct (reachable_invariant context2d tree s Hwf Hreach) as [Hinv Hset].
  pose proof (reachable_path context2d tree s Hwf Hreach) as Hp.
  rewrite Hh in Hp. apply path_snoc_inv in Hp as (_ & key0 & node0 & answer0 & Hk0 & Hn0 & Ha0 & Ht0).
  assert (key0 = key) as -> by congruence.
  assert (node0 = node) as -> by congruence.
  assert (answer0 = answer) as -> by congruence.
  assert (Js.truthy_string key = true) as Ht.
  { pose proof (inv_history _ _ Hinv) as Hall. rewrite Hh in Hall.
    apply Forall_app in Hall as [_ Hall]. apply Forall_inv in Hall.
    destruct Hall as (k & Ek & Et & _). congruence. }
  destruct last as [nodeId lastKey]. cbn in Hk, Hn. subst lastKey.
  pose proof (handleBack_restore tree s front nodeId key node Hh Hn Ht) as Eb.
  set (cur := App.handleBack tree s) in *.
  assert (ProofState.type (App.proofState cur) = PTnone) as Htype.
  { rewrite Eb. cbn.
    destruct (App.lookupDraft (App.draftStore s) nodeId key) as [d|] eqn:Ed.
    - destruct (inv_drafts _ _ Hinv nodeId key d Ed) as [_ Hd].
      rewrite (Hd node answer Hn Ha). exact Hnone.
    - rewrite Ha, type_createProofState. exact Hnone. }
  assert (App.answerSelected cur = Some key) as Hsel.
  { apply answerSelected_Some. rewrite Eb. cbn. auto. }
  assert (App.currentNode tree cur = Some (question node)) as Hcn.
  { unfold App.currentNode. rewrite Eb. cbn. exact Hn. }
  assert (invariant tree cur) as Hinvc.
  { apply (invariant_handle context2d tree App.Back s Hwf Hinv). }
  pose proof (autoConfirmDue_intro tree cur key node Hsel Hcn Htype) as Hdue.
  pose proof (commit_first_effect tree s cur Hinvc (settled_idle _ _ Hset)) as Hfirst.
  cbv zeta in Hfirst.
  assert (s' = App.commit tree s cur) as Es' by reflexivity.
  unfold App.commit in Es'.
  destruct Hfirst as [[Hno _]|(node' & key' & answer' & Hsel' & Hcn' & Ha' & E1)];
    [congruence|].
  assert (key' = key) as -> by congruence.
  assert (node' = node) as -> by congruence.
  assert (answer' = answer) as -> by congruence.
  rewrite E1 in Es'.
  assert (front ++ [HistoryEntry.mk (Question.id node) (Some key)] = App.history s) as Ehist.
  { rewrite Hh, (Hwf nodeId node Hn). reflexivity. }
  assert (App.history cur = front) as Ehc by (rewrite Eb; reflexivity).
  assert (App.image cur = App.image s) as Eic by (rewrite Eb; reflexivity).
  assert (App.unitCell cur = App.unitCell s) as Euc by (rewrite Eb; reflexivity).
  split; [rewrite Eb; reflexivity|].
  destruct (bool_decide (App.draftDeps cur = App.draftDeps s)); rewrite Es'.
  - cbn. rewrite Ehc, Eic, Euc. auto 10.
  - destruct (draftEffect_frame cur (confirmed cur node key answer))
      as (-> & -> & -> & -> & -> & ->).
    cbn. rewrite Ehc, Eic, Euc. auto 10.
Qed.

(** The theorem on the example session: "no" at [q1] needs no proof, so
    the session is at [q3] as soon as it is chosen, and Back leaves it
    there. *)
Lemma back_over_unproved_answer_witness :
  let s := App.dispatch true example_tree (App.SelectAnswer "no") image_loaded in
  let s' := App.dispatch true example_tree App.Back s in
  App.history s = [HistoryEntry.mk "q1" (Some "no")] /\
  App.currentNodeId s = "q3" /\
  App.currentNodeId s' = "q3" /\
  App.history s' = App.history s.
Proof.
  intros s s'.
  assert (App.reachable true example_tree s) as Hreach.
  { do 2 constructor. constructor. }
  assert (App.history s = [] ++ [HistoryEntry.mk "q1" (Some "no")]) as Hh
      by (vm_compute; reflexivity).
  assert (App.currentNodeId s = "q3") as Hc by (vm_compute; reflexivity).
  assert (App.findAnswer q1 "no" = Some (Answer.mk "no" "No" "q3" None None)) as Ha
      by (vm_compute; reflexivity).
  destruct (back_over_unproved_answer true example_tree s []
              (HistoryEntry.mk "q1" (Some "no")) "no" q1
              (Answer.mk "no" "No" "q3" None None)
              wf_example_tree Hreach Hh eq_refl eq_refl Ha eq_refl)
    as (_ & Hn & Hhist & _).
  split; [exact Hh|]. split; [exact Hc|]. split; [|exact Hhist].
  fold s' in Hn. rewrite Hn. exact Hc.
Defined.
(** ** Changing the answer, resetting the proof *)

Lemma handleSelectAnswer_go (tree : DecisionTree.t) (s : App.State) (key : string)
      (node : Question.t) (answer : Answer.t) :
  App.imageReady s = true ->
  App.currentNode tree s = Some (question node) ->
  App.findAnswer node key = Some answer ->
  App.handleSelectAnswer tree key s
  = App.mkState (App.image s) (App.currentNodeId s) (Some key)
      (default (Proof.createProofState
                  (fst (App.resolveProofRequirements node (Some answer)))
                  (snd (App.resolveProofRequirements node (Some answer))))
               (App.lookupDraft (App.draftStore s) (App.currentNodeId s) key))
      (App.history s) (App.draftStore s) (App.unitCell s).
Proof.
  intros Himg Hn Ha. unfold App.handleSelectAnswer.
  rewrite Himg, Hn, Ha. reflexivity.
Qed.

(** X16: changing one's mind loses nothing.  "Change my answer" clears the
    selection and shows an empty proof, but the draft stays in the store:
    choosing the same answer again brings the session back to the very
    state it was in, proof, buffers and draft store included. *)
Theorem change_answer_round_trip (context2d : bool) (tree : DecisionTree.t)
        (s : App.State) (key : string) :
  wf_tree tree ->
  App.reachable context2d tree s ->
  App.answerSelected s = Some key ->
  let s1 := App.dispatch context2d tree App.ChangeAnswer s in
  App.selectedAnswerKey s1 = None /\
  App.proofState s1 = Proof.createProofState PTnone None /\
  App.dispatch context2d tree (App.SelectAnswer key) s1 = s.
Proof.
  intros Hwf Hreach Hk s1.
  destruct (selected_facts context2d tree s key Hwf Hreach Hk)
    as (Himg & Hsel & Hdraft & node & answer & Hn & Ha & _ & Hne).
  destruct (reachable_invariant context2d tree s Hwf Hreach) as [_ Hset].
  assert (s1 = App.handleChangeAnswer s) as E1.
  { apply commit_no_selection. reflexivity. }
  split; [rewrite E1; reflexivity|]. split; [rewrite E1; reflexivity|].
  assert (App.handleSelectAnswer tree key s1 = s) as Ecur.
  { rewrite (handleSelectAnswer_go tree s1 key node answer);
      [|rewrite E1; exact Himg|rewrite E1; exact Hn|exact Ha].
    rewrite E1. cbn [App.handleChangeAnswer App.image App.currentNodeId App.history
                     App.draftStore App.unitCell].
    rewrite Hdraft. cbn [default]. rewrite <- Hsel. destruct s; reflexivity. }
  unfold App.dispatch. cbn [App.handle]. rewrite Ecur.
  unfold App.commit, App.autoConfirmEffect.
  rewrite (settled_idle _ _ Hset).
  destruct (bool_decide _); destruct (bool_decide _); try reflexivity;
    apply (draftEffect_redundant s key Hk Hdraft).
Qed.

(** The theorem on the example session with the mirror axis drawn. *)
Lemma change_answer_round_trip_witness :
  let s1 := App.dispatch true example_tree App.ChangeAnswer mirror_drawn in
  App.answerSelected mirror_drawn = Some "yes" /\
  App.dispatch true example_tree (App.SelectAnswer "yes") s1 = mirror_drawn.
Proof.
  intros s1.
  assert (App.reachable true example_tree mirror_drawn) as Hreach.
  { do 3 constructor. constructor. }
  assert (App.answerSelected mirror_drawn = Some "yes") as Hk by (vm_compute; reflexivity).
  split; [exact Hk|].
  exact (proj2 (proj2 (change_answer_round_trip true example_tree mirror_drawn "yes"
                         wf_example_tree Hreach Hk))).
Defined.



(** ** Uploading an image and restarting *)

(** X18: uploading another image does not clear the draft store (Restart
    does).  The session returns to the start node with the new image,
    but a draft stored for an answer of the start question comes back as
    it was, with the buffers sampled from the image it was made on, when
    that answer is chosen again. *)
Theorem upload_keeps_drafts (context2d : bool) (tree : DecisionTree.t)
        (s : App.State) (url : string) (img : HTMLImageElement) :
  let s1 := App.dispatch context2d tree (App.FileLoaded url img) s in
  ImageState.element (App.image s1) = Some img /\
  App.currentNodeId s1 = DecisionTree.start tree /\
  App.selectedAnswerKey s1 = None /\
  App.history s1 = [] /\
  App.draftStore s1 = App.draftStore s /\
  (forall key node answer d,
      DecisionTree.nodes tree !! DecisionTree.start tree = Some (question node) ->
      App.findAnswer node key = Some answer ->
      App.lookupDraft (App.draftStore s) (DecisionTree.start tree) key = Some d ->
      ProofState.type d <> PTnone ->
      App.proofState (App.dispatch context2d tree (App.SelectAnswer key) s1) = d).
Proof.
  intros s1.
  assert (s1 = App.handleFileLoaded tree url img s) as E1.
  { apply commit_no_selection. reflexivity. }
  rewrite E1. cbn [App.handleFileLoaded App.image App.currentNodeId App.selectedAnswerKey
                    App.history App.draftStore ImageState.element].
  do 5 (split; [reflexivity|]).
  intros key node answer d Hn Ha Hd Hne.
  unfold App.dispatch. cbn [App.handle].
  rewrite (handleSelectAnswer_go tree _ key node answer); [|reflexivity|exact Hn|exact Ha].
  cbn [App.handleFileLoaded App.image App.currentNodeId App.selectedAnswerKey
       App.history App.draftStore App.unitCell].
  rewrite Hd. cbn [default].
  match goal with |- App.proofState (App.commit _ ?p ?c) = _ =>
    destruct (commit_idle_frame tree p c) as (_ & _ & -> & _); [|reflexivity]
  end.
  apply autoConfirmDue_type. exact Hne.
Qed.

(** The theorem on the example session: the mirror proof drawn on the
    1000 x 600 image is shown again after the 10 x 10 image is loaded. *)
Lemma upload_keeps_drafts_witness :
  let s1 := App.dispatch true example_tree (App.FileLoaded "blob:tiny" tiny_image)
                         mirror_drawn in
  ImageState.element (App.image s1) = Some tiny_image /\
  App.proofState (App.dispatch true example_tree (App.SelectAnswer "yes") s1)
  = App.proofState mirror_drawn.
Proof.
  intros s1.
  assert (App.findAnswer q1 "yes" = Some (Answer.mk "yes" "Yes" "q2" (Some PTmirror) None))
    as Ha by (vm_compute; reflexivity).
  assert (App.lookupDraft (App.draftStore mirror_drawn) "q1" "yes"
          = Some (App.proofState mirror_drawn)) as Hd by (vm_compute; reflexivity).
  assert (ProofState.type (App.proofState mirror_drawn) <> PTnone) as Hne
      by (vm_compute; discriminate).
  destruct (upload_keeps_drafts true example_tree mirror_drawn "blob:tiny" tiny_image)
    as (Hi & _ & _ & _ & _ & Hsel).
  split; [exact Hi|].
  exact (Hsel "yes" q1 _ _ eq_refl Ha Hd Hne).
Defined.

(** X19: Restart empties the draft store.  After it the session is the
    initial one but for the image, and an answer of the start question
    that needs a proof gets the fresh proof of its type, whatever had
    been stored before. *)
Theorem restart_drops_drafts (context2d : bool) (tree : DecisionTree.t)
        (s : App.State) :
  let s1 := App.dispatch context2d tree App.Restart s in
  s1 = App.mkState (App.image s) (DecisionTree.start tree) None
                   (Proof.createProofState PTnone None) [] ∅ App.defaultUnitCell /\
  (App.image s = App.initialImageState -> s1 = App.initialState tree) /\
  (forall key node answer,
      App.imageReady s = true ->
      DecisionTree.nodes tree !! DecisionTree.start tree = Some (question node) ->
      App.findAnswer node key = Some answer ->
      fst (App.resolveProofRequirements node (Some answer)) <> PTnone ->
      App.proofState (App.dispatch context2d tree (App.SelectAnswer key) s1)
      = Proof.createProofState (fst (App.resolveProofRequirements node (Some answer)))
                               (snd (App.resolveProofRequirements node (Some answer)))).
Proof.
  intros s1.
  assert (s1 = App.handleRestart tree s) as E1.
  { apply commit_no_selection. reflexivity. }
  rewrite E1. split; [reflexivity|]. split.
  { intros Ei. unfold App.handleRestart, App.initialState. rewrite Ei. reflexivity. }
  intros key node answer Himg Hn Ha Hne.
  unfold App.dispatch. cbn [App.handle].
  rewrite (handleSelectAnswer_go tree _ key node answer); [|exact Himg|exact Hn|exact Ha].
  cbn [App.handleRestart App.image App.currentNodeId App.selectedAnswerKey
       App.history App.draftStore App.unitCell].
  rewrite lookupDraft_empty. cbn [default].
  match goal with |- App.proofState (App.commit _ ?p ?c) = _ =>
    destruct (commit_idle_frame tree p c) as (_ & _ & -> & _); [|reflexivity]
  end.
  apply autoConfirmDue_type. cbn. rewrite type_createProofState. exact Hne.
Qed.
(** The theorem on the example session: after Restart the answer "yes"
    at [q1] gets a fresh mirror proof, not the drawn one. *)
Lemma restart_drops_drafts_witness :
  let s1 := App.dispatch true example_tree App.Restart mirror_drawn in
  App.imageReady mirror_drawn = true /\
  App.proofState (App.dispatch true example_tree (App.SelectAnswer "yes") s1)
  = Proof.createProofState PTmirror None.
Proof.
  intros s1.
  assert (App.imageReady mirror_drawn = true) as Himg by (vm_compute; reflexivity).
  assert (App.findAnswer q1 "yes" = Some (Answer.mk "yes" "Yes" "q2" (Some PTmirror) None))
    as Ha by (vm_compute; reflexivity).
  split; [exact Himg|].
  destruct (restart_drops_drafts true example_tree mirror_drawn) as (_ & _ & Hsel).
  refine (Hsel "yes" q1 _ Himg eq_refl Ha _). cbn. discriminate.
Defined.

(** ** One step per event *)

Lemma history_step_same (tree : DecisionTree.t) (s cur : App.State) :
  wf_tree tree ->
  App.history cur = App.history s ->
  App.currentNodeId cur = App.currentNodeId s ->
  let s' := App.commit tree s cur in
  App.history s' = App.history s \/
  exists key,
    valid_choice tree (App.currentNodeId s) key /\
    App.history s' = App.history s ++ [HistoryEntry.mk (App.currentNodeId s) (Some key)].
Proof.
  intros Hwf Eh Ec s'.
  destruct (commit_history tree s cur)
    as [[E _]|(node & key & answer & Hn & Hk & Ha & _ & E)].
  - left. unfold s'. congruence.
  - right. exists key. unfold App.currentNode in Hn. rewrite Ec in Hn. split.
    + exists node, answer. auto.
    + unfold s'. rewrite E, Eh, (Hwf _ _ Hn). reflexivity.
Qed.

(** X20: no event moves the session by more than one question.  After an
    event and its effects the history is the old one, or the old one with
    one answer of the current question added, or the old one without its
    last entry, or empty (upload and Restart). *)
Theorem history_step (context2d : bool) (tree : DecisionTree.t)
        (e : App.Event) (s : App.State) :
  wf_tree tree ->
  let s' := App.dispatch context2d tree e s in
  App.history s' = App.history s \/
  (exists key,
      valid_choice tree (App.currentNodeId s) key /\
      App.history s' = App.history s ++ [HistoryEntry.mk (App.currentNodeId s) (Some key)]) \/
  (exists last, App.history s = App.history s' ++ [last]) \/
  App.history s' = [].
Proof.
  intros Hwf s'.
  assert (forall cur,
             App.handle context2d tree e s = cur ->
             App.history cur = App.history s ->
             App.currentNodeId cur = App.currentNodeId s ->
             App.history s' = App.history s \/
             (exists key,
                 valid_choice tree (App.currentNodeId s) key /\
                 App.history s'
                 = App.history s ++ [HistoryEntry.mk (App.currentNodeId s) (Some key)]) \/
             (exists last, App.history s = App.history s' ++ [last]) \/
             App.history s' = []) as Hsame.
  { intros cur Ecur Eh Ec. unfold s', App.dispatch. rewrite Ecur.
    destruct (history_step_same tree s cur Hwf Eh Ec) as [H|H]; auto. }
  destruct e.
  - right. right. right. unfold s', App.dispatch. cbn [App.handle].
    rewrite commit_no_selection; reflexivity.
  - right. right. right. unfold s', App.dispatch. cbn [App.handle].
    rewrite commit_no_selection; reflexivity.
  - eapply Hsame; reflexivity.
  - eapply Hsame; [reflexivity| |]; cbn [App.handle]; unfold App.handleSelectAnswer;
      destruct (negb (App.imageReady s)); try reflexivity;
      destruct (App.currentNode tree s) as [[node|]|]; try reflexivity;
      destruct (App.findAnswer node answerKey); reflexivity.
  - eapply Hsame; [reflexivity| |]; cbn [App.handle]; unfold App.handleResetProof;
      destruct (App.currentNode tree s) as [[node|]|]; try reflexivity;
      destruct (App.selectedAnswerKey s) as [key|]; try reflexivity;
      destruct (negb (Js.truthy_string key)); try reflexivity;
      destruct (App.findAnswer node key); reflexivity.
  - eapply Hsame; reflexivity.
  - unfold s'. rewrite dispatch_ConfirmAnswer.
    destruct (handleConfirmAnswer_cases tree s)
      as [E|(node & key & answer & Hn & Hk & _ & _ & Ha & E)]; rewrite E; [auto|].
    right. left. exists key. unfold App.currentNode in Hn. split.
    + exists node, answer. auto.
    + cbn. rewrite (Hwf _ _ Hn). reflexivity.
  - destruct (App.pop (App.history s)) as [[front last]|] eqn:Epop.
    + apply pop_Some in Epop.
      assert (App.handleBack tree s
              = App.mkState (App.image s) (HistoryEntry.nodeId last)
                  (HistoryEntry.selectedAnswerKey last)
                  (App.proofState (App.handleBack tree s))
                  front (App.draftStore s) (App.unitCell s)) as Eb.
      { unfold App.handleBack. rewrite Epop, pop_app. reflexivity. }
      unfold s', App.dispatch. cbn [App.handle].
      destruct (commit_history tree s (App.handleBack tree s))
        as [[E _]|(node & key & answer & Hn & Hk & Ha & _ & E)]; rewrite E.
      * right. right. left. exists last. rewrite Eb. exact Epop.
      * left. unfold App.currentNode in Hn. rewrite Eb in Hn, Hk |- *.
        cbn in Hn, Hk |- *. rewrite (Hwf _ _ Hn), <- Hk, Epop.
        destruct last; reflexivity.
    + eapply Hsame; cbn [App.handle]; unfold App.handleBack; rewrite ?Epop; reflexivity.
  - eapply Hsame; reflexivity.
Qed.

(** The theorem on the example session: confirming the drawn mirror adds
    one entry to the empty history. *)
Lemma history_step_witness :
  let s' := App.dispatch true example_tree App.ConfirmAnswer mirror_drawn in
  App.history mirror_drawn = [] /\
  (length (App.history s') <= 1)%nat.
Proof.
  intros s'.
  assert (App.history mirror_drawn = []) as Hh by (vm_compute; reflexivity).
  split; [exact Hh|].
  destruct (history_step true example_tree App.ConfirmAnswer mirror_drawn wf_example_tree)
    as [E|[(key & _ & E)|[(last & E)|E]]]; fold s' in E.
  - rewrite E, Hh. cbn. lia.
  - rewrite E, Hh. cbn. lia.
  - rewrite Hh in E. destruct (App.history s'); discriminate.
  - rewrite E. cbn. lia.
Defined.
(** ** The pointer gestures of the image pane *)

Lemma same_gesture_refl (m : Mode) : same_gesture m m.
Proof. destruct m; cbn; auto. Qed.

Lemma same_gesture_trans (m1 m2 m3 : Mode) :
  same_gesture m1 m2 -> same_gesture m2 m3 -> same_gesture m1 m3.
Proof.
  destruct m1, m2; cbn; try contradiction; destruct m3; cbn; try contradiction;
    intuition congruence.
Qed.

Lemma pane_run_app (arith : Arith.t) (view : Pointer.View) (a b : list
      (Pointer.Props * Pointer.Event))
      (r : Pointer.Refs) :
  pane_run arith view (a ++ b) r
  = (fst (pane_run arith view b (fst (pane_run arith view a r))),
     snd (pane_run arith view a r) ++ snd (pane_run arith view b (fst (pane_run arith view a r)))).
Proof.
  revert r. induction a as [|[props e] a IH]; intros r; cbn.
  - destruct (pane_run arith view b r); reflexivity.
  - destruct (Pointer.handle arith view props e r) as [r' callback].
    rewrite IH.
    destruct (pane_run arith view a r') as [r'' callbacks]. cbn.
    destruct callback; reflexivity.
Qed.

Lemma handleMove_mode (arith : Arith.t) (view : Pointer.View) (props : Pointer.Props)
      (evt : Point.t)
      (m : Mode) :
  exists m', fst (Pointer.handleMove arith view props evt (refs_of m)) = refs_of m' /\
             same_gesture m m'.
Proof.
  unfold Pointer.handleMove.
  destruct (Pointer.getCoords arith view props evt) as [coords|];
    [|exists m; split; [reflexivity|apply same_gesture_refl]].
  destruct m as [|line|handle kind line|kind lastp line| |corner]; cbn.
  - exists Idle. split; [reflexivity|exact I].
  - exists (Drawing (Line.mk (Line.x1 line) (Line.y1 line)
                             (Point.x coords) (Point.y coords))).
    split; [reflexivity|exact I].
  - exists (Editing handle kind (with_end handle coords line)).
    split; [destruct handle; reflexivity|cbn; auto].
  - exists (Dragging kind coords (moved arith lastp coords line)).
    split; [reflexivity|cbn; auto].
  - exists Turning. split; [reflexivity|exact I].
  - exists (Reshaping corner). split; [|cbn; auto].
    destruct (Pointer.unitCell props), (Pointer.unitCellPoints arith view props),
      (Pointer.unitCellEditable props); reflexivity.
Qed.

Lemma handleUp_mode (arith : Arith.t) (props : Pointer.Props) (m : Mode) :
  fst (Pointer.handleUp arith props (refs_of m)) = Pointer.initialRefs.
Proof. destruct m; reflexivity. Qed.

(** Case analysis on a scrutinee of the goal that holds no other match. *)
Ltac destruct_scrutinee :=
  match goal with
  | |- context [match ?x with _ => _ end] =>
    lazymatch x with
    | context [match _ with _ => _ end] => fail
    | _ => destruct x
    end
  end.

Ltac solve_mode :=
  first
    [ exists Idle; split; [reflexivity|left; reflexivity]
    | eexists (Drawing _); split; [reflexivity|left; reflexivity]
    | eexists (Editing _ _ _); split; [reflexivity|left; reflexivity]
    | eexists (Dragging _ _ _); split; [reflexivity|left; reflexivity]
    | eexists (Reshaping _); split; [reflexivity|left; reflexivity]
    | exists Turning; split; [reflexivity|right; split; reflexivity] ].

Lemma handleMouseDown_mode (arith : Arith.t) (view : Pointer.View) (props : Pointer.Props)
      (evt : Point.t) :
  exists m,
    fst (Pointer.handleMouseDown arith view props evt Pointer.initialRefs) = refs_of m /\
    (snd (Pointer.handleMouseDown arith view props evt Pointer.initialRefs) = None \/
     (m = Turning /\
      snd (Pointer.handleMouseDown arith view props evt Pointer.initialRefs)
      = Some (Pointer.onRotationPick (coords_of arith view evt)))).
Proof.
  unfold Pointer.handleMouseDown, Pointer.handleMouseDown_proof, Pointer.getCoords.
  fold (coords_of arith view evt).
  repeat first [progress cbv beta iota zeta | destruct_scrutinee];
    solve_mode.
Qed.

Lemma pane_run_held_mode (arith : Arith.t) (view : Pointer.View)
      (moves : list (Pointer.Props * Pointer.Event)) (m : Mode) :
  Forall (fun pe => held (snd pe) = true) moves ->
  exists m', fst (pane_run arith view moves (refs_of m)) = refs_of m' /\ same_gesture m m'.
Proof.
  revert m. induction moves as [|[props e] moves IH]; intros m Hall.
  - exists m. split; [reflexivity|apply same_gesture_refl].
  - apply Forall_cons in Hall as [He Hall]. destruct e; try discriminate.
    destruct (handleMove_mode arith view props evt m) as (m1 & E1 & S1).
    destruct (IH m1 Hall) as (m2 & E2 & S2).
    exists m2. split; [|eapply same_gesture_trans; eassumption].
    cbn. destruct (Pointer.handleMove arith view props evt (refs_of m)) as [r1 c1].
    cbn in E1. subst r1.
    destruct (pane_run arith view moves (refs_of m1)) as [r2 c2]. exact E2.
Qed.

(** X21: one gesture at a time.  Whatever the properties of each render
    and whatever the arithmetic of the pane rounds to, a mouse-down on the
    idle pane starts at most one gesture (drawing a line, moving an end of
    the line, dragging the line, turning about the center, or reshaping
    the unit cell) and only the rotation gesture reports at once; the
    mouse moves that follow stay in that gesture; and the mouse-up leaves
    the pane idle again. *)
Theorem one_gesture_at_a_time (arith : Arith.t) (view : Pointer.View)
        (props0 propsU : Pointer.Props)
        (evt0 : Point.t) (moves : list (Pointer.Props * Pointer.Event)) :
  Forall (fun pe => held (snd pe) = true) moves ->
  let down := (props0, Pointer.MouseDown evt0) in
  exists m m',
    fst (pane_run arith view [down] Pointer.initialRefs) = refs_of m /\
    (snd (pane_run arith view [down] Pointer.initialRefs) = [] \/
     (m = Turning /\
      snd (pane_run arith view [down] Pointer.initialRefs)
      = [Pointer.onRotationPick (coords_of arith view evt0)])) /\
    (Pointer.interactionsEnabled props0 = false -> m = Idle) /\
    fst (pane_run arith view (down :: moves) Pointer.initialRefs) = refs_of m' /\
    same_gesture m m' /\
    fst (pane_run arith view (down :: moves ++ [(propsU, Pointer.MouseUp)]) Pointer.initialRefs)
    = Pointer.initialRefs.
Proof.
  intros Hall down.
  destruct (handleMouseDown_mode arith view props0 evt0) as (m & Em & Hc).
  destruct (pane_run_held_mode arith view moves m Hall) as (m' & Em' & Hs).
  assert (Pointer.interactionsEnabled props0 = false -> m = Idle) as Hoff.
  { intros Hoff. unfold Pointer.handleMouseDown in Em. rewrite Hoff in Em. cbn in Em.
    destruct m; try discriminate. reflexivity. }
  exists m, m'. unfold down.
  change ((props0, Pointer.MouseDown evt0) :: moves ++ [(propsU, Pointer.MouseUp)])
    with ([(props0, Pointer.MouseDown evt0)] ++ moves ++ [(propsU, Pointer.MouseUp)]).
  change ((props0, Pointer.MouseDown evt0) :: moves)
    with ([(props0, Pointer.MouseDown evt0)] ++ moves).
  rewrite !pane_run_app.
  assert (fst (pane_run arith view [(props0, Pointer.MouseDown evt0)] Pointer.initialRefs)
          = refs_of m) as E1.
  { cbn. destruct (Pointer.handleMouseDown arith view props0 evt0 Pointer.initialRefs).
    exact Em. }
  rewrite E1. cbn [fst]. rewrite Em'.
  split; [reflexivity|]. split.
  { cbn. destruct (Pointer.handleMouseDown arith view props0 evt0 Pointer.initialRefs)
      as [r1 c1]. cbn in Hc |- *.
    destruct Hc as [->|[-> ->]]; [left; reflexivity|right; split; reflexivity]. }
  split; [exact Hoff|]. split; [reflexivity|]. split; [exact Hs|].
  cbn. pose proof (handleUp_mode arith propsU m') as Hup.
  destruct (Pointer.handleUp arith propsU (refs_of m')). exact Hup.
Qed.


(** The theorem on the example session: a stroke on the mirror proof. *)
Lemma one_gesture_at_a_time_witness :
  let props := Lab.props example_tree mirror_selected in
  fst (pane_run Arith.exact full_view
         ((props, Pointer.MouseDown (Point.mk 300 200))
            :: [(props, Pointer.MouseMove (Point.mk 300 400))]
            ++ [(props, Pointer.MouseUp)])
         Pointer.initialRefs)
  = Pointer.initialRefs.
Proof.
  intros props.
  destruct (one_gesture_at_a_time Arith.exact full_view props props (Point.mk 300 200)
              [(props, Pointer.MouseMove (Point.mk 300 400))])
    as (m & m' & _ & _ & _ & _ & _ & E).
  { repeat constructor. }
  exact E.
Defined.

(** ** Drawing a line *)

Lemma lineKindOf_type (kind : LineKind) :
  Pointer.lineKindOf (LineKind_type kind) = Some kind.
Proof. destruct kind; reflexivity. Qed.

Lemma last_cons_default {A : Type} (a d : A) (l : list A) :
  List.last (a :: l) d = List.last l a.
Proof.
  revert a d. induction l as [|b l IH]; intros a d; [reflexivity|].
  change (List.last (a :: b :: l) d) with (List.last (b :: l) d).
  rewrite (IH b d). symmetry. apply IH.
Qed.

Lemma handleMouseDown_draws (arith : Arith.t) (view : Pointer.View) (kind : LineKind)
      (props0 : Pointer.Props) (evt0 : Point.t) :
  Pointer.interactionsEnabled props0 = true ->
  Pointer.canvasMounted view props0 = true ->
  Pointer.showUnitCellGuides props0 = false ->
  Pointer.activeProofType props0 = LineKind_type kind ->
  (forall currentLine,
      ProofState.line (Pointer.proofState props0) = Some currentLine ->
      misses arith view (coords_of arith view evt0) currentLine) ->
  Pointer.handleMouseDown arith view props0 evt0 Pointer.initialRefs
  = (refs_of (Drawing (segment (coords_of arith view evt0) (coords_of arith view evt0))),
     None).
Proof.
  intros Hon Hmount Hguides Hactive Hmiss.
  unfold Pointer.handleMouseDown, Pointer.getCoords.
  rewrite Hon, Hmount, Hguides. cbn [negb andb].
  fold (coords_of arith view evt0). set (p := coords_of arith view evt0) in *.
  unfold Pointer.handleMouseDown_proof.
  rewrite Hactive, lineKindOf_type.
  assert (match ProofState.type (Pointer.proofState props0) with
          | PTmirror | PTglide => ProofState.line (Pointer.proofState props0)
          | _ => None
          end = ProofState.line (Pointer.proofState props0)) as El.
  { destruct (Pointer.proofState props0); reflexivity. }
  rewrite El.
  destruct (ProofState.line (Pointer.proofState props0)) as [currentLine|] eqn:Eline.
  - destruct (Hmiss currentLine eq_refl) as (H1 & H2 & H3).
    rewrite H1, H2, H3. cbn [orb].
    destruct kind; reflexivity.
  - destruct kind; reflexivity.
Qed.

Lemma handleMove_draws (arith : Arith.t) (view : Pointer.View) (kind : LineKind)
      (props : Pointer.Props) (evt p q0 : Point.t) :
  Pointer.canvasMounted view props = true ->
  Pointer.activeProofType props = LineKind_type kind ->
  Pointer.handleMove arith view props evt (refs_of (Drawing (segment p q0)))
  = (refs_of (Drawing (segment p (coords_of arith view evt))),
     Some (Pointer.onDraftLine (segment p (coords_of arith view evt)) kind)).
Proof.
  intros Hm Ha. unfold Pointer.handleMove, Pointer.getCoords. rewrite Hm.
  cbn. rewrite Ha, lineKindOf_type. reflexivity.
Qed.

Lemma handleUp_draws (arith : Arith.t) (kind : LineKind) (propsU : Pointer.Props)
      (p q : Point.t) :
  Pointer.activeProofType propsU = LineKind_type kind ->
  Pointer.handleUp arith propsU (refs_of (Drawing (segment p q)))
  = (Pointer.initialRefs,
     if counts arith p q then Some (Pointer.onFinalLine kind (segment p q)) else None).
Proof.
  intros Ha. unfold counts. cbn -[Pointer.lengthOf]. rewrite Ha, lineKindOf_type.
  destruct (Qle_bool _ _); reflexivity.
Qed.

Lemma drawing_moves (arith : Arith.t) (view : Pointer.View) (kind : LineKind) (p : Point.t)
      (moves : list (Pointer.Props * Point.t)) (q0 : Point.t) :
  Forall (fun m => Pointer.canvasMounted view (fst m) = true /\
                   Pointer.activeProofType (fst m) = LineKind_type kind) moves ->
  pane_run arith view (map (fun m => (fst m, Pointer.MouseMove (snd m))) moves)
           (refs_of (Drawing (segment p q0)))
  = (refs_of (Drawing (segment p (List.last (map (fun m => coords_of arith view (snd m))
                                                 moves) q0))),
     map (fun m => Pointer.onDraftLine (segment p (coords_of arith view (snd m))) kind)
         moves).
Proof.
  revert q0. induction moves as [|[props evt] moves IH]; intros q0 Hall; [reflexivity|].
  apply Forall_cons in Hall as [[Hm Ha] Hall].
  cbn [map fst snd pane_run Pointer.handle].
  rewrite (handleMove_draws arith view kind props evt p q0 Hm Ha),
    (IH (coords_of arith view evt) Hall).
  cbn [fst snd]. rewrite last_cons_default. reflexivity.
Qed.

(** X22: drawing a line.  Whatever the arithmetic of the pane rounds to:
    with interactions enabled, the canvas mounted, the unit-cell guides
    hidden, a mirror or glide proof active, and the pointer missing both
    ends and the body of the current line by the pane's own hit tests, a
    mouse-down at [p] followed by mouse moves and the mouse-up reports the
    draft line from [p] to the pointer at every move, and at the mouse-up
    the final line from [p] to the last position when the pane's own test
    [lengthOf(line) > 8], on the length as the pane computes it, holds,
    and nothing otherwise; the pane is idle afterwards. *)
Theorem stroke_reports (arith : Arith.t) (view : Pointer.View) (kind : LineKind)
        (props0 propsU : Pointer.Props) (evt0 : Point.t)
        (moves : list (Pointer.Props * Point.t)) :
  Pointer.interactionsEnabled props0 = true ->
  Pointer.canvasMounted view props0 = true ->
  Pointer.showUnitCellGuides props0 = false ->
  Pointer.activeProofType props0 = LineKind_type kind ->
  (forall currentLine,
      ProofState.line (Pointer.proofState props0) = Some currentLine ->
      misses arith view (coords_of arith view evt0) currentLine) ->
  Forall (fun m => Pointer.canvasMounted view (fst m) = true /\
                   Pointer.activeProofType (fst m) = LineKind_type kind) moves ->
  Pointer.activeProofType propsU = LineKind_type kind ->
  let p := coords_of arith view evt0 in
  let q := List.last (map (fun m => coords_of arith view (snd m)) moves) p in
  pane_run arith view
           ((props0, Pointer.MouseDown evt0)
              :: map (fun m => (fst m, Pointer.MouseMove (snd m))) moves
              ++ [(propsU, Pointer.MouseUp)])
           Pointer.initialRefs
  = (Pointer.initialRefs,
     map (fun m => Pointer.onDraftLine (segment p (coords_of arith view (snd m))) kind) moves
     ++ (if negb (Qle_bool (Pointer.lengthOf arith (Some (segment p q))) 8)
         then [Pointer.onFinalLine kind (segment p q)]
         else [])).
Proof.
  intros Hon Hmount Hguides Hactive Hmiss Hall HactiveU p q.
  pose proof (handleMouseDown_draws arith view kind props0 evt0 Hon Hmount Hguides Hactive
                                    Hmiss) as Edown.
  fold p in Edown.
  change ((props0, Pointer.MouseDown evt0)
            :: map (fun m => (fst m, Pointer.MouseMove (snd m))) moves
            ++ [(propsU, Pointer.MouseUp)])
    with ([(props0, Pointer.MouseDown evt0)]
            ++ map (fun m => (fst m, Pointer.MouseMove (snd m))) moves
            ++ [(propsU, Pointer.MouseUp)]).
  rewrite !pane_run_app.
  assert (pane_run arith view [(props0, Pointer.MouseDown evt0)] Pointer.initialRefs
          = (refs_of (Drawing (segment p p)), [])) as E1.
  { cbn. rewrite Edown. reflexivity. }
  rewrite E1. cbn [fst snd].
  rewrite (drawing_moves arith view kind p moves p Hall). cbn [fst snd].
  fold q. fold (counts arith p q).
  assert (pane_run arith view [(propsU, Pointer.MouseUp)] (refs_of (Drawing (segment p q)))
          = (Pointer.initialRefs,
             if counts arith p q then [Pointer.onFinalLine kind (segment p q)] else []))
    as E3.
  { cbn [pane_run Pointer.handle]. rewrite (handleUp_draws arith kind propsU p q HactiveU).
    destruct (counts arith p q); reflexivity. }
  rewrite E3. reflexivity.
Qed.

(** The theorem on the example session, without rounding: a vertical
    stroke of 200 pixels on the mirror proof reports one draft and the
    final axis. *)
Lemma stroke_reports_witness :
  let props := Lab.props example_tree mirror_selected in
  let p := coords_of Arith.exact full_view (Point.mk 300 200) in
  let q := coords_of Arith.exact full_view (Point.mk 300 400) in
  pane_run Arith.exact full_view
           [(props, Pointer.MouseDown (Point.mk 300 200));
            (props, Pointer.MouseMove (Point.mk 300 400));
            (props, Pointer.MouseUp)]
           Pointer.initialRefs
  = (Pointer.initialRefs,
     [Pointer.onDraftLine (segment p q) Kmirror; Pointer.onMirrorLine (segment p q)]).
Proof.
  intros props p q.
  assert (Pointer.interactionsEnabled props = true) as H1 by (vm_compute; reflexivity).
  assert (Pointer.canvasMounted full_view props = true) as H2 by (vm_compute; reflexivity).
  assert (Pointer.showUnitCellGuides props = false) as H3 by (vm_compute; reflexivity).
  assert (Pointer.activeProofType props = LineKind_type Kmirror) as H4
      by (vm_compute; reflexivity).
  assert (ProofState.line (Pointer.proofState props) = None) as H5
      by (vm_compute; reflexivity).
  assert (Qle_bool (Pointer.lengthOf Arith.exact (Some (segment p q))) 8 = false) as H6
      by (vm_compute; reflexivity).
  pose proof (stroke_reports Arith.exact full_view Kmirror props props (Point.mk 300 200)
                [(props, Point.mk 300 400)] H1 H2 H3 H4) as H.
  cbv zeta in H. cbn [map fst snd app List.last] in H. fold p q in H. rewrite H6 in H.
  rewrite H.
  - reflexivity.
  - intros currentLine E. rewrite H5 in E. discriminate.
  - constructor; [split; assumption|constructor].
  - exact H4.
Defined.

(** ** Dragging the line and moving its ends *)

Lemma dragging_moves (arith : Arith.t) (view : Pointer.View) (kind : LineKind)
      (moves : list (Pointer.Props * Point.t)) (last0 : Point.t) (line : Line.t) :
  Forall (fun m => Pointer.canvasMounted view (fst m) = true) moves ->
  let positions := map (fun m => coords_of arith view (snd m)) moves in
  pane_run arith view (map (fun m => (fst m, Pointer.MouseMove (snd m))) moves)
           (refs_of (Dragging kind last0 line))
  = (refs_of (Dragging kind (List.last positions last0)
                       (List.last (drag_lines arith last0 line positions) line)),
     map (fun l => Pointer.onDraftLine l kind) (drag_lines arith last0 line positions)).
Proof.
  revert last0 line. induction moves as [|[props evt] moves IH]; intros last0 line Hall;
    [reflexivity|].
  apply Forall_cons in Hall as [Hm Hall]. cbn in Hm.
  set (c := coords_of arith view evt).
  assert (Pointer.handleMove arith view props evt (refs_of (Dragging kind last0 line))
          = (refs_of (Dragging kind c (moved arith last0 c line)),
             Some (Pointer.onDraftLine (moved arith last0 c line) kind))) as E.
  { unfold Pointer.handleMove, Pointer.getCoords. rewrite Hm. reflexivity. }
  cbn [map fst snd pane_run Pointer.handle drag_lines]. fold c.
  rewrite E. cbv zeta in IH. rewrite (IH c (moved arith last0 c line) Hall).
  rewrite !last_cons_default. reflexivity.
Qed.

(** X23: dragging the line.  Whatever the arithmetic of the pane rounds
    to: with interactions enabled, the canvas mounted, the unit-cell
    guides hidden and a mirror or glide proof active on its current line,
    a mouse-down that the pane's own tests place on the body of the line
    ([distanceToLine] at most 12, the tests of both ends failing),
    followed by mouse moves and the mouse-up, reports at every move the
    draft obtained from the line before it by adding, to each of its four
    coordinates, the step of the pointer since the event before, as the
    pane computes it; and at the mouse-up the last of these lines as the
    final one (the current line itself when the pointer did not move),
    whatever its length.  Every report carries the kind of line fixed at
    the mouse-down, and the pane is idle afterwards. *)
Theorem line_drag_moves (arith : Arith.t) (view : Pointer.View) (kind : LineKind)
        (props0 propsU : Pointer.Props) (evt0 : Point.t) (currentLine : Line.t)
        (moves : list (Pointer.Props * Point.t)) :
  Pointer.interactionsEnabled props0 = true ->
  Pointer.canvasMounted view props0 = true ->
  Pointer.showUnitCellGuides props0 = false ->
  Pointer.activeProofType props0 = LineKind_type kind ->
  ProofState.type (Pointer.proofState props0) = LineKind_type kind ->
  ProofState.line (Pointer.proofState props0) = Some currentLine ->
  Pointer.hitsPoint arith (coords_of arith view evt0) (Line.x1 currentLine)
                    (Line.y1 currentLine) (Pointer.scale view) Pointer.HANDLE_HIT_RADIUS
  = false ->
  Pointer.hitsPoint arith (coords_of arith view evt0) (Line.x2 currentLine)
                    (Line.y2 currentLine) (Pointer.scale view) Pointer.HANDLE_HIT_RADIUS
  = false ->
  Qle_bool (Pointer.distanceToLine arith (coords_of arith view evt0) currentLine
                                   (Pointer.scale view))
           Pointer.LINE_HIT_THRESHOLD = true ->
  Forall (fun m => Pointer.canvasMounted view (fst m) = true) moves ->
  let p := coords_of arith view evt0 in
  let lines := drag_lines arith p currentLine
                          (map (fun m => coords_of arith view (snd m)) moves) in
  pane_run arith view
           ((props0, Pointer.MouseDown evt0)
              :: map (fun m => (fst m, Pointer.MouseMove (snd m))) moves
              ++ [(propsU, Pointer.MouseUp)])
           Pointer.initialRefs
  = (Pointer.initialRefs,
     map (fun l => Pointer.onDraftLine l kind) lines
     ++ [Pointer.onFinalLine kind (List.last lines currentLine)]).
Proof.
  intros Hon Hmount Hguides Hactive Htype Hline Hs He Hd Hall p lines.
  assert (Pointer.handleMouseDown arith view props0 evt0 Pointer.initialRefs
          = (refs_of (Dragging kind p currentLine), None)) as Edown.
  { unfold Pointer.handleMouseDown, Pointer.getCoords.
    rewrite Hon, Hmount, Hguides. cbn [negb andb].
    fold (coords_of arith view evt0). fold p.
    unfold Pointer.handleMouseDown_proof.
    rewrite Hactive, Htype, lineKindOf_type.
    assert (match LineKind_type kind with
            | PTmirror | PTglide => ProofState.line (Pointer.proofState props0)
            | _ => None
            end = Some currentLine) as El by (rewrite Hline; destruct kind; reflexivity).
    rewrite El. fold p in Hs, He, Hd. rewrite Hs, He, Hd. cbn [orb].
    destruct kind; reflexivity. }
  change ((props0, Pointer.MouseDown evt0)
            :: map (fun m => (fst m, Pointer.MouseMove (snd m))) moves
            ++ [(propsU, Pointer.MouseUp)])
    with ([(props0, Pointer.MouseDown evt0)]
            ++ map (fun m => (fst m, Pointer.MouseMove (snd m))) moves
            ++ [(propsU, Pointer.MouseUp)]).
  rewrite !pane_run_app.
  assert (pane_run arith view [(props0, Pointer.MouseDown evt0)] Pointer.initialRefs
          = (refs_of (Dragging kind p currentLine), [])) as E1.
  { cbn. rewrite Edown. reflexivity. }
  rewrite E1. cbn [fst snd].
  pose proof (dragging_moves arith view kind moves p currentLine Hall) as Erun.
  cbv zeta in Erun. rewrite Erun. cbn [fst snd]. reflexivity.
Qed.

Lemma editing_moves (arith : Arith.t) (view : Pointer.View) (handle : Pointer.Handle)
      (kind : LineKind) (line0 : Line.t) (moves : list (Pointer.Props * Point.t))
      (line : Line.t) :
  Forall (fun m => Pointer.canvasMounted view (fst m) = true) moves ->
  (forall c, with_end handle c line = with_end handle c line0) ->
  pane_run arith view (map (fun m => (fst m, Pointer.MouseMove (snd m))) moves)
           (refs_of (Editing handle kind line))
  = (refs_of (Editing handle kind
                      (List.last (map (fun m => with_end handle (coords_of arith view (snd m))
                                                         line0)
                                      moves) line)),
     map (fun m => Pointer.onDraftLine (with_end handle (coords_of arith view (snd m)) line0)
                                       kind)
         moves).
Proof.
  revert line. induction moves as [|[props evt] moves IH]; intros line Hall Hline;
    [reflexivity|].
  apply Forall_cons in Hall as [Hm Hall]. cbn in Hm.
  set (c := coords_of arith view evt).
  assert (Pointer.handleMove arith view props evt (refs_of (Editing handle kind line))
          = (refs_of (Editing handle kind (with_end handle c line0)),
             Some (Pointer.onDraftLine (with_end handle c line0) kind))) as E.
  { unfold Pointer.handleMove, Pointer.getCoords. rewrite Hm. rewrite <- (Hline c).
    destruct handle; reflexivity. }
  cbn [map fst snd pane_run Pointer.handle]. rewrite E.
  rewrite (IH (with_end handle c line0) Hall).
  - rewrite last_cons_default. reflexivity.
  - intros c'. destruct handle; reflexivity.
Qed.

(** X24: moving an end of the line.  Whatever the arithmetic of the pane
    rounds to: with interactions enabled, the canvas mounted, the
    unit-cell guides hidden and a mirror or glide proof active on its
    current line, a mouse-down that the pane's own test ([Math.hypot] of
    the scaled offsets at most 14) places on an end of the line (the start
    wins when the test holds for both ends), followed by mouse moves and
    the mouse-up, reports at every move the draft of the current line with
    that end at the pointer and the other end where it was, and at the
    mouse-up the last of these lines as the final one.  Unlike a fresh
    stroke, the final line is reported whatever its length, even with
    both ends on the same point. *)
Theorem end_drag_keeps_other_end (arith : Arith.t) (view : Pointer.View) (kind : LineKind)
        (props0 propsU : Pointer.Props) (evt0 : Point.t) (currentLine : Line.t)
        (moves : list (Pointer.Props * Point.t)) :
  Pointer.interactionsEnabled props0 = true ->
  Pointer.canvasMounted view props0 = true ->
  Pointer.showUnitCellGuides props0 = false ->
  Pointer.activeProofType props0 = LineKind_type kind ->
  ProofState.type (Pointer.proofState props0) = LineKind_type kind ->
  ProofState.line (Pointer.proofState props0) = Some currentLine ->
  let startHit :=
    Pointer.hitsPoint arith (coords_of arith view evt0) (Line.x1 currentLine)
                      (Line.y1 currentLine) (Pointer.scale view)
                      Pointer.HANDLE_HIT_RADIUS in
  let endHit :=
    Pointer.hitsPoint arith (coords_of arith view evt0) (Line.x2 currentLine)
                      (Line.y2 currentLine) (Pointer.scale view)
                      Pointer.HANDLE_HIT_RADIUS in
  (startHit || endHit)%bool = true ->
  Forall (fun m => Pointer.canvasMounted view (fst m) = true) moves ->
  let handle := if startHit then Pointer.startHandle else Pointer.endHandle in
  let lines :=
    map (fun m => with_end handle (coords_of arith view (snd m)) currentLine) moves in
  pane_run arith view
           ((props0, Pointer.MouseDown evt0)
              :: map (fun m => (fst m, Pointer.MouseMove (snd m))) moves
              ++ [(propsU, Pointer.MouseUp)])
           Pointer.initialRefs
  = (Pointer.initialRefs,
     map (fun l => Pointer.onDraftLine l kind) lines
     ++ [Pointer.onFinalLine kind (List.last lines currentLine)]).
Proof.
  intros Hon Hmount Hguides Hactive Htype Hline startHit endHit Hhit Hall handle lines.
  assert (Pointer.handleMouseDown arith view props0 evt0 Pointer.initialRefs
          = (refs_of (Editing handle kind currentLine), None)) as Edown.
  { unfold Pointer.handleMouseDown, Pointer.getCoords.
    rewrite Hon, Hmount, Hguides. cbn [negb andb].
    fold (coords_of arith view evt0).
    unfold Pointer.handleMouseDown_proof.
    rewrite Hactive, Htype, lineKindOf_type.
    assert (match LineKind_type kind with
            | PTmirror | PTglide => ProofState.line (Pointer.proofState props0)
            | _ => None
            end = Some currentLine) as El by (rewrite Hline; destruct kind; reflexivity).
    rewrite El. fold startHit. fold endHit. rewrite Hhit.
    destruct kind; reflexivity. }
  change ((props0, Pointer.MouseDown evt0)
            :: map (fun m => (fst m, Pointer.MouseMove (snd m))) moves
            ++ [(propsU, Pointer.MouseUp)])
    with ([(props0, Pointer.MouseDown evt0)]
            ++ map (fun m => (fst m, Pointer.MouseMove (snd m))) moves
            ++ [(propsU, Pointer.MouseUp)]).
  rewrite !pane_run_app.
  assert (pane_run arith view [(props0, Pointer.MouseDown evt0)] Pointer.initialRefs
          = (refs_of (Editing handle kind currentLine), [])) as E1.
  { cbn. rewrite Edown. reflexivity. }
  rewrite E1. cbn [fst snd].
  rewrite (editing_moves arith view handle kind currentLine moves currentLine Hall);
    [|reflexivity].
  cbn [fst snd]. unfold lines. rewrite map_map. reflexivity.
Qed.

(** The theorem on the example session, without rounding: the drawn
    mirror axis, grabbed 5 pixels beside its middle and dragged by
    (100, 10), is reported 100 pixels to the right and 10 pixels down. *)
Lemma line_drag_moves_witness :
  let props := Lab.props example_tree mirror_drawn in
  let p := coords_of Arith.exact full_view (Point.mk 205 250) in
  let q := coords_of Arith.exact full_view (Point.mk 305 260) in
  let l := moved Arith.exact p q sample_mirror_line in
  (Line.x1 l == Line.x1 sample_mirror_line + 100 /\
   Line.y1 l == Line.y1 sample_mirror_line + 10 /\
   Line.x2 l == Line.x2 sample_mirror_line + 100 /\
   Line.y2 l == Line.y2 sample_mirror_line + 10) /\
  pane_run Arith.exact full_view
           [(props, Pointer.MouseDown (Point.mk 205 250));
            (props, Pointer.MouseMove (Point.mk 305 260));
            (props, Pointer.MouseUp)]
           Pointer.initialRefs
  = (Pointer.initialRefs, [Pointer.onDraftLine l Kmirror; Pointer.onMirrorLine l]).
Proof.
  intros props p q l.
  split; [repeat split; vm_compute; reflexivity|].
  pose proof (line_drag_moves Arith.exact full_view Kmirror props props (Point.mk 205 250)
                sample_mirror_line [(props, Point.mk 305 260)]) as H.
  cbv zeta in H. cbn [map fst snd app drag_lines List.last] in H.
  apply H; try (vm_compute; reflexivity).
  constructor; [vm_compute; reflexivity|constructor].
Defined.

(** The theorem on the example session, without rounding: the start of
    the drawn mirror axis is dragged onto its end, and the line without
    length is reported as the final axis. *)
Lemma end_drag_keeps_other_end_witness :
  let props := Lab.props example_tree mirror_drawn in
  let l := with_end Pointer.startHandle (coords_of Arith.exact full_view (Point.mk 200 400))
                    sample_mirror_line in
  (Line.x1 l == Line.x2 l /\ Line.y1 l == Line.y2 l) /\
  pane_run Arith.exact full_view
           [(props, Pointer.MouseDown (Point.mk 200 105));
            (props, Pointer.MouseMove (Point.mk 200 400));
            (props, Pointer.MouseUp)]
           Pointer.initialRefs
  = (Pointer.initialRefs, [Pointer.onDraftLine l Kmirror; Pointer.onMirrorLine l]).
Proof.
  intros props l. split; [split; vm_compute; reflexivity|].
  pose proof (end_drag_keeps_other_end Arith.exact full_view Kmirror props props
                (Point.mk 200 105) sample_mirror_line [(props, Point.mk 200 400)]) as H.
  cbv zeta in H. cbn [map fst snd app] in H. rewrite H; try (vm_compute; reflexivity).
  constructor; [vm_compute; reflexivity|constructor].
Defined.

(** ** The pane and the controller *)

Lemma dispatch_ProofOp (context2d : bool) (tree : DecisionTree.t) (op : Proof.Op)
      (s : App.State) :
  let s' := App.dispatch context2d tree (App.ProofOp op) s in
  App.proofState s' = Proof.apply context2d (App.image s) op (App.proofState s) /\
  App.image s' = App.image s /\
  App.currentNodeId s' = App.currentNodeId s /\
  App.selectedAnswerKey s' = App.selectedAnswerKey s /\
  App.history s' = App.history s /\
  App.unitCell s' = App.unitCell s.
Proof.
  intros s'.
  set (cur := App.with_proofState
                (Proof.apply context2d (App.image s) op (App.proofState s)) s).
  assert (s' = App.commit tree s cur) as E by reflexivity.
  assert (App.autoConfirmDeps tree cur = App.autoConfirmDeps tree s) as Ed.
  { unfold App.autoConfirmDeps, App.currentNode, cur. cbn. rewrite type_apply. reflexivity. }
  unfold App.commit in E. rewrite (bool_decide_eq_true_2 _ Ed) in E.
  destruct (bool_decide (App.draftDeps cur = App.draftDeps s)); rewrite E.
  - repeat split; reflexivity.
  - destruct (draftEffect_frame cur cur) as (-> & -> & -> & -> & -> & ->).
    repeat split; reflexivity.
Qed.

Lemma step_frame (arith : Arith.t) (context2d : bool) (tree : DecisionTree.t)
      (view : Pointer.View)
      (e : Pointer.Event) (r : Pointer.Refs) (s : App.State) :
  let s' := snd (Lab.step arith context2d tree view e (r, s)) in
  App.image s' = App.image s /\
  App.currentNodeId s' = App.currentNodeId s /\
  App.selectedAnswerKey s' = App.selectedAnswerKey s /\
  App.history s' = App.history s /\
  ProofState.type (App.proofState s') = ProofState.type (App.proofState s).
Proof.
  unfold Lab.step. cbn [fst snd].
  destruct (Pointer.handle arith view (Lab.props tree s) e r) as [r' [c|]]; cbn [snd];
    [|repeat split; reflexivity].
  destruct c; cbn [Lab.event_of];
    try (match goal with
         | |- context [App.ProofOp ?op] =>
           destruct (dispatch_ProofOp context2d tree op s) as (-> & -> & -> & -> & -> & _)
         end;
         rewrite type_apply; repeat split; reflexivity).
  rewrite dispatch_UnitCellChange. repeat split; reflexivity.
Qed.

Lemma step_disabled (arith : Arith.t) (context2d : bool) (tree : DecisionTree.t)
      (view : Pointer.View)
      (e : Pointer.Event) (s : App.State) :
  Lab.proofInteractionsEnabled tree s = false ->
  Lab.step arith context2d tree view e (Pointer.initialRefs, s) = (Pointer.initialRefs, s).
Proof.
  intros Hoff. unfold Lab.step. cbn [fst snd].
  assert (Pointer.handle arith view (Lab.props tree s) e Pointer.initialRefs
          = (Pointer.initialRefs, None)) as E.
  { destruct e; cbn [Pointer.handle].
    - unfold Pointer.handleMouseDown. cbn [Lab.props Pointer.interactionsEnabled].
      rewrite Hoff. reflexivity.
    - unfold Pointer.handleMove. destruct (Pointer.getCoords _ _ _); reflexivity.
    - reflexivity.
    - unfold Pointer.handleCanvasClick. cbn [Lab.props Pointer.interactionsEnabled].
      rewrite Hoff. reflexivity. }
  rewrite E. reflexivity.
Qed.

(** X25: the pointer never navigates.  Whatever the pane is doing and
    whatever its arithmetic rounds to, no sequence of pointer events
    changes the image, the current node, the selected answer, the history
    or the type of the proof; while the guides of the unit cell are hidden
    it leaves the unit cell alone; and on an idle pane with interactions
    disabled (no image, no selected answer, or a leaf) it changes nothing
    at all. *)
Theorem pointer_never_navigates (arith : Arith.t) (context2d : bool) (tree : DecisionTree.t)
        (view : Pointer.View) (events : list Pointer.Event)
        (r : Pointer.Refs) (s : App.State) :
  let s' := snd (Lab.run arith context2d tree view events (r, s)) in
  App.image s' = App.image s /\
  App.currentNodeId s' = App.currentNodeId s /\
  App.selectedAnswerKey s' = App.selectedAnswerKey s /\
  App.history s' = App.history s /\
  ProofState.type (App.proofState s') = ProofState.type (App.proofState s) /\
  (Lab.showUnitCellGuides tree s = false -> App.unitCell s' = App.unitCell s) /\
  (Lab.proofInteractionsEnabled tree s = false ->
   Lab.run arith context2d tree view events (Pointer.initialRefs, s) = (Pointer.initialRefs, s)).
Proof.
  revert r s. induction events as [|e events IH]; intros r s; cbn [Lab.run].
  { cbn. repeat split; reflexivity. }
  destruct (Lab.step arith context2d tree view e (r, s)) as [r1 s1] eqn:E1.
  pose proof (step_frame arith context2d tree view e r s) as Hf.
  rewrite E1 in Hf. cbn [snd] in Hf. destruct Hf as (Hi & Hc & Hk & Hh & Ht).
  destruct (IH r1 s1) as (Hi' & Hc' & Hk' & Hh' & Ht' & Hu' & _).
  cbv zeta. split; [congruence|]. split; [congruence|]. split; [congruence|].
  split; [congruence|]. split; [congruence|]. split.
  - intros Hg.
    assert (Lab.showUnitCellGuides tree s1 = false) as Hg1.
    { unfold Lab.showUnitCellGuides, App.currentNode in *. rewrite Hc. exact Hg. }
    rewrite (Hu' Hg1).
    unfold Lab.step in E1. cbn [fst snd] in E1.
    destruct (Pointer.handle arith view (Lab.props tree s) e r) as [r' [c|]] eqn:Eh;
      [|congruence].
    assert (s1 = App.dispatch context2d tree (Lab.event_of c) s) as -> by congruence.
    destruct c; cbn [Lab.event_of];
      try (match goal with
           | |- context [App.ProofOp ?op] =>
             destruct (dispatch_ProofOp context2d tree op s) as (_ & _ & _ & _ & _ & ->)
           end; reflexivity).
    exfalso. destruct e; cbn [Pointer.handle] in Eh.
    + unfold Pointer.handleMouseDown, Pointer.handleMouseDown_proof in Eh.
      repeat first [progress cbv beta iota zeta in Eh
                   | match type of Eh with
                     | context [match ?x with _ => _ end] =>
                       lazymatch x with
                       | context [match _ with _ => _ end] => fail
                       | _ => destruct x
                       end
                     end]; discriminate.
    + unfold Pointer.handleMove in Eh.
      destruct (Pointer.getCoords arith view (Lab.props tree s) evt); [|discriminate].
      cbn [Lab.props Pointer.unitCellEditable] in Eh. rewrite Hg in Eh.
      assert (forall (x : option ImagePane.Corner) (y z : option UnitCellState.t),
                 match x, y, z with
                 | Some _, Some _, Some _ => @None (ImagePane.Corner * UnitCellState.t)
                 | _, _, _ => None
                 end = None) as Hnone by (intros [] [] []; reflexivity).
      rewrite Hnone in Eh. unfold Pointer.handleMove_proof in Eh.
      repeat first [progress cbv beta iota zeta in Eh
                   | match type of Eh with
                     | context [match ?x with _ => _ end] =>
                       lazymatch x with
                       | context [match _ with _ => _ end] => fail
                       | _ => destruct x
                       end
                     end]; discriminate.
    + unfold Pointer.handleUp, Pointer.onFinalLine in Eh.
      repeat first [progress cbv beta iota zeta in Eh
                   | match type of Eh with
                     | context [match ?x with _ => _ end] =>
                       lazymatch x with
                       | context [match _ with _ => _ end] => fail
                       | _ => destruct x
                       end
                     end]; discriminate.
    + unfold Pointer.handleCanvasClick in Eh.
      repeat first [progress cbv beta iota zeta in Eh
                   | match type of Eh with
                     | context [match ?x with _ => _ end] =>
                       lazymatch x with
                       | context [match _ with _ => _ end] => fail
                       | _ => destruct x
                       end
                     end]; discriminate.
  - intros Hoff. rewrite (step_disabled arith context2d tree view e s Hoff).
    destruct (IH Pointer.initialRefs s) as (_ & _ & _ & _ & _ & _ & Hrun).
    exact (Hrun Hoff).
Qed.

(** The theorem on the example session: before an answer is selected the
    pane ignores a whole stroke. *)
Lemma pointer_never_navigates_witness :
  Lab.proofInteractionsEnabled example_tree image_loaded = false /\
  Lab.run Arith.exact true example_tree full_view
          [Pointer.MouseDown (Point.mk 300 200); Pointer.MouseMove (Point.mk 300 400);
           Pointer.MouseUp; Pointer.Click (Point.mk 300 400)]
          (Pointer.initialRefs, image_loaded)
  = (Pointer.initialRefs, image_loaded).
Proof.
  assert (Lab.proofInteractionsEnabled example_tree image_loaded = false) as Hoff
      by (vm_compute; reflexivity).
  split; [exact Hoff|].
  destruct (pointer_never_navigates Arith.exact true example_tree full_view
              [Pointer.MouseDown (Point.mk 300 200); Pointer.MouseMove (Point.mk 300 400);
               Pointer.MouseUp; Pointer.Click (Point.mk 300 400)]
              Pointer.initialRefs image_loaded) as (_ & _ & _ & _ & _ & _ & H).
  exact (H Hoff).
Defined.

(** ** A stroke, from the pointer to the proof *)

Lemma lab_run_app (arith : Arith.t) (context2d : bool) (tree : DecisionTree.t)
      (view : Pointer.View)
      (a b : list Pointer.Event) (st : Pointer.Refs * App.State) :
  Lab.run arith context2d tree view (a ++ b) st
  = Lab.run arith context2d tree view b (Lab.run arith context2d tree view a st).
Proof. revert st. induction a as [|e a IH]; intros st; [reflexivity|]. cbn. apply IH. Qed.

Lemma run_app (context2d : bool) (image : ImageState.t) (a b : list Proof.Op)
      (st : ProofState.t) :
  Proof.run context2d image (a ++ b) st
  = Proof.run context2d image b (Proof.run context2d image a st).
Proof. revert st. induction a as [|op a IH]; intros st; [reflexivity|]. cbn. apply IH. Qed.

Lemma type_run (context2d : bool) (image : ImageState.t) (ops : list Proof.Op)
      (st : ProofState.t) :
  ProofState.type (Proof.run context2d image ops st) = ProofState.type st.
Proof.
  revert st. induction ops as [|op ops IH]; intros st; [reflexivity|].
  cbn. rewrite IH. apply type_apply.
Qed.

Lemma captureLine_usable (context2d : bool) (image : ImageState.t) (img : HTMLImageElement)
      (line : Line.t) (kind : LineKind) (isFinal : bool) (st : ProofState.t) :
  context2d = true ->
  ImageState.element image = Some img ->
  ImageTools.availableWidth img <> 0%N ->
  ImageTools.availableHeight img <> 0%N ->
  ProofState.type st = LineKind_type kind ->
  let st' := Proof.captureLine context2d image line kind isFinal st in
  ProofState.line st' = Some line /\
  ProofState.ready (ProofState.base st')
  = (isFinal || ProofState.ready (ProofState.base st))%bool.
Proof.
  intros Hctx Himg Hw Hh Htype st'. unfold st', Proof.captureLine. rewrite Himg.
  destruct kind, st; try discriminate;
    match goal with
    | |- context [ImageTools.samplePatch ?c ?i ?m ?s] =>
      destruct (ImageTools.samplePatch c i m s) as [patch|] eqn:Es;
        [|apply samplePatch_None_iff in Es as [Es|[Es|Es]]; congruence]
    end;
    destruct isFinal; split; reflexivity.
Qed.

Section Stroke.
Variable arith : Arith.t.
Variable context2d : bool.
Variable tree : DecisionTree.t.
Variable view : Pointer.View.
Variable kind : LineKind.
Variable p : Point.t.

Lemma lab_drawing_moves (evts : list Point.t) (q0 : Point.t) (s : App.State) :
  Pointer.canvasMounted view (Lab.props tree s) = true ->
  ProofState.type (App.proofState s) = LineKind_type kind ->
  let final := Lab.run arith context2d tree view (map Pointer.MouseMove evts)
                       (refs_of (Drawing (segment p q0)), s) in
  fst final = refs_of (Drawing (segment p (List.last (map (coords_of arith view) evts) q0))) /\
  App.proofState (snd final)
  = Proof.run context2d (App.image s) (map (draft_op arith view kind p) evts) (App.proofState s) /\
  App.image (snd final) = App.image s.
Proof.
  revert q0 s. induction evts as [|evt evts IH]; intros q0 s Hm Ht; [repeat split|].
  cbn [map Lab.run].
  assert (Lab.step arith context2d tree view (Pointer.MouseMove evt)
                   (refs_of (Drawing (segment p q0)), s)
          = (refs_of (Drawing (segment p (coords_of arith view evt))),
             App.dispatch context2d tree (App.ProofOp (draft_op arith view kind p evt)) s)) as E.
  { unfold Lab.step. cbn [fst snd Pointer.handle].
    rewrite (handleMove_draws arith view kind (Lab.props tree s) evt p q0 Hm Ht). reflexivity. }
  rewrite E.
  destruct (dispatch_ProofOp context2d tree (draft_op arith view kind p evt) s) as (Ep & Ei & _).
  set (s1 := App.dispatch context2d tree (App.ProofOp (draft_op arith view kind p evt)) s) in *.
  assert (Pointer.canvasMounted view (Lab.props tree s1) = true) as Hm1.
  { unfold Pointer.canvasMounted in *. cbn [Lab.props Pointer.image] in *.
    rewrite Ei. exact Hm. }
  assert (ProofState.type (App.proofState s1) = LineKind_type kind) as Ht1.
  { rewrite Ep, type_apply. exact Ht. }
  destruct (IH (coords_of arith view evt) s1 Hm1 Ht1) as (H1 & H2 & H3).
  cbv zeta. rewrite H1, H2, H3, Ei, Ep, last_cons_default. repeat split.
Qed.
End Stroke.

(** X26: a stroke, from the pointer to the proof.  Whatever the
    arithmetic of the pane rounds to: with an answer selected whose proof
    is a mirror or a glide, at a node that hides the unit-cell guides, on
    a mounted canvas over an image that can be sampled, a stroke that
    starts where the pane's own hit tests miss the current line applies
    one draft capture per mouse move and, when the pane's own test
    [lengthOf(line) > 8] holds of the line from the first to the last
    position, the final capture.  After it the pane is idle, the stored
    line is the line from the first to the last position as soon as the
    pointer moved at all (also when the stroke did not count: its draft
    replaced the line), and the proof is ready if it was ready before or
    the stroke counted. *)
Theorem stroke_sets_axis (arith : Arith.t) (context2d : bool) (tree : DecisionTree.t)
        (view : Pointer.View)
        (kind : LineKind) (s : App.State) (img : HTMLImageElement)
        (evt0 : Point.t) (evts : list Point.t) :
  context2d = true ->
  ImageState.element (App.image s) = Some img ->
  ImageTools.availableWidth img <> 0%N ->
  ImageTools.availableHeight img <> 0%N ->
  0 < Canvas.width (Pointer.canvasSize view) ->
  Lab.proofInteractionsEnabled tree s = true ->
  Lab.showUnitCellGuides tree s = false ->
  ProofState.type (App.proofState s) = LineKind_type kind ->
  (forall currentLine,
      ProofState.line (App.proofState s) = Some currentLine ->
      misses arith view (coords_of arith view evt0) currentLine) ->
  let p := coords_of arith view evt0 in
  let q := List.last (map (coords_of arith view) evts) p in
  let counted := negb (Qle_bool (Pointer.lengthOf arith (Some (segment p q))) 8) in
  let final :=
    Lab.run arith context2d tree view
            (Pointer.MouseDown evt0 :: map Pointer.MouseMove evts ++ [Pointer.MouseUp])
            (Pointer.initialRefs, s) in
  fst final = Pointer.initialRefs /\
  App.proofState (snd final)
  = Proof.run context2d (App.image s)
              (map (draft_op arith view kind p) evts
               ++ (if counted then [Proof.CaptureLine (segment p q) kind true] else []))
              (App.proofState s) /\
  (evts <> [] -> ProofState.line (App.proofState (snd final)) = Some (segment p q)) /\
  ProofState.ready (ProofState.base (App.proofState (snd final)))
  = (ProofState.ready (ProofState.base (App.proofState s)) || counted)%bool.
Proof.
  intros Hctx Himg Hw Hh Hcanvas Hon Hguides Htype Hmiss p q counted final.
  assert (Pointer.canvasMounted view (Lab.props tree s) = true) as Hm.
  { unfold Pointer.canvasMounted. cbn [Lab.props Pointer.image]. rewrite Himg.
    apply negb_true_iff. destruct (Qle_bool _ 0) eqn:E; [|reflexivity].
    apply Qle_bool_iff in E. lra. }
  assert (Lab.step arith context2d tree view (Pointer.MouseDown evt0) (Pointer.initialRefs, s)
          = (refs_of (Drawing (segment p p)), s)) as Edown.
  { unfold Lab.step. cbn [fst snd Pointer.handle].
    rewrite (handleMouseDown_draws arith view kind (Lab.props tree s) evt0 Hon Hm Hguides Htype
                                   Hmiss).
    reflexivity. }
  destruct (lab_drawing_moves arith context2d tree view kind p evts p s Hm Htype)
    as (Hr & Hp & Hi).
  fold q in Hr.
  set (mid := Lab.run arith context2d tree view (map Pointer.MouseMove evts)
                      (refs_of (Drawing (segment p p)), s)) in *.
  assert (final = Lab.step arith context2d tree view Pointer.MouseUp mid) as Efinal.
  { unfold final. cbn [Lab.run]. rewrite Edown, lab_run_app. reflexivity. }
  assert (ProofState.type (App.proofState (snd mid)) = LineKind_type kind) as Htm.
  { rewrite Hp, type_run. exact Htype. }
  assert (Lab.step arith context2d tree view Pointer.MouseUp mid
          = (Pointer.initialRefs,
             if counted
             then App.dispatch context2d tree
                               (App.ProofOp (Proof.CaptureLine (segment p q) kind true))
                               (snd mid)
             else snd mid)) as Eup.
  { unfold Lab.step. cbn [Pointer.handle]. rewrite Hr.
    rewrite (handleUp_draws arith kind (Lab.props tree (snd mid)) p q Htm).
    unfold counts. fold counted. destruct counted; [|reflexivity].
    destruct kind; reflexivity. }
  rewrite Eup in Efinal.
  assert (App.proofState (snd final)
          = Proof.run context2d (App.image s)
                      (map (draft_op arith view kind p) evts
                       ++ (if counted then [Proof.CaptureLine (segment p q) kind true] else []))
                      (App.proofState s)) as Eproof.
  { rewrite Efinal, run_app, <- Hp. cbn [snd]. destruct counted; [|reflexivity].
    destruct (dispatch_ProofOp context2d tree
                (Proof.CaptureLine (segment p q) kind true) (snd mid)) as (-> & _).
    rewrite Hi. reflexivity. }
  split; [rewrite Efinal; reflexivity|]. split; [exact Eproof|].
  assert (forall evts' st,
             ProofState.type st = LineKind_type kind ->
             let st' := Proof.run context2d (App.image s)
                                  (map (draft_op arith view kind p) evts') st in
             ProofState.ready (ProofState.base st') = ProofState.ready (ProofState.base st) /\
             (evts' <> [] ->
              ProofState.line st'
              = Some (segment p (List.last (map (coords_of arith view) evts') p)))) as Hdrafts.
  { induction evts' as [|evt evts' IH]; intros st Hst; [split; [reflexivity|congruence]|].
    cbn [map Proof.run Proof.apply draft_op].
    destruct (captureLine_usable context2d (App.image s) img
                (segment p (coords_of arith view evt)) kind false st Hctx Himg Hw Hh Hst)
      as (Hl & Hrd).
    set (st1 := Proof.captureLine context2d (App.image s)
                                  (segment p (coords_of arith view evt)) kind false st) in *.
    assert (ProofState.type st1 = LineKind_type kind) as Hst1.
    { unfold st1. rewrite <- Hst.
      apply (type_apply context2d (App.image s)
                        (Proof.CaptureLine (segment p (coords_of arith view evt)) kind false)). }
    destruct (IH st1 Hst1) as (IHr & IHl).
    cbv zeta. split; [rewrite IHr, Hrd; reflexivity|]. intros _.
    destruct evts' as [|evt' evts'']; [exact Hl|].
    rewrite last_cons_default.
    rewrite IHl by discriminate. cbn [map]. rewrite !last_cons_default. reflexivity. }
  destruct (Hdrafts evts (App.proofState s) Htype) as (Hrd & Hld).
  rewrite Eproof, run_app.
  set (drafted := Proof.run context2d (App.image s) (map (draft_op arith view kind p) evts)
                            (App.proofState s)) in *.
  assert (ProofState.type drafted = LineKind_type kind) as Htd.
  { unfold drafted. rewrite type_run. exact Htype. }
  destruct counted.
  - cbn [Proof.run Proof.apply].
    destruct (captureLine_usable context2d (App.image s) img (segment p q) kind true
                                 drafted Hctx Himg Hw Hh Htd) as (Hl & Hr').
    split; [intros _; exact Hl|]. rewrite Hr'. cbn. rewrite orb_true_r. reflexivity.
  - cbn [Proof.run]. split; [exact Hld|]. rewrite Hrd, orb_false_r. reflexivity.
Qed.

(** The theorem on the example session, without rounding: a stroke of 3
    pixels beside the drawn mirror axis does not count, yet its draft
    replaces the axis and the proof stays ready. *)
Lemma stroke_sets_axis_witness :
  let p := coords_of Arith.exact full_view (Point.mk 600 300) in
  let q := coords_of Arith.exact full_view (Point.mk 603 300) in
  let final :=
    Lab.run Arith.exact true example_tree full_view
            (Pointer.MouseDown (Point.mk 600 300)
               :: map Pointer.MouseMove [Point.mk 603 300] ++ [Pointer.MouseUp])
            (Pointer.initialRefs, mirror_drawn) in
  ProofState.line (App.proofState mirror_drawn) = Some sample_mirror_line /\
  Qle_bool (Pointer.lengthOf Arith.exact (Some (segment p q))) 8 = true /\
  ProofState.line (App.proofState (snd final)) = Some (segment p q) /\
  ProofState.ready (ProofState.base (App.proofState (snd final))) = true.
Proof.
  intros p q final.
  assert (ProofState.line (App.proofState mirror_drawn) = Some sample_mirror_line) as Hl
      by (vm_compute; reflexivity).
  assert (Qle_bool (Pointer.lengthOf Arith.exact (Some (segment p q))) 8 = true) as Hs
      by (vm_compute; reflexivity).
  assert (ImageState.element (App.image mirror_drawn) = Some wide_image) as Hi
      by (vm_compute; reflexivity).
  assert (ProofState.ready (ProofState.base (App.proofState mirror_drawn)) = true) as Hr
      by (vm_compute; reflexivity).
  destruct (stroke_sets_axis Arith.exact true example_tree full_view Kmirror mirror_drawn wide_image
              (Point.mk 600 300) [Point.mk 603 300]) as (_ & _ & H3 & H4).
  - reflexivity.
  - exact Hi.
  - vm_compute. discriminate.
  - vm_compute. discriminate.
  - vm_compute. reflexivity.
  - vm_compute. reflexivity.
  - vm_compute. reflexivity.
  - vm_compute. reflexivity.
  - intros currentLine E. rewrite Hl in E. injection E as <-.
    repeat split; vm_compute; reflexivity.
  - split; [exact Hl|]. split; [exact Hs|]. split; [apply H3; discriminate|].
    fold final in H4. rewrite H4, Hr. reflexivity.
Defined.

(** ** The layout of the canvas *)

Lemma truthy_nonzero (v : Q) : Js.truthy v = true -> ~ v == 0.
Proof.
  unfold Js.truthy. intros H E. apply negb_true_iff in H.
  apply Qeq_bool_iff in E. congruence.
Qed.

Lemma nonzero_truthy (v : Q) : ~ v == 0 -> Js.truthy v = true.
Proof.
  unfold Js.truthy. intros H. destruct (Qeq_bool v 0) eqn:E; [|reflexivity].
  apply Qeq_bool_iff in E. contradiction.
Qed.

Lemma Qmin3_cases (a b : Q) :
  let r := Qmin (Qmin a b) 1 in
  r <= a /\ r <= b /\ r <= 1 /\ (r == a \/ r == b \/ r == 1).
Proof.
  cbv zeta.
  destruct (Q.min_spec a b) as [[H1 E1]|[H1 E1]];
    destruct (Q.min_spec (Qmin a b) 1) as [[H2 E2]|[H2 E2]];
    rewrite E2; rewrite ?E1 in *; repeat split; auto; try lra.
Qed.

(** X27: the layout of the canvas, whatever the arithmetic of the pane
    rounds to.  The scale the layout effect stores is never zero once it
    is not.  Without an image or with an empty container the canvas is 0
    by 0, the scale is kept, and mouse-down, mouse-move and click find no
    coordinates.  With an image, a container and natural sizes that are
    not zero, the ratio is the least of 1 and the two quotients of the
    container by the natural size, as the pane computes them; the canvas
    is the natural size times the ratio, as the pane computes it; and the
    scale is the ratio, or 1 when the ratio is zero.  So the scale is at
    most 1, it is positive when neither quotient is negative, and it is 1
    when neither quotient is below 1. *)
Theorem canvas_layout (arith : Arith.t) (image : ImageState.t) (containerSize : Canvas.t)
        (v : Pointer.View) :
  let v' := Pointer.layoutEffect arith image containerSize v in
  (~ Pointer.scale v == 0 -> ~ Pointer.scale v' == 0) /\
  (ImageState.element image = None \/
   Canvas.width containerSize == 0 \/ Canvas.height containerSize == 0 ->
   Pointer.canvasSize v' = Canvas.mk 0 0 /\
   Pointer.scale v' = Pointer.scale v /\
   forall props evt, Pointer.getCoords arith v' props evt = None) /\
  (forall img,
      ImageState.element image = Some img ->
      let naturalWidth :=
        if Js.truthy (ImageState.width image) then ImageState.width image
        else Js.of_N (naturalWidth img) in
      let naturalHeight :=
        if Js.truthy (ImageState.height image) then ImageState.height image
        else Js.of_N (naturalHeight img) in
      ~ Canvas.width containerSize == 0 -> ~ Canvas.height containerSize == 0 ->
      ~ naturalWidth == 0 -> ~ naturalHeight == 0 ->
      let a := Arith.div arith (Canvas.width containerSize) naturalWidth in
      let b := Arith.div arith (Canvas.height containerSize) naturalHeight in
      let ratio := Qmin (Qmin a b) 1 in
      Pointer.canvasSize v'
      = Canvas.mk (Arith.mul arith naturalWidth ratio) (Arith.mul arith naturalHeight ratio) /\
      (~ ratio == 0 -> Pointer.scale v' = ratio) /\
      (ratio == 0 -> Pointer.scale v' = 1) /\
      Pointer.scale v' <= 1 /\
      (0 <= a -> 0 <= b -> 0 < Pointer.scale v') /\
      (1 <= a -> 1 <= b -> Pointer.scale v' == 1)).
Proof.
  intros v'. split; [|split].
  - intros Hs. unfold v', Pointer.layoutEffect.
    destruct (ImageState.element image) as [element|]; [|exact Hs].
    destruct (_ || _)%bool; [exact Hs|].
    match goal with |- context [(negb (Js.truthy ?a) || negb (Js.truthy ?b))%bool] =>
      destruct (negb (Js.truthy a) || negb (Js.truthy b))%bool end; [exact Hs|].
    cbn [Pointer.scale].
    match goal with |- context [Js.truthy ?r] => destruct (Js.truthy r) eqn:Er end.
    + apply truthy_nonzero. exact Er.
    + lra.
  - intros Hno.
    assert (v' = Pointer.mkView (Canvas.mk 0 0) (Pointer.scale v)) as E.
    { unfold v', Pointer.layoutEffect.
      destruct (ImageState.element image) as [element|]; [|reflexivity].
      destruct Hno as [Hno|[Hno|Hno]]; [discriminate| |].
      - apply Qeq_bool_iff in Hno. rewrite Hno. reflexivity.
      - apply Qeq_bool_iff in Hno. rewrite Hno, orb_true_r. reflexivity. }
    rewrite E. split; [reflexivity|]. split; [reflexivity|].
    intros props evt. unfold Pointer.getCoords, Pointer.canvasMounted. cbn.
    destruct (ImageState.element (Pointer.image props)); reflexivity.
  - intros img Himg nw nh Hcw Hch Hnw Hnh a b ratio.
    assert (v' = Pointer.mkView (Canvas.mk (Arith.mul arith nw ratio)
                                           (Arith.mul arith nh ratio))
                                (if Js.truthy ratio then ratio else 1)) as E.
    { unfold v', Pointer.layoutEffect. rewrite Himg.
      destruct (Qeq_bool (Canvas.width containerSize) 0) eqn:E1;
        [apply Qeq_bool_iff in E1; contradiction|].
      destruct (Qeq_bool (Canvas.height containerSize) 0) eqn:E2;
        [apply Qeq_bool_iff in E2; contradiction|].
      cbn [orb]. fold nw nh.
      rewrite (nonzero_truthy nw Hnw), (nonzero_truthy nh Hnh). cbn [negb orb].
      reflexivity. }
    rewrite E. cbn [Pointer.canvasSize Pointer.scale].
    destruct (Qmin3_cases a b) as (Hra & Hrb & Hr1 & Hr). fold ratio in Hra, Hrb, Hr1, Hr.
    split; [reflexivity|].
    destruct (Js.truthy ratio) eqn:Et.
    + apply truthy_nonzero in Et.
      split; [reflexivity|]. split; [intros E0; contradiction|].
      split; [exact Hr1|]. split.
      * intros Ha Hb. destruct Hr as [Er|[Er|Er]]; lra.
      * intros Ha Hb. lra.
    + assert (ratio == 0) as E0.
      { unfold Js.truthy in Et. apply negb_false_iff in Et. apply Qeq_bool_iff, Et. }
      split; [intros Hn; contradiction|]. split; [reflexivity|].
      split; [lra|]. split; [intros _ _; lra|]. intros _ _. reflexivity.
Qed.

(** The theorem without rounding on the 1000 x 600 image in a container
    of 500 x 500: the canvas is 500 x 300 at scale 1/2. *)
Lemma canvas_layout_witness :
  let v' := Pointer.layoutEffect Arith.exact (loaded_image wide_image) (Canvas.mk 500 500)
                                 Pointer.initialView in
  Pointer.scale v' == 1 # 2 /\
  Canvas.width (Pointer.canvasSize v') == 500 /\
  Canvas.height (Pointer.canvasSize v') == 300 /\
  0 < Pointer.scale v'.
Proof.
  intros v'.
  destruct (canvas_layout Arith.exact (loaded_image wide_image) (Canvas.mk 500 500)
                          Pointer.initialView) as (_ & _ & H).
  destruct (H wide_image eq_refl) as (_ & _ & _ & _ & Hpos & _);
    try (vm_compute; discriminate).
  split; [vm_compute; reflexivity|]. split; [vm_compute; reflexivity|].
  split; [vm_compute; reflexivity|].
  apply Hpos; vm_compute; discriminate.
Defined.

(** ** Picking the center of a rotation *)

Lemma lab_run_frame (arith : Arith.t) (context2d : bool) (tree : DecisionTree.t)
      (view : Pointer.View)
      (events : list Pointer.Event) (r : Pointer.Refs) (s : App.State) :
  let s' := snd (Lab.run arith context2d tree view events (r, s)) in
  App.image s' = App.image s /\
  App.currentNodeId s' = App.currentNodeId s /\
  App.selectedAnswerKey s' = App.selectedAnswerKey s /\
  App.history s' = App.history s /\
  ProofState.type (App.proofState s') = ProofState.type (App.proofState s).
Proof.
  revert r s. induction events as [|e events IH]; intros r s; cbn [Lab.run].
  { cbn. repeat split; reflexivity. }
  destruct (Lab.step arith context2d tree view e (r, s)) as [r1 s1] eqn:E1.
  pose proof (step_frame arith context2d tree view e r s) as Hf.
  rewrite E1 in Hf. cbn [snd] in Hf. destruct Hf as (Hi & Hc & Hk & Hh & Ht).
  destruct (IH r1 s1) as (Hi' & Hc' & Hk' & Hh' & Ht').
  cbv zeta. repeat split; congruence.
Qed.

Lemma proofInteractionsEnabled_frame (tree : DecisionTree.t) (s s' : App.State) :
  App.image s' = App.image s ->
  App.currentNodeId s' = App.currentNodeId s ->
  App.selectedAnswerKey s' = App.selectedAnswerKey s ->
  Lab.proofInteractionsEnabled tree s' = Lab.proofInteractionsEnabled tree s /\
  Lab.showUnitCellGuides tree s' = Lab.showUnitCellGuides tree s.
Proof.
  intros Hi Hc Hk.
  unfold Lab.proofInteractionsEnabled, Lab.showUnitCellGuides, Lab.isLeaf, App.imageReady,
    App.answerSelected, App.currentNode.
  rewrite Hi, Hc, Hk. split; reflexivity.
Qed.

Lemma handleRotationPick_usable (context2d : bool) (image : ImageState.t)
      (img : HTMLImageElement) (point : Point.t) (st : ProofState.t) :
  context2d = true ->
  ImageState.element image = Some img ->
  ImageTools.availableWidth img <> 0%N ->
  ImageTools.availableHeight img <> 0%N ->
  ProofState.type st = PTrotation ->
  let st' := Proof.handleRotationPick context2d image point st in
  ProofState.center st' = Some point /\
  ProofState.ready (ProofState.base st') = true /\
  ProofState.angleDeg st' = ProofState.angleDeg st /\
  ProofState.repeats st' = ProofState.repeats st.
Proof.
  intros Hctx Himg Hw Hh Htype st'. unfold st', Proof.handleRotationPick. rewrite Himg.
  destruct st; try discriminate.
  match goal with
  | |- context [ImageTools.samplePatch ?c ?i ?m ?s] =>
    destruct (ImageTools.samplePatch c i m s) as [patch|] eqn:Es;
      [|apply samplePatch_None_iff in Es as [Es|[Es|Es]]; congruence]
  end.
  repeat split; reflexivity.
Qed.

(** X29: picking the center.  Whatever the arithmetic of the pane rounds
    to: with an answer selected whose proof is a rotation, on a mounted
    canvas over an image that can be sampled, a click makes the clicked
    point the center and the proof ready, with the angle and the number of
    turns it had, whatever pointer events came before and whatever the
    pane was doing, and it leaves the refs of the pane alone.  On any
    other proof a click does nothing. *)
Theorem click_sets_center (arith : Arith.t) (context2d : bool) (tree : DecisionTree.t)
        (view : Pointer.View)
        (events : list Pointer.Event) (r : Pointer.Refs) (s : App.State)
        (img : HTMLImageElement) (evt : Point.t) :
  context2d = true ->
  ImageState.element (App.image s) = Some img ->
  ImageTools.availableWidth img <> 0%N ->
  ImageTools.availableHeight img <> 0%N ->
  0 < Canvas.width (Pointer.canvasSize view) ->
  Lab.proofInteractionsEnabled tree s = true ->
  let before := Lab.run arith context2d tree view events (r, s) in
  let final := Lab.run arith context2d tree view (events ++ [Pointer.Click evt]) (r, s) in
  fst final = fst before /\
  (ProofState.type (App.proofState s) = PTrotation ->
   ProofState.center (App.proofState (snd final)) = Some (coords_of arith view evt) /\
   ProofState.ready (ProofState.base (App.proofState (snd final))) = true /\
   ProofState.angleDeg (App.proofState (snd final))
   = ProofState.angleDeg (App.proofState (snd before)) /\
   ProofState.repeats (App.proofState (snd final))
   = ProofState.repeats (App.proofState (snd before))) /\
  (ProofState.type (App.proofState s) <> PTrotation -> final = before).
Proof.
  intros Hctx Himg Hw Hh Hcanvas Hon before final.
  destruct (lab_run_frame arith context2d tree view events r s) as (Hi & Hc & Hk & _ & Ht).
  fold before in Hi, Hc, Hk, Ht.
  destruct (proofInteractionsEnabled_frame tree s (snd before) Hi Hc Hk) as [Hon' _].
  rewrite Hon in Hon'.
  assert (final = Lab.step arith context2d tree view (Pointer.Click evt) before) as Efinal.
  { unfold final. rewrite lab_run_app. reflexivity. }
  assert (Pointer.getCoords arith view (Lab.props tree (snd before)) evt
          = Some (coords_of arith view evt)) as Ecoords.
  { unfold Pointer.getCoords, Pointer.canvasMounted. cbn [Lab.props Pointer.image].
    rewrite Hi, Himg.
    destruct (Qle_bool (Canvas.width (Pointer.canvasSize view)) 0) eqn:E;
      [apply Qle_bool_iff in E; lra|reflexivity]. }
  rewrite Efinal. unfold Lab.step. cbn [Pointer.handle].
  unfold Pointer.handleCanvasClick.
  cbn [Lab.props Pointer.interactionsEnabled Pointer.activeProofType].
  rewrite Hon', Ht, Ecoords. cbn [negb].
  split; [destruct (ProofState.type (App.proofState s)); reflexivity|]. split.
  - intros Hrot. rewrite Hrot. cbn [snd Lab.event_of].
    destruct (dispatch_ProofOp context2d tree (Proof.RotationPick (coords_of arith view evt))
                               (snd before)) as (-> & _).
    cbn [Proof.apply]. rewrite Hi.
    apply (handleRotationPick_usable context2d (App.image s) img); try assumption.
    congruence.
  - intros Hrot. destruct (ProofState.type (App.proofState s)); try congruence;
      destruct before; reflexivity.
Qed.

(** The theorem on the example session, without rounding: at [q2] the
    answer "yes" asks for a quarter turn; a click at (500, 300) picks the
    center. *)
Lemma click_sets_center_witness :
  let s := App.dispatch true example_tree (App.SelectAnswer "yes")
             (App.dispatch true example_tree App.ConfirmAnswer mirror_drawn) in
  let final := Lab.run Arith.exact true example_tree full_view
                       ([] ++ [Pointer.Click (Point.mk 500 300)]) (Pointer.initialRefs, s) in
  ProofState.type (App.proofState s) = PTrotation /\
  ProofState.center (App.proofState (snd final))
  = Some (coords_of Arith.exact full_view (Point.mk 500 300)) /\
  ProofState.ready (ProofState.base (App.proofState (snd final))) = true.
Proof.
  intros s final.
  assert (ProofState.type (App.proofState s) = PTrotation) as Ht by (vm_compute; reflexivity).
  assert (ImageState.element (App.image s) = Some wide_image) as Hi
      by (vm_compute; reflexivity).
  destruct (click_sets_center Arith.exact true example_tree full_view [] Pointer.initialRefs s
              wide_image (Point.mk 500 300)) as (_ & H & _).
  - reflexivity.
  - exact Hi.
  - vm_compute. discriminate.
  - vm_compute. discriminate.
  - vm_compute. reflexivity.
  - vm_compute. reflexivity.
  - destruct (H Ht) as (Hc & Hr & _). split; [exact Ht|]. split; assumption.
Defined.

(** ** Reshaping the unit cell *)

Lemma handleUnitCellChange_drag (arith : Arith.t) (tree : DecisionTree.t) (s : App.State)
      (canvasSize : Canvas.t) (scale : Q) (c : ImagePane.Corner) (coords : Point.t) :
  (forall c', in_unit_square (ImagePane.corner c' (App.unitCell s))) ->
  let dragged := ImagePane.dragUnitCell arith (App.image s) canvasSize scale c coords
                                        (App.unitCell s) in
  let s' := App.handleUnitCellChange dragged s in
  ImagePane.corner c (App.unitCell s')
  = ImagePane.imageToNormalized arith (App.image s) canvasSize scale coords /\
  (forall c', c' <> c ->
              ImagePane.corner c' (App.unitCell s') = ImagePane.corner c' (App.unitCell s)).
Proof.
  intros Hcell dragged s'.
  assert (forall c', ImagePane.corner c' (App.unitCell s')
                     = ImagePane.corner c' dragged) as Hkeep.
  { intros c'. subst s'. cbn.
    assert (in_unit_square (ImagePane.corner c' dragged)) as Hc'.
    { subst dragged. unfold ImagePane.dragUnitCell.
      pose proof (imageToNormalized_in_unit_square arith (App.image s) canvasSize scale coords)
        as Hn.
      destruct c, c'; cbn; first [exact Hn | apply (Hcell ImagePane.cornerA)
        | apply (Hcell ImagePane.cornerB) | apply (Hcell ImagePane.cornerC)
        | apply (Hcell ImagePane.cornerD)]. }
    destruct c'; cbn in *; apply clamp01_keeps; exact Hc'. }
  split; [rewrite Hkeep; subst dragged; destruct c; reflexivity|].
  intros c' Hne. rewrite Hkeep. subst dragged. destruct c, c'; try reflexivity; congruence.
Qed.

Lemma unitCellPoints_props (tree : DecisionTree.t) (arith : Arith.t) (view : Pointer.View)
      (s : App.State) :
  exists points, Pointer.unitCellPoints arith view (Lab.props tree s) = Some points.
Proof. unfold Pointer.unitCellPoints. cbn. eexists. reflexivity. Qed.

Section Reshape.
Variable arith : Arith.t.
Variable context2d : bool.
Variable tree : DecisionTree.t.
Variable view : Pointer.View.
Variable c : ImagePane.Corner.

Lemma lab_reshape_moves (evts : list Point.t) (s : App.State) :
  App.reachable context2d tree s ->
  Pointer.canvasMounted view (Lab.props tree s) = true ->
  Lab.showUnitCellGuides tree s = true ->
  let final := Lab.run arith context2d tree view (map Pointer.MouseMove evts)
                       (refs_of (Reshaping c), s) in
  fst final = refs_of (Reshaping c) /\
  App.proofState (snd final) = App.proofState s /\
  App.draftStore (snd final) = App.draftStore s /\
  (forall d,
      evts <> [] ->
      ImagePane.corner c (App.unitCell (snd final))
      = ImagePane.imageToNormalized arith (App.image s) (Pointer.canvasSize view)
                                    (Pointer.scale view)
                                    (coords_of arith view (List.last evts d))) /\
  (forall c', c' <> c ->
              ImagePane.corner c' (App.unitCell (snd final))
              = ImagePane.corner c' (App.unitCell s)).
Proof.
  revert s. induction evts as [|evt evts IH]; intros s Hreach Hm Hg.
  { cbn. repeat split; try reflexivity. intros d H. congruence. }
  cbn [map Lab.run].
  set (dragged := ImagePane.dragUnitCell arith (App.image s) (Pointer.canvasSize view)
                                         (Pointer.scale view) c (coords_of arith view evt)
                                         (App.unitCell s)).
  assert (Lab.step arith context2d tree view (Pointer.MouseMove evt) (refs_of (Reshaping c), s)
          = (refs_of (Reshaping c), App.handleUnitCellChange dragged s)) as E.
  { unfold Lab.step. cbn [fst snd Pointer.handle]. unfold Pointer.handleMove, Pointer.getCoords.
    rewrite Hm. fold (coords_of arith view evt).
    destruct (unitCellPoints_props tree arith view s) as (points & ->).
    cbn [refs_of Pointer.unitCellDragRef Lab.props Pointer.unitCell Pointer.unitCellEditable
         Pointer.image].
    rewrite Hg. cbn [Lab.event_of]. rewrite dispatch_UnitCellChange. reflexivity. }
  rewrite E.
  set (s1 := App.handleUnitCellChange dragged s).
  assert (App.reachable context2d tree s1) as Hreach1.
  { unfold s1. rewrite <- (dispatch_UnitCellChange context2d tree). constructor. exact Hreach. }
  assert (Pointer.canvasMounted view (Lab.props tree s1) = true) as Hm1 by exact Hm.
  assert (Lab.showUnitCellGuides tree s1 = true) as Hg1 by exact Hg.
  destruct (IH s1 Hreach1 Hm1 Hg1) as (H1 & H2 & H3 & H4 & H5).
  destruct (handleUnitCellChange_drag arith tree s (Pointer.canvasSize view) (Pointer.scale view)
              c (coords_of arith view evt) (reachable_unitCell context2d tree s Hreach))
    as (Hc & Hothers).
  fold dragged in Hc, Hothers. fold s1 in Hc, Hothers.
  cbv zeta. split; [exact H1|]. split; [exact H2|]. split; [exact H3|]. split.
  - intros d _. rewrite last_cons_default. destruct evts as [|evt2 evts].
    + exact Hc.
    + apply (H4 evt). discriminate.
  - intros c' Hne. rewrite (H5 c' Hne). apply Hothers. exact Hne.
Qed.
End Reshape.

(** X30: reshaping the unit cell.  Whatever the arithmetic of the pane
    rounds to: in a reachable state with the guides of the unit cell
    shown, interactions enabled and a canvas of positive width, a
    mouse-down that the pane's own test ([Math.hypot] of the offsets,
    times the scale, at most 14) places on a corner (the first of A, B,
    C, D for which the test holds), followed by mouse moves and the
    mouse-up, leaves that corner at the normalized position of the last
    move, as the pane computes it, and the three others where they were;
    the proof and the drafts are not touched, no line is started, and the
    pane is idle afterwards. *)
Theorem reshape_unit_cell (arith : Arith.t) (context2d : bool) (tree : DecisionTree.t)
        (view : Pointer.View)
        (s : App.State) (points : UnitCellState.t) (c : ImagePane.Corner)
        (evt0 : Point.t) (evts : list Point.t) :
  App.reachable context2d tree s ->
  0 < Canvas.width (Pointer.canvasSize view) ->
  Lab.proofInteractionsEnabled tree s = true ->
  Lab.showUnitCellGuides tree s = true ->
  Pointer.unitCellPoints arith view (Lab.props tree s) = Some points ->
  Pointer.hitCorner arith view points (coords_of arith view evt0) = Some c ->
  let final :=
    Lab.run arith context2d tree view
            (Pointer.MouseDown evt0 :: map Pointer.MouseMove evts ++ [Pointer.MouseUp])
            (Pointer.initialRefs, s) in
  fst final = Pointer.initialRefs /\
  App.proofState (snd final) = App.proofState s /\
  App.draftStore (snd final) = App.draftStore s /\
  (evts <> [] ->
   ImagePane.corner c (App.unitCell (snd final))
   = ImagePane.imageToNormalized arith (App.image s) (Pointer.canvasSize view)
                                 (Pointer.scale view)
                                 (coords_of arith view (List.last evts evt0))) /\
  (forall c', c' <> c ->
              ImagePane.corner c' (App.unitCell (snd final))
              = ImagePane.corner c' (App.unitCell s)).
Proof.
  intros Hreach Hcanvas Hon Hg Hpoints Hhit final.
  assert (App.imageReady s = true) as Himg.
  { unfold Lab.proofInteractionsEnabled in Hon.
    destruct (App.imageReady s); [reflexivity|discriminate]. }
  assert (Pointer.canvasMounted view (Lab.props tree s) = true) as Hm.
  { unfold Pointer.canvasMounted. cbn [Lab.props Pointer.image].
    unfold App.imageReady in Himg.
    destruct (ImageState.element (App.image s)); [|discriminate].
    destruct (Qle_bool (Canvas.width (Pointer.canvasSize view)) 0) eqn:E;
      [apply Qle_bool_iff in E; lra|reflexivity]. }
  assert (Lab.step arith context2d tree view (Pointer.MouseDown evt0) (Pointer.initialRefs, s)
          = (refs_of (Reshaping c), s)) as Edown.
  { unfold Lab.step. cbn [fst snd Pointer.handle].
    unfold Pointer.handleMouseDown, Pointer.getCoords. rewrite Hm, Hpoints.
    cbn [Lab.props Pointer.interactionsEnabled Pointer.showUnitCellGuides
         Pointer.unitCellEditable Pointer.unitCell].
    rewrite Hon, Hg. cbn [negb andb]. fold (coords_of arith view evt0). rewrite Hhit.
    reflexivity. }
  destruct (lab_reshape_moves arith context2d tree view c evts s Hreach Hm Hg)
    as (H1 & H2 & H3 & H4 & H5).
  set (mid := Lab.run arith context2d tree view (map Pointer.MouseMove evts)
                      (refs_of (Reshaping c), s)) in *.
  assert (final = (Pointer.initialRefs, snd mid)) as Efinal.
  { unfold final. cbn [Lab.run]. rewrite Edown, lab_run_app. fold mid.
    cbn [Lab.run]. unfold Lab.step. cbn [Pointer.handle]. rewrite H1. reflexivity. }
  rewrite Efinal. cbn [fst snd].
  split; [reflexivity|]. split; [exact H2|]. split; [exact H3|].
  split; [intros Hne; apply (H4 evt0 Hne)|exact H5].
Qed.


(** The theorem on the example session, without rounding: at [q3] corner A
    of the default cell, at (150, 90) in the image, is grabbed 2 pixels
    off and dragged to (300, 120), that is to (0.3, 0.2). *)
Lemma reshape_unit_cell_witness :
  let final :=
    Lab.run Arith.exact true example_tree full_view
            (Pointer.MouseDown (Point.mk 152 92)
               :: map Pointer.MouseMove [Point.mk 300 120] ++ [Pointer.MouseUp])
            (Pointer.initialRefs, half_turn_selected) in
  let target :=
    ImagePane.imageToNormalized Arith.exact (App.image half_turn_selected)
                                (Pointer.canvasSize full_view) (Pointer.scale full_view)
                                (coords_of Arith.exact full_view
                                           (List.last [Point.mk 300 120] (Point.mk 152 92))) in
  (Point.x target == 3 # 10 /\ Point.y target == 2 # 10) /\
  ImagePane.corner ImagePane.cornerA (App.unitCell (snd final)) = target /\
  ImagePane.corner ImagePane.cornerB (App.unitCell (snd final))
  = ImagePane.corner ImagePane.cornerB (App.unitCell half_turn_selected).
Proof.
  intros final target.
  assert (App.reachable true example_tree half_turn_selected) as Hreach.
  { do 3 constructor. constructor. }
  assert (0 < Canvas.width (Pointer.canvasSize full_view)) as Hcanvas
      by (vm_compute; reflexivity).
  assert (Lab.proofInteractionsEnabled example_tree half_turn_selected = true) as Hon
      by (vm_compute; reflexivity).
  assert (Lab.showUnitCellGuides example_tree half_turn_selected = true) as Hg
      by (vm_compute; reflexivity).
  let v := eval vm_compute in
             (Pointer.unitCellPoints Arith.exact full_view
                                     (Lab.props example_tree half_turn_selected)) in
  match v with
  | Some ?points =>
    assert (Pointer.unitCellPoints Arith.exact full_view (Lab.props example_tree half_turn_selected)
            = Some points) as Hp by (vm_compute; reflexivity);
    assert (Pointer.hitCorner Arith.exact full_view points
                              (coords_of Arith.exact full_view (Point.mk 152 92))
            = Some ImagePane.cornerA) as Hhit by (vm_compute; reflexivity);
    pose proof (reshape_unit_cell Arith.exact true example_tree full_view half_turn_selected points
                  ImagePane.cornerA (Point.mk 152 92) [Point.mk 300 120]
                  Hreach Hcanvas Hon Hg Hp Hhit) as H
  end.
  cbv zeta in H. destruct H as (_ & _ & _ & Hc & Hothers).
  split; [split; vm_compute; reflexivity|].
  split; [apply Hc; discriminate|apply Hothers; discriminate].
Defined.

